(** * skbio.sequence._sequence: the immutable [Sequence] core

    A shallow embedding of [skbio/sequence/_sequence.py] and proofs of
    its documented contracts.  Python exceptions are values of [exn]
    carried by the error monad [result]; generators are modelled by the
    list of the values they yield.  NumPy arrays are lists, Python
    integers are [Z], floats that the code obtains as a ratio of two
    integers are exact rationals. *)

From Stdlib Require Import ZArith QArith Strings.Byte Ascii String.
From stdpp Require Import base list strings gmap.

Local Open Scope Z_scope.

Global Instance byte_eq_decision : EqDecision byte := Byte.byte_eq_dec.

(* ================================================================= *)
(** ** Exceptions and the error monad *)

(** The exception classes the module raises, with the message format
    of the raising statement (the [%r]/[%d] holes left unfilled). *)
Inductive exn :=
| TypeError (msg : string)
| ValueError (msg : string)
| IndexError (msg : string)
| UnicodeEncodeError
| UnicodeDecodeError
| ZeroDivisionError
| ReError.

Inductive result (A : Type) :=
| Ok (a : A)
| Raise (e : exn).
Arguments Ok {A} a.
Arguments Raise {A} e.

Global Instance result_ret : MRet result := fun A a => Ok a.
Global Instance result_bind : MBind result := fun A B f m =>
  match m with
  | Ok a => f a
  | Raise e => Raise e
  end.
Global Instance result_fmap : FMap result := fun A B f m =>
  match m with
  | Ok a => Ok (f a)
  | Raise e => Raise e
  end.

(** Running a loop body over a list, stopping at the first exception. *)
Fixpoint traverse {A B} (f : A -> result B) (l : list A) : result (list B) :=
  match l with
  | [] => Ok []
  | x :: l' => y ← f x; ys ← traverse f l'; Ok (y :: ys)
  end.

Definition is_ok {A} (r : result A) : bool :=
  match r with Ok _ => true | Raise _ => false end.

(* ================================================================= *)
(** ** Python built-ins used by the module *)

Module Py.

(** [slice(start, stop, step)]; [None] fields are [None]. *)
Record slice := Slice { start : option Z; stop : option Z; step : option Z }.

(** [slice.indices(len)]: the defaults and the clamping of CPython. *)
Definition clamp (len st lower upper v : Z) : Z :=
  if v <? 0 then Z.max (v + len) lower else Z.min v upper.

Definition slice_indices (sl : slice) (len : Z) : result (Z * Z * Z) :=
  let st := default 1 (step sl) in
  if st =? 0 then Raise (ValueError "slice step cannot be zero") else
  let lower := if st <? 0 then -1 else 0 in
  let upper := if st <? 0 then len - 1 else len in
  let b := match start sl with
           | None => if st <? 0 then upper else lower
           | Some v => clamp len st lower upper v
           end in
  let e := match stop sl with
           | None => if st <? 0 then lower else upper
           | Some v => clamp len st lower upper v
           end in
  Ok (b, e, st).

(** Number of elements in [range(lo, hi, st)] (and in a slice). *)
Definition range_length (lo hi st : Z) : Z :=
  if 0 <? st then (if lo <? hi then 1 + (hi - 1 - lo) / st else 0)
  else if st <? 0 then (if hi <? lo then 1 + (lo - 1 - hi) / (- st) else 0)
  else 0.

Definition range_items (lo st : Z) (n : nat) : list Z :=
  (fun j => lo + Z.of_nat j * st) <$> seq 0 n.

(** [range(lo, hi, st)] *)
Definition range (lo hi st : Z) : result (list Z) :=
  if st =? 0 then Raise (ValueError "range() arg 3 must not be zero")
  else Ok (range_items lo st (Z.to_nat (range_length lo hi st))).

(** The index normalisation shared by [bytes.count], [bytes.find] and
    [bytes.index]: [start=None] is 0, [end=None] is the length. *)
Definition adjust_indices (start end_ : option Z) (len : Z) : Z * Z :=
  let e := match end_ with
           | None => len
           | Some e => if len <? e then len
                       else if e <? 0 then Z.max (e + len) 0 else e
           end in
  let b := match start with
           | None => 0
           | Some b => if b <? 0 then Z.max (b + len) 0 else b
           end in
  (b, e).

Definition window {A} (s : list A) (b e : Z) : list A :=
  take (Z.to_nat (e - b)) (drop (Z.to_nat b) s).

Fixpoint startswith (sub s : list byte) : bool :=
  match sub, s with
  | [], _ => true
  | _ :: _, [] => false
  | x :: sub', y :: s' => Byte.eqb x y && startswith sub' s'
  end.

(** The left-to-right scan of [bytes.count] for a non-empty [sub]:
    after a hit the scan resumes [len(sub)] positions later, which
    [skip] counts down. *)
Fixpoint scan_count (sub s : list byte) (skip : nat) : nat :=
  match s with
  | [] => 0%nat
  | _ :: s' =>
      match skip with
      | S k => scan_count sub s' k
      | O => if startswith sub s
             then S (scan_count sub s' (length sub - 1))
             else scan_count sub s' 0
      end
  end.

(** [s.count(sub, start, end)] *)
Definition bytes_count (s sub : list byte) (start end_ : option Z) : Z :=
  let '(b, e) := adjust_indices start end_ (Z.of_nat (length s)) in
  if e - b <? Z.of_nat (length sub) then 0
  else match sub with
       | [] => e - b + 1
       | _ => Z.of_nat (scan_count sub (window s b e) 0)
       end.

(** Offset of the first occurrence of a non-empty [sub] in [s]. *)
Fixpoint scan_find (sub s : list byte) : option nat :=
  match s with
  | [] => None
  | _ :: s' => if startswith sub s then Some O
               else S <$> scan_find sub s'
  end.

(** [s.find(sub, start, end)], [-1] when absent *)
Definition bytes_find (s sub : list byte) (start end_ : option Z) : Z :=
  let '(b, e) := adjust_indices start end_ (Z.of_nat (length s)) in
  if e - b <? Z.of_nat (length sub) then -1
  else match sub with
       | [] => b
       | _ => match scan_find sub (window s b e) with
              | Some i => b + Z.of_nat i
              | None => -1
              end
       end.

(** [s.index(sub, start, end)] *)
Definition bytes_index (s sub : list byte) (start end_ : option Z)
  : result Z :=
  let r := bytes_find s sub start end_ in
  if r <? 0 then Raise (ValueError "subsection not found") else Ok r.

(** [text.encode("ascii")] and [bytes.decode("ascii")] *)
Definition is_ascii_byte (b : byte) : bool := (Byte.to_N b <? 128)%N.

Definition encode_ascii (t : string) : result (list byte) :=
  let bs := list_byte_of_string t in
  if forallb is_ascii_byte bs then Ok bs else Raise UnicodeEncodeError.

Definition decode_ascii (bs : list byte) : result string :=
  if forallb is_ascii_byte bs then Ok (string_of_list_byte bs)
  else Raise UnicodeDecodeError.

(** [a / b] under [from __future__ import division] *)
Definition truediv (a b : Z) : result Q :=
  if b =? 0 then Raise ZeroDivisionError
  else Ok (Qmake (a * Z.sgn b) (Z.to_pos (Z.abs b))).

End Py.

(* ================================================================= *)
(** ** NumPy operations on one-dimensional arrays *)

Module Np.

Section Indexing.
Context {A : Type}.

(** [a[i]] for a Python integer [i] *)
Definition getitem_int (a : list A) (i : Z) : result A :=
  let n := Z.of_nat (length a) in
  let j := if i <? 0 then i + n else i in
  if (j <? 0) || (n <=? j)
  then Raise (IndexError "index out of bounds")
  else match a !! Z.to_nat j with
       | Some x => Ok x
       | None => Raise (IndexError "index out of bounds")
       end.

(** The elements at [b, b + st, ...], [n] of them. *)
Definition strided (a : list A) (b st : Z) (n : nat) : list A :=
  omap (fun i => a !! Z.to_nat i) (Py.range_items b st n).

(** [a[sl]] for a slice object *)
Definition getitem_slice (a : list A) (sl : Py.slice) : result (list A) :=
  '(b, e, st) ← Py.slice_indices sl (Z.of_nat (length a));
  Ok (strided a b st (Z.to_nat (Py.range_length b e st))).

(** The elements of [a] where [m] holds. *)
Fixpoint compress (m : list bool) (a : list A) : list A :=
  match m, a with
  | b :: m', x :: a' => if b then x :: compress m' a' else compress m' a'
  | _, _ => []
  end.

(** [a[m]] for a boolean array [m] *)
Definition getitem_mask (a : list A) (m : list bool) : result (list A) :=
  if decide (length m = length a) then Ok (compress m a)
  else Raise (IndexError "boolean index did not match indexed array").

(** [a[ix]] for an integer array [ix] *)
Definition getitem_ints (a : list A) (ix : list Z) : result (list A) :=
  traverse (getitem_int a) ix.

(** [np.concatenate(arrays)] *)
Definition concatenate (arrays : list (list A)) : result (list A) :=
  match arrays with
  | [] => Raise (ValueError "need at least one array to concatenate")
  | _ => Ok (concat arrays)
  end.
End Indexing.

(** [np.invert(m)] on a boolean array *)
Definition invert (m : list bool) : list bool := negb <$> m.

(** The cast of a [uint64] index to [intp], which NumPy does without
    a range check: the upper half of the range wraps to the negative
    numbers. *)
Definition to_intp (i : Z) : Z := if 2 ^ 63 <=? i then i - 2 ^ 64 else i.

(** [np.where(m)[0]]: the positions at which [m] holds. *)
Fixpoint nonzero_from (i : Z) (m : list bool) : list Z :=
  match m with
  | [] => []
  | b :: m' => if b then i :: nonzero_from (i + 1) m'
               else nonzero_from (i + 1) m'
  end.
Definition where_ (m : list bool) : list Z := nonzero_from 0 m.

(** [np.array_equal(a, b)] where each side is [None] or a 1-D integer
    array: [None] becomes a 0-d array, so the shapes differ unless
    both sides are [None] or both are arrays of one length. *)
Definition array_equal (a b : option (list Z)) : bool :=
  match a, b with
  | None, None => true
  | Some x, Some y =>
      bool_decide (length x = length y) && forallb (fun p => fst p =? snd p) (zip x y)
  | _, _ => false
  end.

(** [a == b] on two arrays of one length, element by element *)
Definition eq_elementwise (a b : list byte) : list bool :=
  zip_with Byte.eqb a b.

(** [a != b], element by element *)
Definition ne_elementwise (a b : list byte) : list bool :=
  zip_with (fun x y => negb (Byte.eqb x y)) a b.

(** [m.sum()] of a boolean array *)
Definition sum_bool (m : list bool) : Z :=
  foldr (fun b acc => (if b : bool then 1 else 0) + acc) 0 m.

End Np.

(** A float obtained as [num / den] of two integers; [0 / 0] of a
    NumPy mean is [nan]. *)
Inductive pyfloat :=
| Float (q : Q)
| NaN.

(** [scipy.spatial.distance.hamming(u, v)] = [(u != v).mean()] *)
Definition hamming (u v : list byte) : pyfloat :=
  let ne := Np.ne_elementwise u v in
  match length ne with
  | O => NaN
  | S n => Float (Qmake (Np.sum_bool ne) (Pos.of_succ_nat n))
  end.

(* ================================================================= *)
(** ** The [Sequence] class *)

(** A class is known by its name; ["Sequence"] is the base class. *)
Definition pyclass := string.

Record Sequence := {
  __class__ : pyclass;
  _bytes : list byte;
  _id : string;
  _description : string;
  _quality : option (list Z)
}.

(** Constructor arguments. *)
Inductive array_dtype := Uint8 | S1 | OtherDtype.

(** Anything that is not a [Sequence]: text, a byte string, an
    [np.ndarray], a NumPy scalar (with the bytes of its buffer). *)
Inductive raw_arg :=
| FromText (t : string)
| FromBytes (b : list byte)
| FromArray (dt : array_dtype) (data : list byte)
| FromScalar (buffer : list byte).

Inductive sequence_arg :=
| FromSequence (s : Sequence)
| FromRaw (r : raw_arg).

Inductive str_arg :=
| Str (s : string)
| NotStr.

(** The quality argument, as [np.asarray] sees it.  [QScalar] and
    [QVector] are a Python int and a list of Python ints; [QItem] and
    [QArray] are an element and a 1-D slice of an array of dtype [int],
    as [self.quality] and an indexing of it give; [QNested] is a nested
    list of ints that fit the dtype [int], an array of [2 + extra_dims]
    dimensions; [QUnsafe] is any value whose array has no safe cast to
    [int]: floats (the array of the nested empty list [[[]]] among
    them), text, objects. *)
Inductive quality_arg :=
| QScalar (q : Z)
| QVector (q : list Z)
| QNested (extra_dims : nat)
| QItem (q : Z)
| QArray (q : list Z)
| QUnsafe.

Definition ndim (q : quality_arg) : nat :=
  match q with
  | QScalar _ | QItem _ => 0
  | QVector _ | QArray _ => 1
  | QNested d => 2 + d
  | QUnsafe => 1
  end.

(** The Python ints that fit the dtype [int], a C long of 64 bits,
    and those that fit [uint64] only. *)
Definition int64 (i : Z) : bool := (- 2 ^ 63 <=? i) && (i <? 2 ^ 63).
Definition uint64_only (i : Z) : bool := (2 ^ 63 <=? i) && (i <? 2 ^ 64).

(** [quality.astype(int, casting=cast_type, copy=False)] succeeds: a
    list with an int outside [int64] becomes an array of dtype
    [uint64], [float64] or [object], none of which casts safely; the
    empty list is the empty float vector, which is cast unsafely. *)
Definition safe_cast (q : quality_arg) : bool :=
  match q with
  | QScalar q => int64 q
  | QVector q => forallb int64 q
  | QNested _ | QItem _ | QArray _ => true
  | QUnsafe => false
  end.

(** The exceptions of the documented contracts. *)
Definition InvalidIndexError : exn :=
  IndexError "Cannot slice sequence from iterable containing %r.".
Definition EmptyQueryError : exn :=
  ValueError "`count` is not defined for empty subsequences.".
Definition NotFoundError : exn :=
  ValueError "%r is not present in %r.".
Definition InvalidArgumentError : exn :=
  ValueError "k must be greater than 0.".
Definition DistanceLengthMismatchError : exn :=
  ValueError "Sequences do not have equal length. Hamming distances can only be computed between sequences of equal length.".
Definition MatchLengthMismatchError : exn :=
  ValueError "Match and mismatch vectors can only be generated from equal length sequences.".
Definition CastError : exn :=
  TypeError "Cannot cast array from dtype(%r) to dtype('int64') according to the rule 'safe'".

Definition __len__ (self : Sequence) : Z := Z.of_nat (length (_bytes self)).

Definition _string (self : Sequence) : list byte := _bytes self.

Definition _has_quality (self : Sequence) : bool :=
  match _quality self with Some _ => true | None => false end.

Definition _set_id (id_ : str_arg) : result string :=
  match id_ with
  | Str s => Ok s
  | NotStr => Raise (TypeError "Sequence ID %r must be of type `str`.")
  end.

Definition _set_description (description : str_arg) : result string :=
  match description with
  | Str s => Ok s
  | NotStr =>
      Raise (TypeError "Sequence description %r must be of type `str`.")
  end.

Definition _set_sequence (sequence : raw_arg) : result (list byte) :=
  match sequence with
  | FromArray Uint8 data => Ok data
  | FromArray S1 data => Ok data
  | FromArray OtherDtype _ =>
      Raise (TypeError "Can only create sequence from numpy.ndarray of dtype np.uint8 or '|S1'. Invalid dtype: %s")
  | FromText t => Py.encode_ascii t
  | FromBytes b => Ok b
  | FromScalar buffer =>
      if decide (length buffer ≠ 1%nat)
      then Raise (TypeError "Can cannot create a sequence with %r")
      else Ok buffer
  end.

Definition _set_quality (n : Z) (quality : option quality_arg)
  : result (option (list Z)) :=
  match quality with
  | None => Ok None
  | Some quality =>
      let quality1 := match quality with
                      | QScalar q => QVector [q]
                      | QItem q => QArray [q]
                      | _ => quality
                      end in
      if negb (safe_cast quality1) then Raise CastError
      else
      match quality1 with
      | QVector q | QArray q =>
          if negb (Z.of_nat (length q) =? n)
          then Raise (ValueError "Number of quality scores (%d) must match the number of characters in the sequence (%d).")
          else if existsb (fun x => x <? 0) q
          then Raise (ValueError "Quality scores must be greater than or equal to zero.")
          else Ok (Some q)
      | _ =>
          Raise (ValueError "Quality scores have %d dimension(s). Quality scores must be 1-D.")
      end
  end.

Definition __init__ (cls : pyclass) (sequence : sequence_arg)
    (id description : str_arg) (quality : option quality_arg)
  : result Sequence :=
  let '(sequence, id, description, quality) :=
    match sequence with
    | FromSequence s =>
        (FromArray Uint8 (_bytes s),
         match id with Str EmptyString => Str (_id s) | _ => id end,
         match description with
         | Str EmptyString => Str (_description s)
         | _ => description
         end,
         match quality with
         | None => QArray <$> _quality s
         | _ => quality
         end)
    | FromRaw r => (r, id, description, quality)
    end in
  id ← _set_id id;
  description ← _set_description description;
  bytes ← _set_sequence sequence;
  quality ← _set_quality (Z.of_nat (length bytes)) quality;
  Ok {| __class__ := cls; _bytes := bytes; _id := id;
        _description := description; _quality := quality |}.

(** [self._to] with keyword arguments: a keyword that is absent is
    [None] here, a keyword that is present carries its value
    ([quality=None] is [Some None]). *)
Definition _to (self : Sequence) (sequence : option sequence_arg)
    (id description : option str_arg) (quality : option (option quality_arg))
  : result Sequence :=
  __init__ (__class__ self)
    (default (FromRaw (FromArray Uint8 (_bytes self))) sequence)
    (default (Str (_id self)) id)
    (default (Str (_description self)) description)
    (default (QArray <$> _quality self) quality).

(* ----------------------------------------------------------------- *)
(** *** Indexing *)

(** The elements an iterable index may hold. *)
Inductive index_elem :=
| EInt (i : Z)
| EBool (b : bool)
| ESlice (sl : Py.slice)
| EFloat
| EStr
| ENone.

Inductive index_dtype := DBool | DInt | DUInt | DFloat | DStr | DObject.

(** An [np.ndarray] used as an index: of dtype [bool], [int] (its
    elements fit [int64]), [uint64], a float or text dtype, or
    [object]. *)
Inductive index_array :=
| BoolArray (m : list bool)
| IntArray (ix : list Z)
| UIntArray (ix : list Z)
| FloatArray (size : nat)
| StrArray (size : nat)
| ObjectArray (items : list index_elem).

Inductive index_value :=
| IText (s : string)
| IBool (b : bool)
| IInt (i : Z)
| ISlice (sl : Py.slice)
| IArray (a : index_array)
| IIterable (items : list index_elem).

(** The dtype [np.asarray] gives a Python list.  A slice, [None] or a
    Python int that fits neither [int64] nor [uint64] forces [object];
    otherwise text wins over floats and floats over integers; an int
    takes the dtype [int] when it fits [int64] and [uint64] when it
    does not, and the two together promote to [float64]; integers win
    over booleans; the empty list is a float array. *)
Definition asarray_dtype (items : list index_elem) : index_dtype :=
  if existsb (fun e => match e with
                       | ESlice _ | ENone => true
                       | EInt i => negb (int64 i) && negb (uint64_only i)
                       | _ => false
                       end) items
  then DObject
  else if existsb (fun e => match e with EStr => true | _ => false end) items
  then DStr
  else if existsb (fun e => match e with EFloat => true | _ => false end) items
  then DFloat
  else if existsb (fun e => match e with EInt i => int64 i | _ => false end)
                  items
  then if existsb (fun e => match e with
                            | EInt i => uint64_only i
                            | _ => false
                            end) items
       then DFloat
       else DInt
  else if existsb (fun e => match e with
                            | EInt i => uint64_only i
                            | _ => false
                            end) items
  then DUInt
  else match items with [] => DFloat | _ => DBool end.

Definition as_ints (items : list index_elem) : list Z :=
  omap (fun e => match e with
                 | EInt i => Some i
                 | EBool b => Some (if b then 1 else 0)
                 | _ => None
                 end) items.

Definition asarray (items : list index_elem) : index_array :=
  match asarray_dtype items with
  | DObject => ObjectArray items
  | DStr => StrArray (length items)
  | DFloat => FloatArray (length items)
  | DInt => IntArray (as_ints items)
  | DUInt => UIntArray (as_ints items)
  | DBool => BoolArray (omap (fun e => match e with
                                       | EBool b => Some b
                                       | _ => None
                                       end) items)
  end.

Definition array_size (a : index_array) : nat :=
  match a with
  | BoolArray m => length m
  | IntArray ix | UIntArray ix => length ix
  | FloatArray n | StrArray n => n
  | ObjectArray items => length items
  end.

Section slices_from_iter.
Context {A : Type}.

(** The slice one element of the iterable stands for. *)
Definition to_slice (i : index_elem) : result Py.slice :=
  match i with
  | ESlice sl => Ok sl
  | EInt i =>
      if i =? -1 then Ok (Py.Slice (Some i) None None)
      else Ok (Py.Slice (Some i) (Some (i + 1)) None)
  | _ => Raise InvalidIndexError
  end.

(** The generator, run to its end by [list(...)]. *)
Definition _slices_from_iter (array : list A) (indexables : list index_elem)
  : result (list (list A)) :=
  traverse (fun i => i ← to_slice i; Np.getitem_slice array i) indexables.
End slices_from_iter.

(** What [self._bytes[indexable]] and [self.quality[indexable]] give
    [_to]: one element for an integer, an array otherwise. *)
Definition native_getitem {A} (array : list A) (indexable : index_value)
  : result (A + list A) :=
  match indexable with
  | IInt i => inl <$> Np.getitem_int array i
  | ISlice sl => inr <$> Np.getitem_slice array sl
  | IArray (BoolArray m) => inr <$> Np.getitem_mask array m
  | IArray (IntArray ix) => inr <$> Np.getitem_ints array ix
  | IArray (UIntArray ix) =>
      inr <$> Np.getitem_ints array (Np.to_intp <$> ix)
  | _ => Raise (IndexError "arrays used as indices must be of integer (or boolean) type")
  end.

Definition __getitem__ (self : Sequence) (indexable : index_value)
  : result Sequence :=
  let fallthrough (indexable : index_value) : result Sequence :=
    match indexable with
    | IArray (BoolArray m) =>
        if negb (Z.of_nat (length m) =? __len__ self)
        then Raise (IndexError "An boolean vector index must be the same length as the sequence (%d, not %d).")
        else Ok tt
    | _ => Ok tt
    end;;
    let indexable :=
      match indexable with
      | IArray a => if decide (array_size a = 0%nat) then IArray (IntArray [])
                    else indexable
      | _ => indexable
      end in
    seq ← native_getitem (_bytes self) indexable;
    qual ← match _quality self with
           | Some quality => Some <$> native_getitem quality indexable
           | None => Ok None
           end;
    _to self
      (Some (FromRaw match seq with
                     | inl c => FromScalar [c]
                     | inr a => FromArray Uint8 a
                     end))
      None None
      (Some (match qual with
             | Some (inl q) => Some (QItem q)
             | Some (inr q) => Some (QArray q)
             | None => None
             end)) in
  match indexable with
  | IIterable indexable_ =>
      let indexable := asarray indexable_ in
      match indexable with
      | ObjectArray _ =>
          let indexable := indexable_ in
          match indexable with
          | [] => fallthrough (IArray (asarray indexable))
          | _ =>
              seq ← (arrays ← _slices_from_iter (_bytes self) indexable;
                     Np.concatenate arrays);
              qual ← match _quality self with
                     | Some quality =>
                         arrays ← _slices_from_iter quality indexable;
                         Some <$> Np.concatenate arrays
                     | None => Ok None
                     end;
              _to self (Some (FromRaw (FromArray Uint8 seq))) None None
                (Some (QArray <$> qual))
          end
      | _ => fallthrough (IArray indexable)
      end
  | IText _ | IBool _ =>
      Raise (IndexError "Cannot index with %s type: %r")
  | _ => fallthrough indexable
  end.

Definition Sequence_of_text (t : string) : result Sequence :=
  __init__ "Sequence" (FromRaw (FromText t)) (Str EmptyString) (Str EmptyString) None.

(* ----------------------------------------------------------------- *)
(** *** Text form, equality and search *)

Definition __str__ (self : Sequence) : result string :=
  Py.decode_ascii (_string self).

(** The [sequence] property: the same bytes viewed as ['|S1']. *)
Definition sequence (self : Sequence) : list byte := _bytes self.

Definition equals (self other : Sequence) (ignore : option (list string))
  : bool :=
  let ignore := default [] ignore in
  if bool_decide ("type" ∉ ignore)
     && bool_decide (__class__ self ≠ __class__ other)
  then false
  else if bool_decide ("id" ∉ ignore) && bool_decide (_id self ≠ _id other)
  then false
  else if bool_decide ("description" ∉ ignore)
          && bool_decide (_description self ≠ _description other)
  then false
  else if bool_decide ("quality" ∉ ignore)
          && negb (Np.array_equal (_quality self) (_quality other))
  then false
  else if bool_decide ("sequence" ∉ ignore)
          && bool_decide (_string self ≠ _string other)
  then false
  else true.

Definition __eq__ (self other : Sequence) : bool := equals self other None.

Definition _munge_to_sequence (self : Sequence) (other : sequence_arg)
    (method : string) : result Sequence :=
  match other with
  | FromSequence other =>
      if decide (__class__ other ≠ __class__ self)
      then Raise (TypeError "Cannot use %s and %s together with `%s`")
      else Ok other
  | FromRaw _ =>
      __init__ "Sequence" other (Str EmptyString) (Str EmptyString) None
  end.

(** [len(x)] of a constructor argument; a NumPy scalar has none. *)
Definition len (x : sequence_arg) : result Z :=
  match x with
  | FromSequence s => Ok (__len__ s)
  | FromRaw (FromText t) => Ok (Z.of_nat (String.length t))
  | FromRaw (FromBytes b) => Ok (Z.of_nat (length b))
  | FromRaw (FromArray _ data) => Ok (Z.of_nat (length data))
  | FromRaw (FromScalar _) => Raise (TypeError "object of type %s has no len()")
  end.

Definition __contains__ (self : Sequence) (subsequence : sequence_arg)
  : result bool :=
  subsequence ← _munge_to_sequence self subsequence "in";
  Ok (bool_decide (0 <= Py.bytes_find (_string self) (_string subsequence) None None)).

Definition count (self : Sequence) (subsequence : sequence_arg)
    (start end_ : option Z) : result Z :=
  n ← len subsequence;
  if n =? 0
  then Raise EmptyQueryError
  else
    subsequence ← _munge_to_sequence self subsequence "count";
    Ok (Py.bytes_count (_string self) (_string subsequence) start end_).

(** [except ValueError] also catches the Unicode errors, which are
    subclasses of [ValueError]. *)
Definition is_ValueError (e : exn) : bool :=
  match e with
  | ValueError _ | UnicodeEncodeError | UnicodeDecodeError => true
  | _ => false
  end.

(** [repr(self)], for what its callers here depend on: the first
    token is [repr(str(self))], which decodes the symbols as ASCII;
    the text itself, put together by [reprnator] of [skbio.util], is
    not modelled. *)
Definition __repr__ (self : Sequence) : result unit :=
  _ ← __str__ self; Ok tt.

(** [repr] of a method's argument: a [Sequence] has the [__repr__]
    above, text, byte strings, arrays and scalars have one that does
    not raise. *)
Definition repr (x : sequence_arg) : result unit :=
  match x with
  | FromSequence s => __repr__ s
  | FromRaw _ => Ok tt
  end.

Definition index (self : Sequence) (subsequence : sequence_arg)
    (start end_ : option Z) : result Z :=
  match (sub ← _munge_to_sequence self subsequence "index";
         Py.bytes_index (_string self) (_string sub) start end_) with
  | Ok i => Ok i
  | Raise e =>
      if is_ValueError e
      then (* ["%r is not present in %r." % (subsequence, self)] *)
           _ ← repr subsequence;
           _ ← __repr__ self;
           Raise NotFoundError
      else Raise e
  end.

(* ----------------------------------------------------------------- *)
(** *** Distances and match vectors *)

Definition distance (self : Sequence) (other : sequence_arg)
    (metric : option (list byte -> list byte -> pyfloat)) : result pyfloat :=
  other ← _munge_to_sequence self other "distance";
  metric ← match metric with
           | None =>
               if negb (__len__ self =? __len__ other)
               then Raise DistanceLengthMismatchError
               else Ok hamming
           | Some metric => Ok metric
           end;
  Ok (metric (sequence self) (sequence other)).

Definition matches (self : Sequence) (other : sequence_arg)
  : result (list bool) :=
  other ← _munge_to_sequence self other "matches/mismatches";
  if negb (__len__ self =? __len__ other)
  then Raise MatchLengthMismatchError
  else Ok (Np.eq_elementwise (_bytes self) (_bytes other)).

Definition mismatches (self : Sequence) (other : sequence_arg)
  : result (list bool) :=
  Np.invert <$> matches self other.

(* ----------------------------------------------------------------- *)
(** *** k-mers *)

Definition kmers (self : Sequence) (k : Z) (overlap : bool)
  : result (list Sequence) :=
  if k <? 1 then Raise InvalidArgumentError
  else
    let step := if overlap then 1 else k in
    offsets ← Py.range 0 (__len__ self - k + 1) step;
    traverse (fun i => __getitem__ self
                         (ISlice (Py.Slice (Some i) (Some (i + k)) None)))
             offsets.

(** [collections.Counter(iterable)] *)
Definition Counter (items : list string) : gmap string Z :=
  foldl (fun c x => <[x := default 0 (c !! x) + 1]> c) ∅ items.

(** The result of [kmer_frequencies]: a [Counter], or a
    [defaultdict(float)] whose missing keys read as [0.0]. *)
Inductive frequencies :=
| Counts (c : gmap string Z)
| Relative (d : gmap string Q).

Definition frequencies_get (f : frequencies) (key : string) : Q :=
  match f with
  | Counts c => inject_Z (default 0 (c !! key))
  | Relative d => default (0 # 1)%Q (d !! key)
  end.

Definition frequencies_size (f : frequencies) : nat :=
  match f with
  | Counts c => size c
  | Relative d => size d
  end.

Section kmer_frequencies.
(** The division [count / num_kmers] of the loop body. *)
Variable truediv : Z -> Z -> result Q.

Fixpoint relative_loop (items : list (string * Z)) (num_kmers : Z)
    (relative_freqs : gmap string Q) : result (gmap string Q) :=
  match items with
  | [] => Ok relative_freqs
  | (kmer, count) :: items =>
      f ← truediv count num_kmers;
      relative_loop items num_kmers (<[kmer := f]> relative_freqs)
  end.

Definition kmer_frequencies_with (self : Sequence) (k : Z)
    (overlap relative : bool) : result frequencies :=
  kmers ← kmers self k overlap;
  words ← traverse __str__ kmers;
  let freqs := Counter words in
  if relative then
    let num_kmers := if overlap then __len__ self - k + 1
                     else __len__ self / k in
    Relative <$> relative_loop (map_to_list freqs) num_kmers ∅
  else Ok (Counts freqs).
End kmer_frequencies.

Definition kmer_frequencies := kmer_frequencies_with Py.truediv.

(* ----------------------------------------------------------------- *)
(** *** Regular expressions *)

(** A generator that is consumed to its end: the values it yields and
    the exception that ends it, if one does. *)
Record generated (A : Type) := Generated {
  yielded : list A;
  raised : option exn
}.
Arguments Generated {A} yielded raised.
Arguments yielded {A} g.
Arguments raised {A} g.

Fixpoint generate {A B} (body : A -> result B) (items : list A)
  : generated B :=
  match items with
  | [] => Generated [] None
  | x :: items =>
      match body x with
      | Ok y => let g := generate body items in
                Generated (y :: yielded g) (raised g)
      | Raise e => Generated [] (Some e)
      end
  end.

(** A match object: the span of the whole match (group 0) and of each
    capturing group 1, 2, ...; a group that took no part in the match
    has span [(-1, -1)]. *)
Record re_match := Match {
  span0 : Z * Z;
  group_spans : list (Z * Z)
}.

Definition match_span (m : re_match) (g : Z) : result (Z * Z) :=
  if g =? 0 then Ok (span0 m)
  else if g <? 0 then Raise (IndexError "no such group")
  else match group_spans m !! Z.to_nat (g - 1) with
       | Some sp => Ok sp
       | None => Raise (IndexError "no such group")
       end.
Definition match_start (m : re_match) (g : Z) : result Z :=
  fst <$> match_span m g.
Definition match_end (m : re_match) (g : Z) : result Z :=
  snd <$> match_span m g.

Inductive regex_arg (pattern : Type) :=
| RegexText (source : string)
| RegexCompiled (p : pattern).
Arguments RegexText {pattern} source.
Arguments RegexCompiled {pattern} p.

Section slices_from_regex.
(** The [re] module: compiled patterns, [re.compile] and
    [pattern.finditer(string)] run to its end. *)
Variable pattern : Type.
Variable re_compile : string -> result pattern.
Variable finditer : pattern -> string -> list re_match.

(** [if isinstance(regex, string_types): regex = re.compile(regex)] *)
Definition compile_if_text (regex : regex_arg pattern) : result pattern :=
  match regex with
  | RegexText source => re_compile source
  | RegexCompiled p => Ok p
  end.

Definition slices_from_regex (self : Sequence) (regex : regex_arg pattern)
    (exclude : option (list bool)) : generated Py.slice :=
  let setup : result (pattern * list Z * string) :=
    regex ← compile_if_text regex;
    '(lookup, string) ←
      match exclude with
      | None =>
          string ← __str__ self;
          Ok (Py.range_items 0 1 (Z.to_nat (__len__ self)), string)
      | Some exclude =>
          let include := Np.invert exclude in
          let lookup := Np.where_ include in
          sub ← __getitem__ self (IArray (BoolArray include));
          string ← __str__ sub;
          Ok (lookup, string)
      end;
    Ok (regex, lookup, string) in
  match setup with
  | Raise e => Generated [] (Some e)
  | Ok (regex, lookup, string) =>
      generate
        (fun '(match_, g) =>
           start ← match_start match_ g;
           first ← Np.getitem_int lookup start;
           end_ ← match_end match_ g;
           last ← Np.getitem_int lookup (end_ - 1);
           Ok (Py.Slice (Some first) (Some (last + 1)) None))
        (match_ ← finditer regex string;
         g ← Py.range_items 1 1 (length (group_spans match_));
         [(match_, g)])
  end.
End slices_from_regex.

(* ================================================================= *)
(** ** Definitions used to state the properties *)

(** Quality scores, when present, are as many as the symbols and none
    is negative. *)
Definition valid (s : Sequence) : Prop :=
  match _quality s with
  | None => True
  | Some q => length q = length (_bytes s) ∧ Forall (fun x => 0 <= x) q
  end.


(** The positions at which two symbol arrays differ. *)
Definition differing_positions (u v : list byte) : list nat :=
  filter (fun i => u !! i ≠ v !! i) (seq 0 (length u)).

(** [num / den] as a float; [0 / 0] is not a number. *)
Definition fraction (num den : nat) : pyfloat :=
  match den with
  | O => NaN
  | S n => Float (Qmake (Z.of_nat num) (Pos.of_succ_nat n))
  end.

(** Sequences of the docstrings, for the examples. *)
Definition plain (cls : pyclass) (symbols : list byte) : Sequence :=
  {| __class__ := cls; _bytes := symbols; _id := EmptyString;
     _description := EmptyString; _quality := None |}.

Definition GGUC : Sequence := plain "Sequence" (list_byte_of_string "GGUC").
Definition AGUC : Sequence := plain "Sequence" (list_byte_of_string "AGUC").
Definition GAUU : Sequence := plain "Sequence" (list_byte_of_string "GAUU").

Definition ACG : Sequence := plain "Sequence" (list_byte_of_string "ACG").

Definition ACGT_seq1 : Sequence :=
  {| __class__ := "Sequence"; _bytes := list_byte_of_string "ACGT";
     _id := "seq1"; _description := EmptyString; _quality := None |}.

(** Building a sequence of the same class from the text form of [s],
    with no other argument. *)
Definition roundtrip (s : Sequence) : result Sequence :=
  t ← __str__ s;
  __init__ (__class__ s) (FromRaw (FromText t))
    (Str EmptyString) (Str EmptyString) None.

Definition is_ascii (s : Sequence) : Prop :=
  forallb Py.is_ascii_byte (_bytes s) = true.

(** [s] with other symbols and quality: what [_to] builds from
    [sequence=] and [quality=]. *)
Definition with_data (s : Sequence) (symbols : list byte)
    (quality : option (list Z)) : Sequence :=
  {| __class__ := __class__ s; _bytes := symbols; _id := _id s;
     _description := _description s; _quality := quality |}.

(** The window of [k] positions of [s] that starts at [offset]. *)
Definition window_at (s : Sequence) (offset k : nat) : Sequence :=
  with_data s (take k (drop offset (_bytes s)))
    ((fun q => take k (drop offset q)) <$> _quality s).

(** The number of windows [range(0, N - k + 1, step)] steps through. *)
Definition kmer_count (N k : Z) (overlap : bool) : Z :=
  if overlap then Z.max 0 (N - k + 1) else N / k.

(** [sub] occurs in [s] at position [p]. *)
Definition occurs_at (sub s : list byte) (p : nat) : Prop :=
  take (length sub) (drop p s) = sub.

(** [ps] lists, in ascending order, positions not before [lo] at which
    [sub] occurs in [s], each at least [len(sub)] after the one before:
    occurrences that do not overlap. *)
Fixpoint nonoverlapping (sub s : list byte) (lo : nat) (ps : list nat)
  : Prop :=
  match ps with
  | [] => True
  | p :: ps' =>
      (lo <= p)%nat ∧ occurs_at sub s p
      ∧ nonoverlapping sub s (p + length sub) ps'
  end.

(** [c] is the number of non-overlapping occurrences of [sub] in [s]:
    some choice of non-overlapping occurrences has [c] of them and
    none has more. *)
Definition count_nonoverlapping (sub s : list byte) (c : nat) : Prop :=
  (exists ps, nonoverlapping sub s 0 ps ∧ length ps = c)
  ∧ forall ps, nonoverlapping sub s 0 ps -> (length ps <= c)%nat.

(** The segment a slice selects from an array (a slice of step zero
    selects nothing: NumPy rejects it). *)
Definition selected {A} (a : list A) (sl : Py.slice) : list A :=
  match Np.getitem_slice a sl with
  | Ok r => r
  | Raise _ => []
  end.

(** The slice an element of a mixed index stands for: a slice stands
    for itself, an integer [i] for [[i, i+1)], and [-1] for
    [[-1, end)]. *)
Definition slice_of (e : index_elem) : Py.slice :=
  match e with
  | ESlice sl => sl
  | EInt i => if i =? -1 then Py.Slice (Some (-1)) None None
              else Py.Slice (Some i) (Some (i + 1)) None
  | _ => Py.Slice None None None
  end.

Definition segment {A} (a : list A) (e : index_elem) : list A :=
  selected a (slice_of e).



Definition AACGA_seq1 : Sequence :=
  {| __class__ := "Sequence"; _bytes := list_byte_of_string "AACGA";
     _id := "seq1"; _description := "some seq";
     _quality := Some [1; 5; 3; 3; 2] |}.


(** The original positions a mask leaves in, in ascending order. *)
Definition included_positions (exclude : list bool) : list Z :=
  Z.of_nat <$> filter (fun i => exclude !! i = Some false)
                      (seq 0 (length exclude)).

(** The text of the symbols at the included positions. *)
Definition included_text (s : Sequence) (exclude : list bool) : string :=
  string_of_list_byte
    (omap (fun i => _bytes s !! Z.to_nat i) (included_positions exclude)).

(** The original position of a local offset. *)
Definition remap (lookup : list Z) (local_offset : Z) : Z :=
  default 0 (lookup !! Z.to_nat local_offset).

(** The slice in original coordinates of a local span [[b, e)]:
    [[lookup[b], lookup[e-1] + 1)]. *)
Definition remapped_slice (lookup : list Z) (span : Z * Z) : Py.slice :=
  Py.Slice (Some (remap lookup span.1))
           (Some (remap lookup (span.2 - 1) + 1)) None.

(** Both ends of the span index into [lookup]. *)
Definition indexes (lookup : list Z) (span : Z * Z) : Prop :=
  0 <= span.1 < Z.of_nat (length lookup)
  ∧ 0 < span.2 <= Z.of_nat (length lookup).

(** The docstring example of [slices_from_regex]: the sequence with
    gaps, the mask of its gaps, and what [re] finds for [(TATA+)] in
    the text without the gaps. *)
Definition AATA_gapped : Sequence :=
  plain "DNA" (list_byte_of_string "AATA--TACCGGTTATA-A").

Definition AATA_gaps : list bool :=
  (fun b => bool_decide (b = "-"%byte)) <$> _bytes AATA_gapped.

Definition doc_finditer (p : string) (text : string) : list re_match :=
  if bool_decide (p = "(TATA+)" ∧ text = "AATATACCGGTTATAA")
  then [Match (2, 6) [(2, 6)]; Match (11, 16) [(11, 16)]]
  else [].

(** A sequence of another class, as a query. *)
Definition DNA_A : Sequence := plain "DNA" (list_byte_of_string "A").

Definition A_only : Sequence := plain "Sequence" (list_byte_of_string "A").

(** What [re] finds for [A(X?)] in the texts [A] and [AC]: one match
    [A], whose group 1 is empty and lies right after it, at the end of
    the text [A] and inside the text [AC]. *)
Definition empty_group_finditer (p : string) (text : string)
  : list re_match :=
  if bool_decide (p = "A(X?)" ∧ (text = "A" ∨ text = "AC"))
  then [Match (0, 1) [(1, 1)]]
  else [].

Definition AC : Sequence := plain "Sequence" (list_byte_of_string "AC").


(** The text forms of a list of sequences. *)
Definition texts (r : result (list Sequence)) : result (list string) :=
  ws ← r; traverse __str__ ws.

Definition ACACGACGTT : Sequence :=
  plain "Sequence" (list_byte_of_string "ACACGACGTT").
Definition ACACATTTATTA : Sequence :=
  plain "Sequence" (list_byte_of_string "ACACATTTATTA").
Definition GGUCG : Sequence :=
  plain "Sequence" (list_byte_of_string "GGUCG").

(* ================================================================= *)
(** ** Further methods of the class *)

Definition MaskLengthError : exn :=
  IndexError "An boolean vector index must be the same length as the sequence (%d, not %d).".
Definition OutOfBoundsError : exn := IndexError "index out of bounds".
Definition ClassMismatchError : exn :=
  TypeError "Cannot use %s and %s together with `%s`".

Definition __ne__ (self other : Sequence) : bool := negb (__eq__ self other).

(** An element of [self.sequence], a scalar of dtype ['|S1']: NumPy
    strips the trailing NUL bytes of a byte string, so the scalar of
    the zero byte has an empty buffer. *)
Definition S1_scalar (c : byte) : list byte :=
  if bool_decide (c = x00) then [] else [c].

(** [zip_longest(a, b, fillvalue=None)] *)
Fixpoint zip_longest {A B} (a : list A) (b : list B)
  : list (option A * option B) :=
  match a with
  | [] => (fun y => (None, Some y)) <$> b
  | x :: a' =>
      match b with
      | [] => (Some x, None) :: zip_longest a' []
      | y :: b' => (Some x, Some y) :: zip_longest a' b'
      end
  end.

(** The generator of [__iter__], run to its end. *)
Definition __iter__ (self : Sequence) : result (list Sequence) :=
  let qual := if _has_quality self then default [] (_quality self)
              else [] in
  traverse
    (fun '(c, q) =>
       match c with
       | Some c =>
           _to self (Some (FromRaw (FromScalar (S1_scalar c)))) None None
             (Some (QItem <$> q))
       | None => Raise (TypeError "a bytes-like object is required, not 'NoneType'")
       end)
    (zip_longest (sequence self) qual).

Definition __reversed__ (self : Sequence) : result (list Sequence) :=
  reversed ← __getitem__ self (ISlice (Py.Slice None None (Some (-1))));
  __iter__ reversed.

(** [m.mean()] of a boolean array *)
Definition mean_bool (m : list bool) : pyfloat :=
  match length m with
  | O => NaN
  | S n => Float (Qmake (Np.sum_bool m) (Pos.of_succ_nat n))
  end.

(** An [int] or a [float] result. *)
Inductive number :=
| Int (n : Z)
| Real (x : pyfloat).

Definition mismatch_frequency (self : Sequence) (other : sequence_arg)
    (relative : bool) : result number :=
  if relative
  then m ← mismatches self other; Ok (Real (mean_bool m))
  else m ← mismatches self other; Ok (Int (Np.sum_bool m)).

Definition match_frequency (self : Sequence) (other : sequence_arg)
    (relative : bool) : result number :=
  if relative
  then m ← matches self other; Ok (Real (mean_bool m))
  else m ← matches self other; Ok (Int (Np.sum_bool m)).

(* ----------------------------------------------------------------- *)
(** ** Further definitions used to state the properties *)

Definition with_class (s : Sequence) (cls : pyclass) : Sequence :=
  {| __class__ := cls; _bytes := _bytes s; _id := _id s;
     _description := _description s; _quality := _quality s |}.

Definition with_id (s : Sequence) (id : string) : Sequence :=
  {| __class__ := __class__ s; _bytes := _bytes s; _id := id;
     _description := _description s; _quality := _quality s |}.

(** The number of elements of [l] equal to [x]. *)
Definition occurrences (x : string) (l : list string) : nat :=
  length (filter (fun y => y = x) l).

(** No symbol is the zero byte. *)
Definition no_NUL (s : Sequence) : Prop := x00 ∉ _bytes s.

Definition ScalarLengthError : exn :=
  TypeError "Can cannot create a sequence with %r".

Definition A_NUL_C : Sequence :=
  plain "Sequence" ["A"%byte; x00; "C"%byte].

(** The text of the window of [k] symbols of [s] at [offset]. *)
Definition word_at (s : Sequence) (offset k : nat) : string :=
  string_of_list_byte (take k (drop offset (_bytes s))).

(** The slice [[b, e)] of a span. *)
Definition span_slice (span : Z * Z) : Py.slice :=
  Py.Slice (Some span.1) (Some span.2) None.

(** The mask that excludes no position of [s]. *)
Definition nothing_excluded (s : Sequence) : list bool :=
  replicate (length (_bytes s)) false.

Definition AATATACCGGTTATAA : Sequence :=
  plain "DNA" (list_byte_of_string "AATATACCGGTTATAA").

(** The elements of [a] at the positions [ix], negative ones counted
    from the end. *)
Definition positions {A} (a : list A) (ix : list Z) : list A :=
  omap (fun i => a !! Z.to_nat (i mod Z.of_nat (length a))) ix.

(** The message of the handler of [index] can be formatted: the
    symbols of the receiver, and those of the query when it is a
    sequence object, are ASCII. *)
Definition formats (self : Sequence) (subsequence : sequence_arg) : bool :=
  match subsequence with
  | FromSequence s => forallb Py.is_ascii_byte (_bytes s)
  | FromRaw _ => true
  end && forallb Py.is_ascii_byte (_bytes self).

(** The symbols at the included positions. *)
Definition included_symbols (s : Sequence) (exclude : list bool)
  : list byte :=
  omap (fun i => _bytes s !! Z.to_nat i) (included_positions exclude).

(** NumPy accepts the integer [i] as an index into [lookup]. *)
Definition in_bounds (lookup : list Z) (i : Z) : Prop :=
  - Z.of_nat (length lookup) <= i < Z.of_nat (length lookup).

(** [lookup[i]], a negative [i] counted from the end. *)
Definition lookup_at (lookup : list Z) (i : Z) : Z :=
  default 0 (lookup !! Z.to_nat (i mod Z.of_nat (length lookup))).

(** Both [lookup[start]] and [lookup[end - 1]] can be read. *)
Definition reachable (lookup : list Z) (span : Z * Z) : Prop :=
  in_bounds lookup span.1 ∧ in_bounds lookup (span.2 - 1).

(** The slice [slice(lookup[start], lookup[end - 1] + 1)]. *)
Definition emitted (lookup : list Z) (span : Z * Z) : Py.slice :=
  Py.Slice (Some (lookup_at lookup span.1))
           (Some (lookup_at lookup (span.2 - 1) + 1)) None.

(** Positions 1 and 2 of [AACGA_seq1]. *)
Definition AC_seq1 : Sequence :=
  {| __class__ := "Sequence"; _bytes := list_byte_of_string "AC";
     _id := "seq1"; _description := "some seq";
     _quality := Some [5; 3] |}.

(* ================================================================= *)
(** * Properties *)

(** ** The error monad and the class invariant *)

Lemma bind_Ok {A B} (m : result A) (f : A -> result B) (b : B) :
  (m ≫= f) = Ok b <-> exists a, m = Ok a ∧ f a = Ok b.
Proof.
  destruct m as [a|e]; simpl; split.
  - intros H. by exists a.
  - by intros (a' & [= ->] & H).
  - intros [=].
  - by intros (a' & [=] & _).
Qed.

Lemma existsb_neg_false (q : list Z) :
  existsb (fun x => x <? 0) q = false <-> Forall (fun x => 0 <= x) q.
Proof.
  induction q as [|x q IH]; simpl.
  - split; [constructor | done].
  - rewrite orb_false_iff, IH, Forall_cons, Z.ltb_ge. tauto.
Qed.

Lemma _set_quality_Ok n quality q :
  _set_quality n quality = Ok q ->
  match q with
  | None => quality = None
  | Some q => Z.of_nat (length q) = n ∧ Forall (fun x => 0 <= x) q
  end.
Proof.
  assert (Hvec : forall v : list Z,
    (if negb (Z.of_nat (length v) =? n)
     then Raise (ValueError "Number of quality scores (%d) must match the number of characters in the sequence (%d).")
     else if existsb (fun x => x <? 0) v
          then Raise (ValueError "Quality scores must be greater than or equal to zero.")
          else Ok (Some v)) = Ok q ->
    q = Some v ∧ Z.of_nat (length v) = n ∧ Forall (fun x => 0 <= x) v).
  { intros v. destruct (Z.of_nat (length v) =? n) eqn:Hn; [|done].
    destruct (existsb _ v) eqn:Hv; [done|]. cbn [negb].
    intros [= <-]. apply Z.eqb_eq in Hn.
    by apply existsb_neg_false in Hv. }
  unfold _set_quality.
  destruct quality as [quality|]; [|by intros [= <-]].
  destruct (safe_cast _); cbn [negb]; [|done].
  destruct quality as [x|v|d|x|v|]; try done;
    intros (-> & ? & ?)%Hvec; done.
Qed.

(** Whatever [__init__] returns satisfies the invariant. *)
Lemma __init___valid cls sequence id description quality s :
  __init__ cls sequence id description quality = Ok s -> valid s.
Proof.
  unfold __init__.
  destruct sequence as [s0|r]; simpl;
    repeat (intros (? & ? & H)%bind_Ok; revert H);
    intros [= <-]; unfold valid; simpl;
    match goal with H : _set_quality _ _ = Ok ?q |- _ =>
      apply _set_quality_Ok in H; destruct q as [q'|]; [|done];
      destruct H as [Hl Hq]; split; [lia | done]
    end.
Qed.

(** The quality array of a valid sequence passes [_set_quality]. *)
Lemma _set_quality_array (q : list Z) (n : nat) :
  length q = n -> Forall (fun x => 0 <= x) q ->
  _set_quality (Z.of_nat n) (Some (QArray q)) = Ok (Some q).
Proof.
  intros Hl Hq. unfold _set_quality. cbn [safe_cast negb].
  replace (Z.of_nat (length q) =? Z.of_nat n) with true
    by (symmetry; apply Z.eqb_eq; lia).
  cbn [negb]. apply existsb_neg_false in Hq. by rewrite Hq.
Qed.

(* ----------------------------------------------------------------- *)
(** ** [equals] *)

Lemma array_equal_eq (a b : option (list Z)) :
  Np.array_equal a b = true <-> a = b.
Proof.
  destruct a as [x|], b as [y|]; simpl; try (split; congruence).
  rewrite andb_true_iff, bool_decide_eq_true. split.
  - intros [Hl Hz]. f_equal. revert y Hl Hz.
    induction x as [|u x IH]; intros [|v y]; simpl; try done.
    intros [= Hl] [Huv Hz]%andb_true_iff.
    apply Z.eqb_eq in Huv. f_equal; [done | by apply IH].
  - intros [= ->]. split; [done|].
    induction y as [|v y IH]; simpl; [done|].
    by rewrite Z.eqb_refl.
Qed.

Lemma check_passes (P Q : Prop) `{Decision P, Decision Q} :
  bool_decide (¬ P) && bool_decide (¬ Q) = false <-> P ∨ Q.
Proof.
  rewrite andb_false_iff, !bool_decide_eq_false.
  destruct (decide P), (decide Q); tauto.
Qed.

Lemma quality_check_passes (P : Prop) `{Decision P} (a b : option (list Z)) :
  bool_decide (¬ P) && negb (Np.array_equal a b) = false <-> P ∨ a = b.
Proof.
  rewrite andb_false_iff, bool_decide_eq_false, negb_false_iff,
    array_equal_eq.
  destruct (decide P); tauto.
Qed.

Lemma check_chain (c rest : bool) (P R : Prop) :
  (c = false <-> P) -> (rest = true <-> R) ->
  (if c then false else rest) = true <-> P ∧ R.
Proof. destruct c; intuition congruence. Qed.

Lemma check_last (c : bool) (P : Prop) :
  (c = false <-> P) -> (if c then false else true) = true <-> P.
Proof. destruct c; intuition congruence. Qed.

(** The if-chain of [equals] as a conjunction of its five checks. *)
Lemma equals_checks
    (self other : Sequence) (ignore : option (list string)) :
  equals self other ignore = true <->
    ("type" ∈ default [] ignore ∨ __class__ self = __class__ other) ∧
    ("id" ∈ default [] ignore ∨ _id self = _id other) ∧
    ("description" ∈ default [] ignore
       ∨ _description self = _description other) ∧
    ("quality" ∈ default [] ignore ∨ _quality self = _quality other) ∧
    ("sequence" ∈ default [] ignore ∨ _bytes self = _bytes other).
Proof.
  unfold equals, _string.
  repeat (apply check_chain;
          [apply check_passes || apply quality_check_passes|]).
  apply check_last, check_passes.
Qed.

(** C4. [equals] returns true exactly when each of the five checks
    (type, id, description, quality, symbols) either is named in
    [ignore] or passes; quality passes when both are absent or both
    are present with the same elements, and a present/absent pair
    fails it without an exception. *)
Theorem equals_iff_unignored_checks_pass
    (self other : Sequence) (ignore : option (list string)) :
  equals self other ignore = true <->
    ("type" ∈ default [] ignore ∨ __class__ self = __class__ other) ∧
    ("id" ∈ default [] ignore ∨ _id self = _id other) ∧
    ("description" ∈ default [] ignore
       ∨ _description self = _description other) ∧
    ("quality" ∈ default [] ignore ∨ _quality self = _quality other) ∧
    ("sequence" ∈ default [] ignore ∨ _bytes self = _bytes other).
Proof. apply equals_checks. Qed.

(* ----------------------------------------------------------------- *)
(** ** [matches], [mismatches] and [distance] *)

Lemma _munge_same_class (self other : Sequence) (method : string) :
  __class__ other = __class__ self ->
  _munge_to_sequence self (FromSequence other) method = Ok other.
Proof. intros H. unfold _munge_to_sequence. by case_decide. Qed.

Lemma byte_eqb_decide (x y : byte) : Byte.eqb x y = bool_decide (x = y).
Proof.
  case_bool_decide as H.
  - by apply Byte.byte_dec_lb.
  - destruct (Byte.eqb x y) eqn:E; [|done].
    by apply Byte.byte_dec_bl in E.
Qed.

Lemma len_neq (self other : Sequence) :
  negb (__len__ self =? __len__ other) = true
  <-> __len__ self ≠ __len__ other.
Proof. rewrite negb_true_iff. apply Z.eqb_neq. Qed.

Lemma eq_elementwise_refl (a : list byte) :
  Np.eq_elementwise a a = replicate (length a) true.
Proof.
  induction a as [|x a IH]; [done|].
  unfold Np.eq_elementwise in *. simpl. rewrite IH.
  by rewrite byte_eqb_decide, bool_decide_eq_true_2.
Qed.

(** C7. For sequences of one class, [matches] and [mismatches] raise
    the length-mismatch error exactly when the lengths differ; for
    equal lengths [matches] returns a vector of that length whose
    entry [i] tells whether the symbols at [i] are equal, [mismatches]
    returns its pointwise negation, and a sequence compared with
    itself gives all-true and all-false. *)
Theorem matches_mismatches_contract (self other : Sequence) :
  __class__ other = __class__ self ->
  (matches self (FromSequence other) = Raise MatchLengthMismatchError
     <-> __len__ self ≠ __len__ other) ∧
  (mismatches self (FromSequence other) = Raise MatchLengthMismatchError
     <-> __len__ self ≠ __len__ other) ∧
  (__len__ self = __len__ other ->
     exists v : list bool,
       matches self (FromSequence other) = Ok v ∧
       mismatches self (FromSequence other) = Ok (negb <$> v) ∧
       length v = length (_bytes self) ∧
       forall (i : nat) (x y : byte),
         _bytes self !! i = Some x -> _bytes other !! i = Some y ->
         v !! i = Some (bool_decide (x = y))) ∧
  matches self (FromSequence self)
    = Ok (replicate (length (_bytes self)) true) ∧
  mismatches self (FromSequence self)
    = Ok (replicate (length (_bytes self)) false).
Proof.
  intros Hcls.
  assert (Hm : forall o, __class__ o = __class__ self ->
    matches self (FromSequence o)
    = if negb (__len__ self =? __len__ o)
      then Raise MatchLengthMismatchError
      else Ok (Np.eq_elementwise (_bytes self) (_bytes o))).
  { intros o Ho. unfold matches. by rewrite _munge_same_class. }
  assert (Hself : matches self (FromSequence self)
                  = Ok (replicate (length (_bytes self)) true)).
  { rewrite Hm by done. rewrite Z.eqb_refl. cbn [negb].
    by rewrite eq_elementwise_refl. }
  unfold mismatches. rewrite Hself, (Hm other Hcls).
  destruct (Z.eqb_spec (__len__ self) (__len__ other)) as [Hlen|Hlen];
    cbn [negb fmap result_fmap].
  - split; [|split; [|split; [|split]]].
    + split; [intros [=] | tauto].
    + split; [intros [=] | tauto].
    + intros _. eexists. split; [done|]. split; [done|].
      unfold Np.eq_elementwise. split.
      * rewrite length_zip_with. unfold __len__ in Hlen. lia.
      * intros i x y Hx Hy. rewrite lookup_zip_with, Hx, Hy. simpl.
        by rewrite byte_eqb_decide.
    + done.
    + unfold Np.invert. by rewrite fmap_replicate.
  - split; [|split; [|split; [|split]]].
    + tauto.
    + tauto.
    + tauto.
    + done.
    + unfold Np.invert. by rewrite fmap_replicate.
Qed.

Lemma matches_mismatches_witness :
  matches GGUC (FromSequence GAUU) = Ok [true; false; true; false] ∧
  mismatches GGUC (FromSequence GAUU) = Ok [false; true; false; true].
Proof.
  destruct (matches_mismatches_contract GGUC GAUU eq_refl)
    as (_ & _ & H & _).
  destruct (H eq_refl) as (v & Hm & Hmm & Hl & Hv).
  rewrite Hm, Hmm.
  destruct v as [|a [|b [|c [|d [|? ?]]]]]; try discriminate Hl.
  pose proof (Hv 0%nat _ _ eq_refl eq_refl) as H0.
  pose proof (Hv 1%nat _ _ eq_refl eq_refl) as H1.
  pose proof (Hv 2%nat _ _ eq_refl eq_refl) as H2.
  pose proof (Hv 3%nat _ _ eq_refl eq_refl) as H3.
  injection H0 as ->. injection H1 as ->.
  injection H2 as ->. injection H3 as ->.
  split; reflexivity.
Defined.

Lemma filter_seq_S (P Q : nat -> Prop)
    `{forall i, Decision (P i), forall i, Decision (Q i)} (k n : nat) :
  (forall i, P (S i) <-> Q i) ->
  filter P (seq (S k) n) = S <$> filter Q (seq k n).
Proof.
  intros HPQ. revert k. induction n as [|n IH]; intros k; [done|].
  cbn [seq]. rewrite !filter_cons.
  destruct (decide (P (S k))) as [HP|HP], (decide (Q k)) as [HQ|HQ];
    cbn [fmap list_fmap]; rewrite ?IH; try done; exfalso;
    apply HPQ in HP || apply HPQ in HQ; done.
Qed.

Lemma sum_ne_differing (u v : list byte) :
  length u = length v ->
  Np.sum_bool (Np.ne_elementwise u v)
  = Z.of_nat (length (differing_positions u v)).
Proof.
  unfold differing_positions, Np.ne_elementwise.
  revert v. induction u as [|x u IH]; intros [|y v] Hl; try done.
  injection Hl as Hl. cbn [zip_with Np.sum_bool foldr length seq].
  rewrite filter_cons.
  fold (Np.sum_bool (zip_with (fun x y => negb (Byte.eqb x y)) u v)).
  rewrite IH by done. rewrite byte_eqb_decide.
  assert (Hshift := filter_seq_S
                (fun i => (x :: u) !! i ≠ (y :: v) !! i)
                (fun i => u !! i ≠ v !! i) 0 (length u)
                (fun i => iff_refl _)).
  case_bool_decide as Hxy; case_decide as Hd; cbn [negb length];
    rewrite Hshift, length_fmap; try lia; exfalso; simpl in Hd.
  - apply Hd. congruence.
  - congruence.
Qed.

Lemma hamming_fraction (u v : list byte) :
  length u = length v ->
  hamming u v = fraction (length (differing_positions u v)) (length u).
Proof.
  intros Hl. unfold hamming, fraction.
  assert (Hn : length (Np.ne_elementwise u v) = length u).
  { unfold Np.ne_elementwise. rewrite length_zip_with. lia. }
  by rewrite Hn, sum_ne_differing.
Qed.

(** C5. For sequences of one class, [distance] with the default metric
    raises the length-mismatch error exactly when the lengths differ,
    and for equal lengths returns the number of positions at which the
    symbols differ divided by the length (0.25 for GGUC and AGUC); a
    custom metric is called on the two symbol arrays whatever their
    lengths. *)
Theorem distance_contract (self other : Sequence) :
  __class__ other = __class__ self ->
  (distance self (FromSequence other) None
     = Raise DistanceLengthMismatchError
   <-> __len__ self ≠ __len__ other) ∧
  (__len__ self = __len__ other ->
   distance self (FromSequence other) None
   = Ok (fraction
           (length (differing_positions (_bytes self) (_bytes other)))
           (length (_bytes self)))) ∧
  distance GGUC (FromSequence AGUC) None = Ok (Float (1 # 4)) ∧
  (forall metric : list byte -> list byte -> pyfloat,
     distance self (FromSequence other) (Some metric)
     = Ok (metric (sequence self) (sequence other))).
Proof.
  intros Hcls. unfold distance at 1 2 4.
  rewrite _munge_same_class by done.
  cbn [mbind result_bind].
  destruct (Z.eqb_spec (__len__ self) (__len__ other)) as [Hlen|Hlen];
    cbn [negb mbind result_bind].
  - split; [split; [intros [=] | tauto]|].
    split; [|split; [reflexivity | done]].
    intros _. unfold sequence. rewrite hamming_fraction; [done|].
    unfold __len__ in Hlen. lia.
  - split; [tauto|]. split; [tauto|]. split; [reflexivity | done].
Qed.

Lemma distance_contract_witness :
  distance GGUC (FromSequence GAUU) None = Ok (Float (2 # 4)).
Proof.
  destruct (distance_contract GGUC GAUU eq_refl) as (_ & H & _).
  rewrite (H eq_refl). reflexivity.
Defined.

(* ----------------------------------------------------------------- *)
(** ** The text form and back *)

Lemma encode_decode_ascii (bs : list byte) (t : string) :
  Py.decode_ascii bs = Ok t -> Py.encode_ascii t = Ok bs.
Proof.
  unfold Py.decode_ascii, Py.encode_ascii.
  destruct (forallb Py.is_ascii_byte bs) eqn:E; [|done].
  intros [= <-]. rewrite list_byte_of_string_of_list_byte. by rewrite E.
Qed.

Lemma roundtrip_Ok (s : Sequence) :
  is_ascii s ->
  roundtrip s = Ok (plain (__class__ s) (_bytes s)).
Proof.
  unfold is_ascii, roundtrip, __str__, _string. intros Hs.
  assert (Hd : Py.decode_ascii (_bytes s)
               = Ok (string_of_list_byte (_bytes s))).
  { unfold Py.decode_ascii. by rewrite Hs. }
  rewrite Hd. cbn [mbind result_bind]. unfold __init__.
  cbn [_set_id _set_description _set_sequence mbind result_bind].
  by rewrite (encode_decode_ascii _ _ Hd).
Qed.

(** C6, as stated, fails: the text form drops the id. *)
Lemma roundtrip_loses_id :
  (s ← roundtrip ACGT_seq1; Ok (equals s ACGT_seq1 None)) = Ok false.
Proof. vm_compute. reflexivity. Qed.

(** C6, amended. For a sequence of ASCII symbols, building a sequence
    from its text form succeeds and gives the same class and symbols
    with the default id, description and quality: it equals the
    original when id, description and quality are ignored, and equals
    it under the full check exactly when the original has the empty
    id, the empty description and no quality. *)
Theorem roundtrip_equals (s : Sequence) :
  is_ascii s ->
  exists s' : Sequence,
    roundtrip s = Ok s' ∧
    __class__ s' = __class__ s ∧ _bytes s' = _bytes s ∧
    _id s' = EmptyString ∧ _description s' = EmptyString ∧
    _quality s' = None ∧
    equals s' s (Some ["id"; "description"; "quality"]) = true ∧
    (equals s' s None = true
     <-> _id s = EmptyString ∧ _description s = EmptyString
         ∧ _quality s = None).
Proof.
  intros Hs. exists (plain (__class__ s) (_bytes s)).
  split; [by apply roundtrip_Ok|]. split; [done|]. split; [done|].
  split; [done|]. split; [done|]. split; [done|].
  rewrite !equals_checks. cbn [default plain
    __class__ _bytes _id _description _quality].
  split.
  - repeat split; (by right) || (left; set_solver).
  - split.
    + intros (_ & [H1|H1] & [H2|H2] & [H3|H3] & _);
        try (by apply elem_of_nil in H1);
        try (by apply elem_of_nil in H2);
        try (by apply elem_of_nil in H3); done.
    + intros (H1 & H2 & H3). repeat split; by right.
Qed.

Lemma roundtrip_equals_witness :
  is_ascii ACGT_seq1 ∧
  exists s' : Sequence,
    roundtrip ACGT_seq1 = Ok s' ∧
    __class__ s' = __class__ ACGT_seq1 ∧ _bytes s' = _bytes ACGT_seq1 ∧
    _id s' = EmptyString ∧ _description s' = EmptyString ∧
    _quality s' = None ∧
    equals s' ACGT_seq1 (Some ["id"; "description"; "quality"]) = true ∧
    (equals s' ACGT_seq1 None = true
     <-> _id ACGT_seq1 = EmptyString ∧ _description ACGT_seq1 = EmptyString
         ∧ _quality ACGT_seq1 = None).
Proof. split; [reflexivity | exact (roundtrip_equals ACGT_seq1 eq_refl)]. Defined.

(* ----------------------------------------------------------------- *)
(** ** [index] and [count] on an empty query *)

Lemma list_byte_of_string_nil (t : string) :
  list_byte_of_string t = [] -> t = EmptyString.
Proof. by destruct t. Qed.

(** An argument that munges to a sequence without symbols has
    length 0. *)
Lemma _munge_empty_len (self sub : Sequence) (subsequence : sequence_arg)
    (method : string) :
  _munge_to_sequence self subsequence method = Ok sub ->
  _bytes sub = [] ->
  len subsequence = Ok 0.
Proof.
  unfold _munge_to_sequence, len.
  destruct subsequence as [other|[t|b|dt data|buffer]].
  - case_decide; [done|]. intros [= ->] Hb. unfold __len__. by rewrite Hb.
  - unfold __init__.
    cbn [_set_id _set_description _set_sequence mbind result_bind].
    unfold Py.encode_ascii.
    destruct (forallb _ _); [|done]. cbn [mbind result_bind _set_quality].
    intros [= <-]. cbn [_bytes]. intros Hb.
    by rewrite (list_byte_of_string_nil _ Hb).
  - unfold __init__.
    cbn [_set_id _set_description _set_sequence mbind result_bind _set_quality].
    intros [= <-]. cbn [_bytes]. by intros ->.
  - unfold __init__.
    cbn [_set_id _set_description _set_sequence mbind result_bind].
    destruct dt; cbn [mbind result_bind _set_quality]; [| |done];
      intros [= <-]; cbn [_bytes]; by intros ->.
  - unfold __init__.
    cbn [_set_id _set_description _set_sequence mbind result_bind].
    case_decide as Hl; [done|]. cbn [mbind result_bind _set_quality].
    intros [= <-]. cbn [_bytes]. intros ->. done.
Qed.

Lemma adjust_indices_None_start (end_ : option Z) (n : Z) :
  0 <= n ->
  exists e, Py.adjust_indices None end_ n = (0, e) ∧ 0 <= e.
Proof.
  intros Hn. unfold Py.adjust_indices. eexists. split; [done|].
  destruct end_ as [e|]; [|done].
  destruct (n <? e) eqn:E1; [done|].
  destruct (e <? 0) eqn:E2; lia.
Qed.

(** C9, as stated, fails: an empty query is not found when the search
    starts beyond the end of the sequence. *)
Lemma index_empty_query_not_found :
  index ACG (FromRaw (FromText EmptyString)) (Some 5) None
  = Raise NotFoundError.
Proof. vm_compute. reflexivity. Qed.

(** [repr(self)] raises exactly when the symbols are not ASCII. *)
Lemma __repr___ascii (self : Sequence) :
  __repr__ self
  = if forallb Py.is_ascii_byte (_bytes self) then Ok tt
    else Raise UnicodeDecodeError.
Proof.
  unfold __repr__, __str__, _string, Py.decode_ascii.
  by destruct (forallb Py.is_ascii_byte (_bytes self)).
Qed.

(** [repr] of an argument the coercion accepts: only a sequence
    object is decoded. *)
Lemma repr_munged (self sub : Sequence) (subsequence : sequence_arg)
    (method : string) :
  _munge_to_sequence self subsequence method = Ok sub ->
  repr subsequence
  = match subsequence with
    | FromSequence _ =>
        if forallb Py.is_ascii_byte (_bytes sub) then Ok tt
        else Raise UnicodeDecodeError
    | FromRaw _ => Ok tt
    end.
Proof.
  destruct subsequence as [other|r]; [|done].
  unfold _munge_to_sequence. case_decide; [done|]. intros [= ->].
  apply __repr___ascii.
Qed.

(** C9, amended. For a query without symbols that the coercion
    accepts, [index] returns the normalised start offset when it does
    not exceed the normalised end of the search window; when start is
    unspecified the offset is 0 and it is always returned.  Otherwise
    the handler of [index] runs: it raises the not-found error when the
    symbols of the receiver are ASCII, and the decoding error of the
    message when they are not.  [count] rejects the same query. *)
Theorem index_empty_query (self sub : Sequence) (subsequence : sequence_arg)
    (start end_ : option Z) :
  _munge_to_sequence self subsequence "index" = Ok sub ->
  _bytes sub = [] ->
  index self subsequence start end_
    = (let '(b, e) := Py.adjust_indices start end_ (__len__ self) in
       if b <=? e then Ok b
       else if forallb Py.is_ascii_byte (_bytes self)
            then Raise NotFoundError
            else Raise UnicodeDecodeError) ∧
  index self subsequence None end_ = Ok 0 ∧
  count self subsequence start end_ = Raise EmptyQueryError.
Proof.
  intros Hm Hb.
  assert (Hidx : forall start,
    index self subsequence start end_
    = (let '(b, e) := Py.adjust_indices start end_ (__len__ self) in
       if b <=? e then Ok b
       else if forallb Py.is_ascii_byte (_bytes self)
            then Raise NotFoundError
            else Raise UnicodeDecodeError)).
  { intros st. unfold index. rewrite Hm. cbn [mbind result_bind].
    rewrite (repr_munged self sub subsequence "index" Hm), __repr___ascii.
    unfold Py.bytes_index, Py.bytes_find, _string. rewrite Hb.
    fold (__len__ self).
    destruct (Py.adjust_indices st end_ (__len__ self)) as [b e] eqn:Ha.
    assert (0 <= b).
    { unfold Py.adjust_indices in Ha. injection Ha as <- _.
      destruct st as [b0|]; [|done]. destruct (b0 <? 0) eqn:E; lia. }
    cbn [length]. change (Z.of_nat 0) with 0.
    destruct (e - b <? 0) eqn:E1.
    - replace (b <=? e) with false by lia.
      cbn [is_ValueError forallb].
      destruct subsequence; cbn [mbind result_bind];
        by destruct (forallb Py.is_ascii_byte (_bytes self)).
    - replace (b <=? e) with true by lia.
      replace (b <? 0) with false by lia. done. }
  split; [apply Hidx|]. split.
  - rewrite Hidx.
    destruct (adjust_indices_None_start end_ (__len__ self))
      as (e & -> & He); [unfold __len__; lia|].
    by replace (0 <=? e) with true by lia.
  - unfold count.
    by rewrite (_munge_empty_len self sub subsequence "index" Hm Hb).
Qed.

Lemma index_empty_query_witness :
  index ACG (FromRaw (FromText EmptyString)) (Some 2) None = Ok 2 ∧
  index ACG (FromRaw (FromText EmptyString)) None None = Ok 0 ∧
  count ACG (FromRaw (FromText EmptyString)) (Some 2) None
    = Raise EmptyQueryError.
Proof.
  exact (index_empty_query ACG (plain "Sequence" [])
           (FromRaw (FromText EmptyString)) (Some 2) None eq_refl eq_refl).
Defined.

(* ----------------------------------------------------------------- *)
(** ** [kmer_frequencies] on a sequence shorter than [k] *)

Lemma kmers_short (self : Sequence) (k : Z) (overlap : bool) :
  1 <= k -> __len__ self < k -> kmers self k overlap = Ok [].
Proof.
  intros Hk Hn. unfold kmers, Py.range.
  replace (k <? 1) with false by lia.
  assert (Hstep : 1 <= (if overlap then 1 else k)) by (destruct overlap; lia).
  replace ((if overlap then 1 else k) =? 0) with false by lia.
  unfold Py.range_length.
  replace (0 <? (if overlap then 1 else k)) with true by lia.
  replace (0 <? __len__ self - k + 1) with false by lia.
  done.
Qed.

(** C10. For [k >= 1] and a sequence shorter than [k], the total
    window count of the relative branch is not positive, yet
    [kmer_frequencies] with [relative=True] returns the empty mapping,
    which reads as [0.0] at every key, whatever the division operator
    does: the loop that divides runs zero times. *)
Theorem kmer_frequencies_short_relative (self : Sequence) (k : Z)
    (overlap : bool) :
  1 <= k -> __len__ self < k ->
  (if overlap then __len__ self - k + 1 else __len__ self / k) <= 0 ∧
  (forall truediv : Z -> Z -> result Q,
     kmer_frequencies_with truediv self k overlap true = Ok (Relative ∅)) ∧
  kmer_frequencies self k overlap true = Ok (Relative ∅) ∧
  frequencies_size (Relative ∅) = 0%nat ∧
  (forall key : string, frequencies_get (Relative ∅) key = (0 # 1)%Q).
Proof.
  intros Hk Hn.
  assert (Hall : forall truediv : Z -> Z -> result Q,
     kmer_frequencies_with truediv self k overlap true = Ok (Relative ∅)).
  { intros truediv. unfold kmer_frequencies_with.
    rewrite kmers_short by done.
    cbn [mbind result_bind traverse]. unfold Counter. cbn [foldl].
    by rewrite map_to_list_empty. }
  split; [|split; [done|split; [apply Hall|split; [done|]]]].
  - destruct overlap; [lia|].
    assert (0 <= __len__ self) by (unfold __len__; lia).
    rewrite Z.div_small; lia.
  - intros key. unfold frequencies_get. by rewrite lookup_empty.
Qed.

Lemma kmer_frequencies_short_relative_witness :
  kmer_frequencies ACG 4 true true = Ok (Relative ∅) ∧
  kmer_frequencies ACG 4 false true = Ok (Relative ∅).
Proof.
  split.
  - apply (kmer_frequencies_short_relative ACG 4 true); reflexivity || lia.
  - apply (kmer_frequencies_short_relative ACG 4 false); reflexivity || lia.
Defined.

(* ----------------------------------------------------------------- *)
(** ** Slices of arrays and of sequences *)

Lemma omap_lookup_seq {A} (a : list A) (n : nat) :
  (n <= length a)%nat -> omap (fun j => a !! j) (seq 0 n) = take n a.
Proof.
  revert n. induction a as [|x a IH]; intros [|n] Hn; simpl in *;
    try done; try lia.
  f_equal. rewrite <- fmap_S_seq.
  rewrite <- (IH n) by lia.
  apply list_omap_ext. apply Forall2_fmap_l, Forall_Forall2_diag.
  by apply Forall_forall.
Qed.

Lemma strided_unit {A} (a : list A) (b : Z) (n : nat) :
  0 <= b -> (Z.to_nat b + n <= length a)%nat ->
  Np.strided a b 1 n = take n (drop (Z.to_nat b) a).
Proof.
  intros Hb Hn. unfold Np.strided, Py.range_items.
  rewrite <- omap_lookup_seq by (rewrite length_drop; lia).
  apply list_omap_ext. apply Forall2_fmap_l, Forall_Forall2_diag.
  apply Forall_forall. intros j _. unfold compose.
  rewrite lookup_drop. f_equal. lia.
Qed.

Lemma getitem_slice_window {A} (a : list A) (i k : Z) :
  0 <= i -> 0 <= k -> i + k <= Z.of_nat (length a) ->
  Np.getitem_slice a (Py.Slice (Some i) (Some (i + k)) None)
  = Ok (take (Z.to_nat k) (drop (Z.to_nat i) a)).
Proof.
  intros Hi Hk Hn. unfold Np.getitem_slice, Py.slice_indices, Py.clamp.
  cbn [Py.start Py.stop Py.step default Z.eqb Z.ltb Z.compare
       mbind result_bind].
  replace (i <? 0) with false by lia.
  replace (i + k <? 0) with false by lia.
  rewrite !Z.min_l by lia.
  assert (Hlen : Py.range_length i (i + k) 1 = k).
  { unfold Py.range_length. cbn [Z.ltb Z.compare].
    destruct (i <? i + k) eqn:E; [|lia].
    rewrite Z.div_1_r. lia. }
  rewrite Hlen. f_equal. apply strided_unit; lia.
Qed.

(** [_to] with the symbols and the quality of a selection whose two
    arrays agree in length. *)
Lemma _to_with_data (self : Sequence) (symbols : list byte)
    (quality : option (list Z)) :
  match quality with
  | Some q => length q = length symbols ∧ Forall (fun x => 0 <= x) q
  | None => True
  end ->
  _to self (Some (FromRaw (FromArray Uint8 symbols))) None None
    (Some (QArray <$> quality))
  = Ok (with_data self symbols quality).
Proof.
  intros Hq. unfold _to, __init__.
  destruct quality as [q|]; cbn -[_set_quality].
  - destruct Hq as [Hl Hq]. by rewrite _set_quality_array.
  - done.
Qed.

Lemma take_drop_valid (q : list Z) (n offset k : nat) :
  length q = n -> Forall (fun x => 0 <= x) q ->
  forall symbols : list byte, length symbols = n ->
  length (take k (drop offset q)) = length (take k (drop offset symbols))
  ∧ Forall (fun x => 0 <= x) (take k (drop offset q)).
Proof.
  intros Hl Hq symbols Hs. split.
  - rewrite !length_take, !length_drop. lia.
  - by apply Forall_take, Forall_drop.
Qed.

Lemma getitem_window (self : Sequence) (i k : Z) :
  valid self -> 0 <= i -> 0 <= k -> i + k <= __len__ self ->
  __getitem__ self (ISlice (Py.Slice (Some i) (Some (i + k)) None))
  = Ok (window_at self (Z.to_nat i) (Z.to_nat k)).
Proof.
  intros Hv Hi Hk Hn. unfold __getitem__, native_getitem.
  cbn [mbind result_bind].
  rewrite getitem_slice_window by done.
  cbn [fmap result_fmap mbind result_bind].
  unfold valid in Hv. unfold window_at.
  destruct (_quality self) as [q|] eqn:Eq.
  - destruct Hv as [Hl Hq].
    rewrite getitem_slice_window by (unfold __len__ in Hn; lia).
    cbn [fmap result_fmap mbind result_bind option_fmap option_map].
    apply (_to_with_data self _ (Some _)).
    by apply (take_drop_valid q (length (_bytes self))).
  - cbn [mbind result_bind]. by apply (_to_with_data self _ None).
Qed.

(* ----------------------------------------------------------------- *)
(** ** [kmers] *)

Lemma traverse_fmap_seq {A B} (f : A -> result B) (g : nat -> A)
    (h : nat -> B) (s n : nat) :
  (forall j, (s <= j < s + n)%nat -> f (g j) = Ok (h j)) ->
  traverse f (g <$> seq s n) = Ok (h <$> seq s n).
Proof.
  revert s. induction n as [|n IH]; intros s Hf; [done|].
  cbn [seq fmap list_fmap traverse].
  rewrite Hf by lia. cbn [mbind result_bind].
  change (traverse f (g <$> seq (S s) n) ≫= (fun ys => Ok (h s :: ys))
          = Ok (h s :: (h <$> seq (S s) n))).
  rewrite IH; [done|]. intros j Hj. apply Hf. lia.
Qed.

Lemma kmers_range_length (N k : Z) (overlap : bool) :
  0 <= N -> 1 <= k ->
  Py.range_length 0 (N - k + 1) (if overlap then 1 else k)
  = kmer_count N k overlap.
Proof.
  intros HN Hk. unfold Py.range_length, kmer_count.
  destruct overlap.
  - cbn [Z.ltb Z.compare]. destruct (0 <? N - k + 1) eqn:E.
    + rewrite Z.div_1_r. lia.
    + lia.
  - replace (0 <? k) with true by lia.
    destruct (0 <? N - k + 1) eqn:E.
    + replace (N - k + 1 - 1 - 0) with (N + (-1) * k) by lia.
      rewrite Z.div_add by lia. lia.
    + rewrite Z.div_small; lia.
Qed.

Lemma kmers_offset_fits (N k : Z) (overlap : bool) (j : nat) :
  0 <= N -> 1 <= k ->
  Z.of_nat j < kmer_count N k overlap ->
  0 + Z.of_nat j * (if overlap then 1 else k) + k <= N.
Proof.
  intros HN Hk. unfold kmer_count. destruct overlap; [lia|].
  intros Hj. pose proof (Z.mul_div_le N k). nia.
Qed.

(** C3. For a sequence of length [N]: [kmers] raises the
    invalid-argument error exactly when [k < 1]; for [k >= 1] it
    yields the windows of length [k] at offsets 0, step, 2 step, ...
    with step 1 and [max 0 (N - k + 1)] windows when overlapping, and
    step [k] and [N // k] windows when not; a sequence shorter than
    [k] yields no window and no error. *)
Theorem kmers_contract (self : Sequence) (k : Z) (overlap : bool) :
  valid self ->
  (kmers self k overlap = Raise InvalidArgumentError <-> k < 1) ∧
  (1 <= k ->
   exists windows : list Sequence,
     kmers self k overlap = Ok windows ∧
     length windows
     = Z.to_nat (if overlap then Z.max 0 (__len__ self - k + 1)
                 else __len__ self / k) ∧
     (forall (j : nat) (w : Sequence), windows !! j = Some w ->
        w = window_at self (j * Z.to_nat (if overlap then 1 else k))
                      (Z.to_nat k)
        ∧ Z.of_nat (length (_bytes w)) = k) ∧
     (__len__ self < k -> windows = [])).
Proof.
  intros Hv.
  assert (HN : 0 <= __len__ self) by (unfold __len__; lia).
  set (step := if overlap then 1 else k).
  set (n := Z.to_nat (kmer_count (__len__ self) k overlap)).
  assert (Hok : 1 <= k ->
    kmers self k overlap
    = Ok ((fun j => window_at self (j * Z.to_nat step) (Z.to_nat k))
            <$> seq 0 n)).
  { intros Hk. unfold kmers, Py.range.
    replace (k <? 1) with false by lia.
    assert (1 <= step) by (unfold step; destruct overlap; lia).
    fold step. replace (step =? 0) with false by lia.
    cbn [mbind result_bind].
    rewrite (kmers_range_length (__len__ self) k overlap HN Hk
             : Py.range_length 0 (__len__ self - k + 1) step = _).
    fold n.
    unfold Py.range_items.
    apply traverse_fmap_seq. intros j Hj.
    pose proof (kmers_offset_fits (__len__ self) k overlap j HN Hk) as Hfit.
    fold step in Hfit.
    rewrite getitem_window by (try done; unfold n in Hj; nia).
    do 2 f_equal. rewrite Z.add_0_l, Z2Nat.inj_mul, Nat2Z.id; lia. }
  split.
  - split.
    + intros Hr. destruct (Z.lt_ge_cases k 1) as [|Hk]; [done|].
      rewrite Hok in Hr by lia. done.
    + intros Hk. unfold kmers. by replace (k <? 1) with true by lia.
  - intros Hk. eexists. split; [by apply Hok|].
    split; [by rewrite length_fmap, length_seq|]. split.
    + intros j w Hw. apply list_lookup_fmap_Some in Hw as (i & -> & Hi).
      apply lookup_seq in Hi as [-> Hi]. cbn [Nat.add].
      split; [done|].
      unfold window_at, with_data. cbn [_bytes].
      pose proof (kmers_offset_fits (__len__ self) k overlap j HN Hk) as Hfit.
      fold step in Hfit. unfold n in Hi.
      specialize (Hfit ltac:(lia)). unfold __len__ in Hfit.
      rewrite length_take, length_drop.
      assert (0 <= step) by (unfold step; destruct overlap; lia).
      assert (Z.of_nat (j * Z.to_nat step) = Z.of_nat j * step)
        by (rewrite Nat2Z.inj_mul, Z2Nat.id; lia).
      lia.
    + intros Hshort. unfold n, kmer_count.
      destruct overlap.
      * by replace (Z.max 0 (__len__ self - k + 1)) with 0 by lia.
      * by rewrite Z.div_small by lia.
Qed.

Lemma kmers_contract_witness :
  valid ACG ∧
  exists windows : list Sequence,
    kmers ACG 2 true = Ok windows ∧ length windows = 2%nat.
Proof.
  split; [exact I|].
  destruct (kmers_contract ACG 2 true I) as [_ H].
  destruct (H ltac:(lia)) as (windows & Hk & Hl & _).
  exists windows. split; [exact Hk|]. rewrite Hl. reflexivity.
Defined.

(* ----------------------------------------------------------------- *)
(** ** [count] *)

Lemma startswith_occurs (sub s : list byte) :
  Py.startswith sub s = true <-> occurs_at sub s 0.
Proof.
  unfold occurs_at. change (drop 0 s) with s. revert s.
  induction sub as [|x sub IH]; intros [|y s]; cbn; try done.
  rewrite andb_true_iff, IH, byte_eqb_decide, bool_decide_eq_true.
  split; [intros [-> ->]; done | intros [= -> ->]; done].
Qed.

Lemma occurs_at_fits (sub s : list byte) (p : nat) :
  occurs_at sub s p -> sub ≠ [] -> (p + length sub <= length s)%nat.
Proof.
  unfold occurs_at. intros H Hne.
  apply (f_equal length) in H. rewrite length_take, length_drop in H.
  assert (0 < length sub)%nat by (destruct sub; [done | simpl; lia]).
  lia.
Qed.

Lemma nonoverlapping_weaken (sub s : list byte) (lo lo' : nat) ps :
  (lo <= lo')%nat -> nonoverlapping sub s lo' ps -> nonoverlapping sub s lo ps.
Proof. destruct ps as [|p ps]; simpl; [done|]. intros ? (? & ? & ?). split; [lia|done]. Qed.

Lemma nonoverlapping_cons_S (sub s : list byte) (c : byte) (lo : nat) ps :
  nonoverlapping sub s lo ps ->
  nonoverlapping sub (c :: s) (S lo) (S <$> ps).
Proof.
  revert lo. induction ps as [|p ps IH]; intros lo; simpl; [done|].
  intros (Hlo & Hp & Hps). split; [lia|]. split; [done|].
  by apply (IH (p + length sub)%nat).
Qed.

Lemma nonoverlapping_cons_inv (sub s : list byte) (c : byte) (lo : nat) ps :
  nonoverlapping sub (c :: s) (S lo) ps ->
  exists ps', ps = S <$> ps' ∧ nonoverlapping sub s lo ps'.
Proof.
  revert lo. induction ps as [|p ps IH]; intros lo; simpl.
  - intros _. by exists [].
  - intros (Hlo & Hp & Hps). destruct p as [|p]; [lia|].
    destruct (IH (p + length sub)%nat Hps) as (ps' & -> & Hps').
    exists (p :: ps'). split; [done|]. simpl. split; [lia|done].
Qed.

(** The scan finds a set of non-overlapping occurrences ... *)
Lemma scan_count_achieved (sub s : list byte) (skip : nat) :
  sub ≠ [] ->
  exists ps, nonoverlapping sub s skip ps
             ∧ length ps = Py.scan_count sub s skip.
Proof.
  intros Hne. revert skip. induction s as [|c s IH]; intros skip.
  - by exists [].
  - cbn [Py.scan_count]. destruct skip as [|k].
    + destruct (Py.startswith sub (c :: s)) eqn:E.
      * destruct (IH (length sub - 1)%nat) as (ps & Hps & Hl).
        exists (0%nat :: (S <$> ps)). split.
        -- simpl. split; [lia|]. split; [by apply startswith_occurs|].
           replace (length sub) with (S (length sub - 1))
             by (destruct sub; [done | simpl; lia]).
           replace (S (length sub - 1) - 1)%nat with (length sub - 1)%nat
             by lia.
           by apply nonoverlapping_cons_S.
        -- simpl. by rewrite length_fmap, Hl.
      * destruct (IH 0%nat) as (ps & Hps & Hl).
        exists (S <$> ps). split; [|by rewrite length_fmap].
        apply (nonoverlapping_weaken _ _ 0 1); [lia|].
        by apply nonoverlapping_cons_S.
    + destruct (IH k) as (ps & Hps & Hl).
      exists (S <$> ps). split; [|by rewrite length_fmap].
      by apply nonoverlapping_cons_S.
Qed.

(** ... and no set of non-overlapping occurrences is larger. *)
Lemma scan_count_maximal (sub s : list byte) (skip : nat) ps :
  sub ≠ [] ->
  nonoverlapping sub s skip ps ->
  (length ps <= Py.scan_count sub s skip)%nat.
Proof.
  intros Hne. revert skip ps. induction s as [|c s IH]; intros skip ps Hps.
  - destruct ps as [|p ps]; [done|]. destruct Hps as (_ & Hp & _).
    apply occurs_at_fits in Hp; [|done].
    destruct sub; [done|]. simpl in Hp. lia.
  - cbn [Py.scan_count]. destruct skip as [|k].
    + destruct ps as [|p ps]; [simpl; lia|].
      destruct (Py.startswith sub (c :: s)) eqn:E.
      * destruct Hps as (_ & _ & Hps). cbn [length].
        apply (nonoverlapping_weaken _ _ (S (length sub - 1))) in Hps;
          [|destruct sub; [done | simpl; lia]].
        apply nonoverlapping_cons_inv in Hps as (ps' & -> & Hps').
        rewrite length_fmap. apply IH in Hps'. lia.
      * assert (Hp : p ≠ 0%nat).
        { intros ->. destruct Hps as (_ & Hp & _).
          apply startswith_occurs in Hp. congruence. }
        assert (Hps1 : nonoverlapping sub (c :: s) 1 (p :: ps)).
        { destruct Hps as (? & ? & ?). simpl. split; [lia | done]. }
        apply nonoverlapping_cons_inv in Hps1 as (ps' & Heq & Hps').
        rewrite Heq, length_fmap. by apply IH.
    + apply nonoverlapping_cons_inv in Hps as (ps' & -> & Hps').
      rewrite length_fmap. by apply IH.
Qed.

Lemma scan_count_nonoverlapping (sub s : list byte) :
  sub ≠ [] -> count_nonoverlapping sub s (Py.scan_count sub s 0).
Proof.
  intros Hne. split.
  - by apply scan_count_achieved.
  - intros ps. by apply scan_count_maximal.
Qed.

Lemma length_list_byte_of_string (t : string) :
  length (list_byte_of_string t) = String.length t.
Proof.
  unfold list_byte_of_string.
  induction t as [|c t IH]; [done|]. cbn. by rewrite IH.
Qed.

Lemma _munge_raw (self : Sequence) (r : raw_arg) (method : string) :
  _munge_to_sequence self (FromRaw r) method
  = plain "Sequence" <$> _set_sequence r.
Proof.
  unfold _munge_to_sequence, __init__.
  cbn [_set_id _set_description mbind result_bind].
  by destruct (_set_sequence r).
Qed.

(** The length [count] tests is the number of symbols of the munged
    query. *)
Lemma _munge_len (self sub : Sequence) (subsequence : sequence_arg)
    (method : string) (n : Z) :
  _munge_to_sequence self subsequence method = Ok sub ->
  len subsequence = Ok n ->
  n = Z.of_nat (length (_bytes sub)).
Proof.
  destruct subsequence as [other|r].
  - unfold _munge_to_sequence, len. case_decide; [done|].
    by intros [= ->] [= <-].
  - rewrite _munge_raw. unfold len.
    destruct r as [t|b|dt data|buffer]; cbn [_set_sequence].
    + unfold Py.encode_ascii. destruct (forallb _ _); [|done].
      intros [= <-] [= <-]. cbn [plain _bytes].
      by rewrite length_list_byte_of_string.
    + by intros [= <-] [= <-].
    + destruct dt; try done; by intros [= <-] [= <-].
    + done.
Qed.

Lemma _munge_not_empty_query (self : Sequence) (subsequence : sequence_arg)
    (method : string) :
  _munge_to_sequence self subsequence method ≠ Raise EmptyQueryError.
Proof.
  destruct subsequence as [other|r].
  - unfold _munge_to_sequence. by case_decide.
  - rewrite _munge_raw.
    destruct r as [t|b|dt data|buffer]; cbn [_set_sequence]; try done.
    + unfold Py.encode_ascii. by destruct (forallb _ _).
    + by destruct dt.
    + by case_decide.
Qed.

Lemma bytes_count_nonoverlapping (s sub : list byte) (start end_ : option Z) :
  sub ≠ [] ->
  exists c : nat,
    Py.bytes_count s sub start end_ = Z.of_nat c ∧
    count_nonoverlapping sub
      (Py.window s (Py.adjust_indices start end_ (Z.of_nat (length s))).1
                   (Py.adjust_indices start end_ (Z.of_nat (length s))).2)
      c.
Proof.
  intros Hne. unfold Py.bytes_count.
  destruct (Py.adjust_indices start end_ (Z.of_nat (length s))) as [b e].
  cbn [fst snd].
  destruct (e - b <? Z.of_nat (length sub)) eqn:E.
  - exists 0%nat. split; [done|]. split; [by exists []|].
    intros [|p ps]; [done|]. intros (_ & Hp & _).
    apply occurs_at_fits in Hp; [|done].
    unfold Py.window in Hp. rewrite length_take in Hp.
    apply Z.ltb_lt in E.
    assert (0 < length sub)%nat by (destruct sub; [done | simpl; lia]).
    lia.
  - exists (Py.scan_count sub (Py.window s b e) 0). split.
    + by destruct sub.
    + by apply scan_count_nonoverlapping.
Qed.

(** C8, as stated, fails: a query that is a sequence of another class
    has a non-zero length, and [count] raises the type error of the
    munge rule instead of counting. *)
Lemma count_other_class_raises :
  count ACG (FromSequence DNA_A) None None
  = Raise (TypeError "Cannot use %s and %s together with `%s`").
Proof. reflexivity. Qed.

(** C8, amended. For a query that has a length: [count] raises the
    empty-query error exactly when that length is 0; otherwise, when
    the munge rule accepts the query (a sequence of the same class,
    or raw symbols the constructor accepts), [count] returns the
    number of non-overlapping occurrences of the query's symbols
    within the window [start, end) of the sequence's symbols, the
    window being normalised as Python normalises slice bounds; and
    when the munge rule rejects the query, [count] raises the error
    of the munge rule. *)
Theorem count_contract (self : Sequence) (subsequence : sequence_arg)
    (start end_ : option Z) (n : Z) :
  len subsequence = Ok n ->
  (count self subsequence start end_ = Raise EmptyQueryError <-> n = 0) ∧
  (n ≠ 0 ->
   forall sub : Sequence,
     _munge_to_sequence self subsequence "count" = Ok sub ->
     exists c : nat,
       count self subsequence start end_ = Ok (Z.of_nat c) ∧
       count_nonoverlapping (_string sub)
         (Py.window (_string self)
            (Py.adjust_indices start end_ (__len__ self)).1
            (Py.adjust_indices start end_ (__len__ self)).2)
         c) ∧
  (n ≠ 0 ->
   forall e : exn,
     _munge_to_sequence self subsequence "count" = Raise e ->
     count self subsequence start end_ = Raise e).
Proof.
  intros Hlen. unfold count. rewrite Hlen. cbn [mbind result_bind].
  destruct (Z.eqb_spec n 0) as [Hn|Hn].
  - split; [done|]. split; by intros [].
  - split; [|split].
    + split; [|done].
      pose proof (_munge_not_empty_query self subsequence "count") as Hm.
      destruct (_munge_to_sequence self subsequence "count"); [done|].
      cbn [mbind result_bind]. intros [= ->]. by destruct Hm.
    + intros _ sub Hsub. rewrite Hsub. cbn [mbind result_bind].
      assert (Hne : _string sub ≠ []).
      { pose proof (_munge_len _ _ _ _ _ Hsub Hlen) as Hl.
        unfold _string. intros Hnil. rewrite Hnil in Hl. simpl in Hl. lia. }
      destruct (bytes_count_nonoverlapping (_string self) (_string sub)
                  start end_ Hne) as (c & Hc & Hmax).
      exists c. by rewrite Hc.
    + intros _ e He. by rewrite He.
Qed.

Lemma count_contract_witness :
  exists c : nat,
    count ACG (FromRaw (FromText "CG")) None None = Ok (Z.of_nat c) ∧
    count_nonoverlapping (list_byte_of_string "CG")
      (Py.window (list_byte_of_string "ACG") 0 3) c.
Proof.
  destruct (count_contract ACG (FromRaw (FromText "CG")) None None 2 eq_refl)
    as (_ & H & _).
  exact (H ltac:(lia) (plain "Sequence" (list_byte_of_string "CG")) eq_refl).
Defined.

(* ----------------------------------------------------------------- *)
(** ** Indexing with a mixed iterable of slices and integers *)

Lemma getitem_slice_selected {A} (a : list A) (sl : Py.slice) :
  Py.step sl ≠ Some 0 -> Np.getitem_slice a sl = Ok (selected a sl).
Proof.
  intros Hst. unfold selected, Np.getitem_slice, Py.slice_indices.
  destruct (default 1 (Py.step sl) =? 0) eqn:E; [|done].
  apply Z.eqb_eq in E. destruct (Py.step sl) as [st|]; simpl in E; [|done].
  by subst st.
Qed.

Lemma getitem_slice_zero_step {A} (a : list A) (sl : Py.slice) :
  Py.step sl = Some 0 ->
  Np.getitem_slice a sl = Raise (ValueError "slice step cannot be zero").
Proof.
  intros Hst. unfold Np.getitem_slice, Py.slice_indices. by rewrite Hst.
Qed.

Lemma strided_length {A B} (a : list A) (a' : list B) (b st : Z) (n : nat) :
  length a = length a' ->
  length (Np.strided a b st n) = length (Np.strided a' b st n).
Proof.
  intros Hl. unfold Np.strided.
  induction (Py.range_items b st n) as [|i l IH]; [done|].
  cbn [omap list_omap].
  destruct (a !! Z.to_nat i) as [x|] eqn:Ea,
           (a' !! Z.to_nat i) as [y|] eqn:Ea'; cbn [length];
    try (by rewrite IH); exfalso.
  - apply lookup_lt_Some in Ea. apply lookup_ge_None in Ea'. lia.
  - apply lookup_lt_Some in Ea'. apply lookup_ge_None in Ea. lia.
Qed.

Lemma selected_length {A B} (a : list A) (a' : list B) (sl : Py.slice) :
  length a = length a' -> length (selected a sl) = length (selected a' sl).
Proof.
  intros Hl. unfold selected, Np.getitem_slice. rewrite Hl.
  destruct (Py.slice_indices sl (Z.of_nat (length a'))) as [[[b e] st]|];
    [|done].
  cbn [mbind result_bind]. by apply strided_length.
Qed.

Lemma selected_Forall {A} (P : A -> Prop) (a : list A) (sl : Py.slice) :
  Forall P a -> Forall P (selected a sl).
Proof.
  intros Ha. unfold selected, Np.getitem_slice.
  destruct (Py.slice_indices sl (Z.of_nat (length a))) as [[[b e] st]|];
    [|done].
  cbn [mbind result_bind]. unfold Np.strided.
  apply Forall_forall. intros x (i & _ & Hi)%list_elem_of_omap.
  by apply (Forall_lookup_1 P a (Z.to_nat i) x).
Qed.






Lemma traverse_cons_Ok {A B} (f : A -> result B) x l y :
  f x = Ok y -> traverse f (x :: l) = (ys ← traverse f l; Ok (y :: ys)).
Proof. intros H. cbn [traverse]. by rewrite H. Qed.

Lemma traverse_cons_Raise {A B} (f : A -> result B) x l e :
  f x = Raise e -> traverse f (x :: l) = Raise e.
Proof. intros H. cbn [traverse]. by rewrite H. Qed.









(** An integer outside the array selects nothing. *)
Lemma segment_int_outside {A} (a : list A) (i : Z) :
  i < - Z.of_nat (length a) ∨ Z.of_nat (length a) <= i ->
  segment a (EInt i) = [].
Proof.
  intros Hi. unfold segment, selected, Np.getitem_slice, slice_of,
    Py.slice_indices, Py.clamp.
  set (n := Z.of_nat (length a)) in *.
  destruct (Z.eqb_spec i (-1)) as [->|Hne].
  - cbn [Py.start Py.stop Py.step from_option Z.eqb Z.ltb Z.compare
         mbind result_bind].
    assert (n = 0) as -> by lia.
    by destruct a.
  - cbn [Py.start Py.stop Py.step from_option Z.eqb Z.ltb Z.compare
         mbind result_bind].
    assert (Hlen : forall b e, e <= b -> Py.range_length b e 1 = 0).
    { intros b e Hbe. unfold Py.range_length. cbn [Z.ltb Z.compare].
      by replace (b <? e) with false by lia. }
    rewrite Hlen; [done|].
    destruct (Z.ltb_spec i 0), (Z.ltb_spec (i + 1) 0); lia.
Qed.





(* ----------------------------------------------------------------- *)
(** ** [slices_from_regex] with an exclusion mask *)

Lemma nonzero_from_shift (i : Z) (m : list bool) :
  Np.nonzero_from i m = Z.add i <$> Np.nonzero_from 0 m.
Proof.
  revert i. induction m as [|b m IH]; intros i; [done|].
  cbn [Np.nonzero_from]. rewrite (IH (i + 1)), (IH (0 + 1)).
  assert (Heq : Z.add (i + 1) <$> Np.nonzero_from 0 m
                = Z.add i <$> (Z.add (0 + 1) <$> Np.nonzero_from 0 m)).
  { rewrite <- list_fmap_compose. apply list_fmap_ext.
    intros _ j _. unfold compose. lia. }
  destruct b; cbn [fmap list_fmap]; rewrite Heq; [f_equal; lia | done].
Qed.

Lemma where_cons (b : bool) (m : list bool) :
  Np.where_ (b :: m)
  = (if b then [0] else []) ++ (Z.add 1 <$> Np.where_ m).
Proof.
  unfold Np.where_. cbn [Np.nonzero_from].
  rewrite (nonzero_from_shift (0 + 1)). by destruct b.
Qed.

Lemma where_nonneg (m : list bool) : Forall (fun i => 0 <= i) (Np.where_ m).
Proof.
  induction m as [|b m IH]; [constructor|].
  rewrite where_cons. apply Forall_app. split.
  - destruct b; [apply Forall_singleton; lia | constructor].
  - apply Forall_fmap. eapply Forall_impl; [exact IH|].
    intros i Hi. unfold compose. cbv beta in *. lia.
Qed.

(** [np.where(np.invert(exclude))[0]] lists the included positions. *)
Lemma where_invert_included (exclude : list bool) :
  Np.where_ (Np.invert exclude) = included_positions exclude.
Proof.
  unfold included_positions.
  induction exclude as [|x ex IH]; [done|].
  unfold Np.invert in *. cbn [fmap list_fmap length seq].
  rewrite where_cons, IH, filter_cons.
  rewrite (filter_seq_S _ (fun i => ex !! i = Some false) 0 (length ex))
    by done.
  assert (Hsucc : Z.add 1 <$> (Z.of_nat <$>
                    filter (fun i => ex !! i = Some false) (seq 0 (length ex)))
                  = Z.of_nat <$> (S <$>
                    filter (fun i => ex !! i = Some false) (seq 0 (length ex)))).
  { rewrite <- !list_fmap_compose. apply list_fmap_ext.
    intros _ j _. unfold compose. lia. }
  rewrite Hsucc.
  destruct x; case_decide as Hd; cbn [negb app fmap list_fmap];
    try done; exfalso; cbn in Hd; congruence.
Qed.

(** A boolean index selects the symbols at the positions of [where]. *)
Lemma compress_where {A} (m : list bool) (a : list A) :
  length m = length a ->
  Np.compress m a = omap (fun i => a !! Z.to_nat i) (Np.where_ m).
Proof.
  revert a. induction m as [|b m IH]; intros [|x a] Hl; try done.
  injection Hl as Hl. rewrite where_cons, omap_app.
  assert (Htail : omap (fun i => (x :: a) !! Z.to_nat i)
                    (Z.add 1 <$> Np.where_ m)
                  = omap (fun i => a !! Z.to_nat i) (Np.where_ m)).
  { apply list_omap_ext. apply Forall2_fmap_l, Forall_Forall2_diag.
    eapply Forall_impl; [apply where_nonneg|].
    intros i Hi. unfold compose. cbv beta in Hi.
    replace (Z.to_nat (1 + i)) with (S (Z.to_nat i)) by lia. done. }
  rewrite Htail, <- IH by done.
  by destruct b.
Qed.

Lemma compress_length {A B} (m : list bool) (a : list A) (a' : list B) :
  length a = length a' ->
  length (Np.compress m a) = length (Np.compress m a').
Proof.
  revert a a'. induction m as [|b m IH]; intros [|x a] [|y a'] Hl;
    try done.
  injection Hl as Hl. cbn [Np.compress].
  destruct b; cbn [length]; by rewrite (IH a a').
Qed.

Lemma compress_Forall {A} (P : A -> Prop) (m : list bool) (a : list A) :
  Forall P a -> Forall P (Np.compress m a).
Proof.
  revert a. induction m as [|b m IH]; intros [|x a] Ha; try constructor.
  apply Forall_cons in Ha as [Hx Ha]. cbn [Np.compress].
  destruct b; [constructor; [done|]|]; by apply IH.
Qed.

Lemma compress_nil {A} (m : list bool) : Np.compress m (@nil A) = [].
Proof. by destruct m. Qed.

(** Indexing a valid sequence with a boolean array of its length. *)
Lemma getitem_mask (self : Sequence) (m : list bool) :
  valid self -> length m = length (_bytes self) ->
  __getitem__ self (IArray (BoolArray m))
  = Ok (with_data self (Np.compress m (_bytes self))
          (Np.compress m <$> _quality self)).
Proof.
  intros Hv Hl. unfold __getitem__, __len__. rewrite Hl, Z.eqb_refl.
  cbn [negb mbind result_bind array_size].
  unfold valid in Hv.
  assert (Hto : forall q' : option (list Z),
    q' = Np.compress m <$> _quality self ->
    _to self (Some (FromRaw (FromArray Uint8 (Np.compress m (_bytes self)))))
      None None (Some (QArray <$> q'))
    = Ok (with_data self (Np.compress m (_bytes self))
            (Np.compress m <$> _quality self))).
  { intros q' ->. apply _to_with_data.
    destruct (_quality self) as [q|]; [|done].
    destruct Hv as [Hq Hnn]. split.
    - by apply compress_length.
    - by apply compress_Forall. }
  case_decide as Hsize.
  - (* the empty mask of the empty sequence *)
    rewrite Hsize in Hl. symmetry in Hl. apply length_zero_iff_nil in Hl.
    apply length_zero_iff_nil in Hsize. subst m.
    cbn [native_getitem Np.getitem_ints traverse fmap result_fmap
         mbind result_bind].
    destruct (_quality self) as [q|] eqn:Eq.
    + cbn [fmap result_fmap mbind result_bind].
      rewrite Hl in *. cbn [Np.compress] in *.
      apply (Hto (Some [])). cbn. destruct Hv as [Hq _].
      by destruct q.
    + cbn [mbind result_bind]. rewrite Hl in *. by apply (Hto None).
  - cbn [native_getitem]. unfold Np.getitem_mask.
    rewrite decide_True by done.
    cbn [fmap result_fmap mbind result_bind].
    destruct (_quality self) as [q|] eqn:Eq.
    + destruct Hv as [Hq _]. rewrite decide_True by lia.
      cbn [fmap result_fmap mbind result_bind]. by apply (Hto (Some _)).
    + cbn [mbind result_bind]. by apply (Hto None).
Qed.

Lemma generate_all {A B} (body : A -> result B) (h : A -> B) items :
  Forall (fun x => body x = Ok (h x)) items ->
  generate body items = Generated (h <$> items) None.
Proof.
  induction 1 as [|x items Hx _ IH]; [done|].
  cbn [generate]. by rewrite Hx, IH.
Qed.

Lemma getitem_int_remap (lookup : list Z) (i : Z) :
  0 <= i < Z.of_nat (length lookup) ->
  Np.getitem_int lookup i = Ok (remap lookup i).
Proof.
  intros Hi. unfold Np.getitem_int, remap.
  replace (i <? 0) with false by lia.
  replace ((i <? 0) || (Z.of_nat (length lookup) <=? i)) with false by lia.
  destruct (lookup !! Z.to_nat i) eqn:E; [done|].
  apply lookup_ge_None in E. lia.
Qed.

Lemma list_bind_pair {A B} (x : A) (l : list B) :
  (y ← l; [(x, y)]) = pair x <$> l.
Proof. induction l as [|y l IH]; [done|]. cbn. by f_equal. Qed.

(** Group numbers 1, 2, ... against the list of group spans. *)
Lemma fmap_group_numbers {A B} (F : option A -> B) (l : list A) :
  (fun g => F (l !! Z.to_nat (g - 1))) <$> Py.range_items 1 1 (length l)
  = (fun x => F (Some x)) <$> l.
Proof.
  unfold Py.range_items. rewrite <- list_fmap_compose.
  apply list_eq. intros i. rewrite !list_lookup_fmap.
  destruct (l !! i) as [x|] eqn:E.
  - rewrite lookup_seq_lt by (by eapply lookup_lt_Some).
    cbn. f_equal. f_equal. rewrite <- E. f_equal. lia.
  - rewrite lookup_seq_ge by (by apply lookup_ge_None). done.
Qed.

Section slices_from_regex_properties.
Variable pattern : Type.
Variable re_compile : string -> result pattern.
Variable finditer : pattern -> string -> list re_match.

(** The loop body on group [g] of a match whose span indexes into
    [lookup]. *)
Lemma remap_group (lookup : list Z) (m : re_match) (j : nat) (span : Z * Z) :
  group_spans m !! j = Some span ->
  indexes lookup span ->
  (start ← match_start m (1 + Z.of_nat j * 1);
   first ← Np.getitem_int lookup start;
   end_ ← match_end m (1 + Z.of_nat j * 1);
   last ← Np.getitem_int lookup (end_ - 1);
   Ok (Py.Slice (Some first) (Some (last + 1)) None))
  = Ok (remapped_slice lookup span).
Proof.
  intros Hj [Hb He]. unfold match_start, match_end, match_span.
  rewrite (proj2 (Z.eqb_neq (1 + Z.of_nat j * 1) 0)) by lia.
  rewrite (proj2 (Z.ltb_ge (1 + Z.of_nat j * 1) 0)) by lia.
  replace (Z.to_nat (1 + Z.of_nat j * 1 - 1)) with j by lia.
  rewrite Hj. cbn [fmap result_fmap mbind result_bind].
  rewrite (getitem_int_remap lookup span.1 Hb). cbn [mbind result_bind].
  rewrite (getitem_int_remap lookup (span.2 - 1)) by lia. done.
Qed.

Lemma remap_groups (lookup : list Z) (ms : list re_match) :
  Forall (fun m => Forall (indexes lookup) (group_spans m)) ms ->
  generate
    (fun '(match_, g) =>
       start ← match_start match_ g;
       first ← Np.getitem_int lookup start;
       end_ ← match_end match_ g;
       last ← Np.getitem_int lookup (end_ - 1);
       Ok (Py.Slice (Some first) (Some (last + 1)) None))
    (match_ ← ms;
     g ← Py.range_items 1 1 (length (group_spans match_));
     [(match_, g)])
  = Generated (m ← ms; remapped_slice lookup <$> group_spans m) None.
Proof.
  intros Hms.
  set (h := fun mg : re_match * Z =>
         remapped_slice lookup
           (default (0, 0) (group_spans mg.1 !! Z.to_nat (mg.2 - 1)))).
  rewrite (generate_all _ h).
  - f_equal. induction ms as [|m ms IH]; [done|].
    apply Forall_cons in Hms as [_ Hms].
    rewrite !bind_cons, fmap_app, IH by done. f_equal.
    rewrite list_bind_pair, <- list_fmap_compose.
    exact (fmap_group_numbers
             (fun o => remapped_slice lookup (default (0, 0) o))
             (group_spans m)).
  - apply Forall_forall. intros [m g] Hin.
    apply list_elem_of_bind in Hin as (m' & Hin & Hm').
    rewrite list_bind_pair in Hin.
    apply list_elem_of_fmap in Hin as (g' & [= <- <-] & Hg).
    unfold Py.range_items in Hg.
    apply list_elem_of_fmap in Hg as (j & -> & Hj).
    apply elem_of_seq in Hj as [_ Hj].
    destruct (group_spans m !! j) as [span|] eqn:Hspan;
      [|apply lookup_ge_None in Hspan; lia].
    assert (Hidx : indexes lookup span).
    { apply (Forall_forall _ ms) with (x := m) in Hms; [|done].
      by apply (Forall_lookup_1 _ _ j span) in Hms. }
    rewrite (remap_group lookup m j span) by done.
    unfold h. cbn [fst snd].
    replace (Z.to_nat (1 + Z.of_nat j * 1 - 1)) with j by lia.
    by rewrite Hspan.
Qed.
End slices_from_regex_properties.

(** C2. The code fails the claim at a capturing group that is empty
    at the end of the included text: for [A(X?)] on the sequence [A]
    with nothing excluded, group 1 has the local span [(1, 1)], whose
    start is no position of [lookup]; the generator raises the
    out-of-bounds error and yields no slice for the group.  One
    position before the end the same empty group is emitted, as the
    empty slice [[1, 1)], like every other group. *)
Theorem slices_from_regex_empty_group_raises :
  slices_from_regex string Ok empty_group_finditer A_only
    (RegexText "A(X?)") (Some [false])
  = Generated [] (Some (IndexError "index out of bounds"))
  ∧ slices_from_regex string Ok empty_group_finditer AC
      (RegexText "A(X?)") (Some [false; false])
    = Generated [Py.Slice (Some 1) (Some 1) None] None.
Proof. split; vm_compute; reflexivity. Qed.

(* ----------------------------------------------------------------- *)
(** ** The examples of the docstrings *)

Example getitem_doc_slice :
  (s ← Sequence_of_text "GGUCGUGAAGGA";
   __getitem__ s (ISlice (Py.Slice (Some 7) None None)))
  = Sequence_of_text "AAGGA".
Proof. vm_compute. reflexivity. Qed.

Example getitem_doc_list :
  (s ← Sequence_of_text "GGUCGUGAAGGA";
   __getitem__ s (IIterable [EInt 3; EInt 4; EInt 7; EInt 0; EInt 3]))
  = Sequence_of_text "CGAGC".
Proof. vm_compute. reflexivity. Qed.

Example getitem_doc_mask :
  (s ← Sequence_of_text "GGUCG";
   __getitem__ s (IIterable [EBool true; EBool false; EBool true; EBool true; EBool false]))
  = Sequence_of_text "GUC".
Proof. vm_compute. reflexivity. Qed.

Example getitem_mixed :
  (s ← Sequence_of_text "GGUCGUGAAGGA";
   __getitem__ s (IIterable [ESlice (Py.Slice (Some 0) (Some 2) None); EInt (-1); EInt 3]))
  = Sequence_of_text "GGAC".
Proof. vm_compute. reflexivity. Qed.


Example kmers_doc_non_overlapping :
  texts (kmers ACACGACGTT 4 false) = Ok ["ACAC"; "GACG"].
Proof. vm_compute. reflexivity. Qed.

Example kmers_doc_overlapping :
  texts (kmers ACACGACGTT 3 true)
  = Ok ["ACA"; "CAC"; "ACG"; "CGA"; "GAC"; "ACG"; "CGT"; "GTT"].
Proof. vm_compute. reflexivity. Qed.

Example kmer_frequencies_doc :
  (f ← kmer_frequencies ACACATTTATTA 3 false false;
   Ok (frequencies_get f "TTA", frequencies_get f "ACA",
       frequencies_get f "CAT", frequencies_size f))
  = Ok (inject_Z 2, inject_Z 1, inject_Z 1, 3%nat).
Proof. vm_compute. reflexivity. Qed.

Example kmer_frequencies_doc_relative :
  (f ← kmer_frequencies ACACATTTATTA 3 false true;
   Ok (frequencies_get f "TTA", frequencies_get f "ACA",
       frequencies_get f "CAT", frequencies_size f))
  = Ok ((2 # 4)%Q, (1 # 4)%Q, (1 # 4)%Q, 3%nat).
Proof. vm_compute. reflexivity. Qed.

Example count_doc :
  count GGUCG (FromRaw (FromText "G")) None None = Ok 3
  ∧ count GGUCG (FromRaw (FromText "GG")) None None = Ok 1
  ∧ count GGUCG (FromRaw (FromText "T")) None None = Ok 0.
Proof. vm_compute. repeat split; reflexivity. Qed.

Example index_doc :
  (s ← Sequence_of_text "ACACGACGTT-";
   index s (FromRaw (FromText "ACG")) None None) = Ok 2.
Proof. vm_compute. reflexivity. Qed.

(* ================================================================= *)
(** * Further properties *)

(** ** Construction *)




Lemma _to_fields (self s' : Sequence) (r : raw_arg)
    (q : option quality_arg) :
  _to self (Some (FromRaw r)) None None (Some q) = Ok s' ->
  valid s' ∧ __class__ s' = __class__ self ∧ _id s' = _id self
  ∧ _description s' = _description self
  ∧ (_quality s' = None <-> q = None).
Proof.
  intros H. split; [by apply __init___valid in H|].
  unfold _to, __init__ in H.
  cbn [default from_option id _set_id _set_description mbind result_bind] in H.
  destruct (_set_sequence r) as [b|]; [|done].
  cbn [mbind result_bind] in H.
  destruct (_set_quality (Z.of_nat (length b)) q) as [q'|] eqn:Eq; [|done].
  cbn [mbind result_bind] in H. injection H as <-. cbn.
  repeat split; try done.
  - intros ->. apply _set_quality_Ok in Eq. done.
  - intros ->. cbn in Eq. by injection Eq as <-.
Qed.

Ltac invert_bind H :=
  repeat match type of H with
  | (match ?x with _ => _ end) = Ok _ => destruct x eqn:?; try discriminate H
  | (?m ≫= _) = Ok _ =>
      let a := fresh "a" in
      let Ha := fresh "Ha" in
      apply bind_Ok in H as (a & Ha & H)
  | (_ <$> ?m) = Ok _ => destruct m eqn:?; try discriminate H
  | (if ?c then _ else _) = Ok _ => destruct c eqn:?; try discriminate H
  end.

(** X2. Whatever index is used, a sequence returned by indexing
    satisfies the class invariant (as many quality scores as symbols,
    none negative), has the class, id and description of the source,
    and has quality scores exactly when the source has. *)
Theorem getitem_keeps_invariant (self s' : Sequence)
    (indexable : index_value) :
  __getitem__ self indexable = Ok s' ->
  valid s' ∧ __class__ s' = __class__ self ∧ _id s' = _id self
  ∧ _description s' = _description self
  ∧ (_quality s' = None <-> _quality self = None).
Proof.
  intros H. unfold __getitem__ in H.
  assert (Hgoal : forall r q,
    _to self (Some (FromRaw r)) None None (Some q) = Ok s' ->
    (q = None <-> _quality self = None) ->
    valid s' ∧ __class__ s' = __class__ self ∧ _id s' = _id self
    ∧ _description s' = _description self
    ∧ (_quality s' = None <-> _quality self = None)).
  { intros r q Hto Hq. apply _to_fields in Hto as (? & ? & ? & ? & Hn).
    repeat split; try done; tauto. }
  destruct indexable as [t|b|i|sl|a|items]; try discriminate H.
  all: invert_bind H.
  all: try (eapply Hgoal; [exact H|]).
  all: try (destruct (_quality self); simplify_eq; cbn; split; congruence).
  all: try match goal with
       | Hq : match _quality ?s with _ => _ end = Ok _ |- _ =>
           destruct (_quality s); [|by injection Hq as <-];
           match type of Hq with
           | (_ <$> ?m) = _ =>
               destruct m as [[?|?]|]; [| |discriminate Hq];
               injection Hq as <-; split; discriminate
           end
       end.
  destruct (_quality self) as [quality|]; [|by injection Ha0 as <-].
  apply bind_Ok in Ha0 as (arrays & _ & Ha0).
  destruct (Np.concatenate arrays); [|discriminate Ha0].
  injection Ha0 as <-. split; discriminate.
Qed.

Lemma getitem_keeps_invariant_witness :
  valid AC_seq1 ∧ __class__ AC_seq1 = __class__ AACGA_seq1
  ∧ _id AC_seq1 = _id AACGA_seq1
  ∧ _description AC_seq1 = _description AACGA_seq1
  ∧ (_quality AC_seq1 = None <-> _quality AACGA_seq1 = None).
Proof.
  exact (getitem_keeps_invariant AACGA_seq1 AC_seq1
           (ISlice (Py.Slice (Some 1) (Some 3) None)) eq_refl).
Defined.

Lemma _set_quality_own (s : Sequence) :
  valid s ->
  _set_quality (Z.of_nat (length (_bytes s))) (QArray <$> _quality s)
  = Ok (_quality s).
Proof.
  unfold valid. destruct (_quality s) as [q|]; [|done].
  intros [Hl Hq]. cbn [fmap option_fmap option_map].
  rewrite <- Hl. by apply _set_quality_array.
Qed.

(** X3. Constructing from another sequence with the other arguments
    left at their defaults copies its symbols, id, description and
    quality into the new class, so the copy of a sequence in its own
    class equals it; a non-empty id given to the constructor replaces
    the inherited one, but the empty id cannot be given: it is the
    default and the id of the source is kept. *)
Theorem init_from_sequence_inherits (cls : pyclass) (s : Sequence) :
  valid s ->
  __init__ cls (FromSequence s) (Str EmptyString) (Str EmptyString) None
    = Ok (with_class s cls)
  ∧ equals (with_class s (__class__ s)) s None = true
  ∧ (forall id : string,
       __init__ cls (FromSequence s) (Str id) (Str EmptyString) None
       = Ok (with_id (with_class s cls)
               (if decide (id = EmptyString) then _id s else id))).
Proof.
  intros Hv.
  assert (Hinit : forall id : string,
    __init__ cls (FromSequence s) (Str id) (Str EmptyString) None
    = Ok (with_id (with_class s cls)
            (if decide (id = EmptyString) then _id s else id))).
  { intros id. unfold __init__.
    assert (Hid : match id with
                  | EmptyString => Str (_id s)
                  | String _ _ => Str id
                  end
                  = Str (if decide (id = EmptyString) then _id s else id)).
    { by destruct id. }
    rewrite Hid.
    cbn [_set_id _set_description _set_sequence mbind result_bind].
    rewrite _set_quality_own by done. done. }
  split; [|split; [|done]].
  - rewrite Hinit. by destruct s.
  - apply equals_checks. repeat split; by right.
Qed.

Lemma init_from_sequence_inherits_witness :
  __init__ "DNA" (FromSequence AACGA_seq1) (Str EmptyString)
    (Str EmptyString) None
  = Ok (with_class AACGA_seq1 "DNA").
Proof.
  assert (Hv : valid AACGA_seq1).
  { split; [reflexivity|]. repeat constructor; lia. }
  exact (proj1 (init_from_sequence_inherits "DNA" AACGA_seq1 Hv)).
Defined.

(** X4. [_to] without keywords returns a sequence equal to the
    receiver, field by field; with [id] alone it changes the id only,
    and here the empty id is taken as given. *)
Theorem _to_copies (self : Sequence) :
  valid self ->
  _to self None None None None = Ok self
  ∧ (forall id : string,
       _to self None (Some (Str id)) None None = Ok (with_id self id)).
Proof.
  intros Hv. unfold _to, __init__.
  cbn [default from_option id _set_id _set_description _set_sequence
       mbind result_bind].
  rewrite _set_quality_own by done. cbn [mbind result_bind].
  split; [by destruct self | done].
Qed.

Lemma _to_copies_witness :
  _to AACGA_seq1 None (Some (Str EmptyString)) None None
  = Ok (with_id AACGA_seq1 EmptyString).
Proof.
  assert (Hv : valid AACGA_seq1).
  { split; [reflexivity|]. repeat constructor; lia. }
  exact (proj2 (_to_copies AACGA_seq1 Hv) EmptyString).
Defined.

(* ----------------------------------------------------------------- *)
(** ** Indexing with a mask, an integer, the empty list and a slice *)

Lemma existsb_bools (P : index_elem -> bool) (m : list bool) :
  (forall b, P (EBool b) = false) -> existsb P (EBool <$> m) = false.
Proof.
  intros HP. induction m as [|b m IH]; [done|].
  cbn [fmap list_fmap existsb]. by rewrite HP, IH.
Qed.

Lemma asarray_bools (m : list bool) :
  m ≠ [] -> asarray (EBool <$> m) = BoolArray m.
Proof.
  intros Hm. unfold asarray, asarray_dtype.
  rewrite !existsb_bools by (intros; reflexivity).
  destruct m as [|b m']; [by destruct Hm|].
  change (EBool b :: (EBool <$> m')) with (EBool <$> b :: m').
  cbn [fmap list_fmap]. change (EBool b :: (EBool <$> m'))
    with (EBool <$> b :: m').
  f_equal. clear. generalize (b :: m'). intros l.
  induction l as [|x l IH]; [done|]. cbn. by rewrite IH.
Qed.

Lemma compress_sum {A} (m : list bool) (a : list A) :
  length m = length a ->
  Z.of_nat (length (Np.compress m a)) = Np.sum_bool m.
Proof.
  revert a. induction m as [|b m IH]; intros [|x a] Hl; try done.
  injection Hl as Hl. cbn [Np.compress Np.sum_bool foldr].
  fold (Np.sum_bool m). rewrite <- (IH a Hl).
  destruct b; cbn [length]; lia.
Qed.

(** X5. A boolean array index must be as long as the sequence, else
    indexing raises the mask-length error (the empty array too, on a
    non-empty sequence); otherwise the symbols, and the quality scores
    in step, at the true positions are kept, as many as the mask has
    true entries.  A non-empty list of booleans is the same index. *)
Theorem getitem_boolean_mask (self : Sequence) (m : list bool) :
  valid self ->
  __getitem__ self (IArray (BoolArray m))
  = (if decide (length m = length (_bytes self))
     then Ok (with_data self (Np.compress m (_bytes self))
                (Np.compress m <$> _quality self))
     else Raise MaskLengthError)
  ∧ (length m = length (_bytes self) ->
     Z.of_nat (length (Np.compress m (_bytes self))) = Np.sum_bool m)
  ∧ (m ≠ [] ->
     __getitem__ self (IIterable (EBool <$> m))
     = __getitem__ self (IArray (BoolArray m))).
Proof.
  intros Hv. split; [|split].
  - case_decide as Hl; [by apply getitem_mask|].
    unfold __getitem__, __len__.
    by rewrite (proj2 (Z.eqb_neq _ _)) by lia.
  - apply compress_sum.
  - intros Hm. unfold __getitem__ at 1. rewrite asarray_bools by done.
    done.
Qed.

Lemma getitem_boolean_mask_witness :
  __getitem__ AACGA_seq1
    (IArray (BoolArray [true; false; true; false; false]))
  = Ok (with_data AACGA_seq1 (list_byte_of_string "AC") (Some [1; 3])).
Proof.
  assert (Hv : valid AACGA_seq1).
  { split; [reflexivity|]. repeat constructor; lia. }
  destruct (getitem_boolean_mask AACGA_seq1
              [true; false; true; false; false] Hv) as [H _].
  rewrite H. reflexivity.
Defined.

Lemma lookup_window_one {A} (a : list A) (j : nat) (x : A) :
  a !! j = Some x -> take 1 (drop j a) = [x].
Proof.
  intros Hx. apply list_eq. intros [|i].
  - rewrite lookup_take_lt by lia. rewrite lookup_drop.
    by rewrite Nat.add_0_r.
  - rewrite lookup_take_ge by lia. done.
Qed.

Lemma getitem_int_position {A} (a : list A) (i : Z) :
  - Z.of_nat (length a) <= i < Z.of_nat (length a) ->
  exists x, a !! Z.to_nat (i mod Z.of_nat (length a)) = Some x
            ∧ Np.getitem_int a i = Ok x.
Proof.
  intros Hi. unfold Np.getitem_int. set (n := Z.of_nat (length a)) in *.
  assert (Hmod : i mod n = if i <? 0 then i + n else i).
  { destruct (Z.ltb_spec i 0).
    - rewrite <- (Z.mod_add i 1 n) by lia. rewrite Z.mod_small; lia.
    - rewrite Z.mod_small; lia. }
  rewrite <- Hmod.
  assert (0 <= i mod n < n) by (rewrite Hmod; destruct (i <? 0) eqn:E; lia).
  rewrite (proj2 (Z.ltb_ge _ _)), (proj2 (Z.leb_gt _ _)) by lia.
  cbn [orb].
  destruct (a !! Z.to_nat (i mod n)) as [x|] eqn:E; [by exists x|].
  apply lookup_ge_None in E. lia.
Qed.

Lemma getitem_int_outside {A} (a : list A) (i : Z) :
  i < - Z.of_nat (length a) ∨ Z.of_nat (length a) <= i ->
  Np.getitem_int a i = Raise OutOfBoundsError.
Proof.
  intros Hi. unfold Np.getitem_int.
  destruct (Z.ltb_spec i 0).
  - by rewrite (proj2 (Z.ltb_lt _ _)) by lia.
  - rewrite (proj2 (Z.ltb_ge _ _)), (proj2 (Z.leb_le _ _)) by lia. done.
Qed.

(** An integer index inside the sequence. *)
Lemma getitem_int_window (self : Sequence) (i : Z) :
  valid self -> - __len__ self <= i < __len__ self ->
  __getitem__ self (IInt i)
  = Ok (window_at self (Z.to_nat (i mod __len__ self)) 1).
Proof.
  intros Hv Hi. unfold __getitem__, native_getitem, __len__ in *.
  cbn [mbind result_bind].
  destruct (getitem_int_position (_bytes self) i Hi) as (x & Hx & Hgx).
  rewrite Hgx. cbn [fmap result_fmap mbind result_bind].
  unfold valid in Hv. unfold window_at.
  destruct (_quality self) as [q|] eqn:Eq.
  - destruct Hv as [Hl Hq].
    destruct (getitem_int_position q i) as (y & Hy & Hgy); [lia|].
    rewrite Hgy. cbn [fmap result_fmap mbind result_bind].
    cbn [fmap option_fmap option_map].
    rewrite Hl in Hy.
    rewrite (lookup_window_one _ _ _ Hx), (lookup_window_one _ _ _ Hy).
    unfold _to, __init__.
    cbn [default from_option id _set_id _set_description _set_sequence
         mbind result_bind].
    rewrite decide_False by (cbn; lia). cbn [mbind result_bind].
    assert (Hy0 : 0 <= y) by (by apply (Forall_lookup_1 _ _ _ _ Hq Hy)).
    unfold _set_quality. cbn [length existsb negb orb].
    replace (Z.of_nat 1 =? Z.of_nat 1) with true by done. cbn [negb].
    rewrite (proj2 (Z.ltb_ge y 0)) by lia. done.
  - cbn [mbind result_bind fmap option_fmap option_map].
    rewrite (lookup_window_one _ _ _ Hx).
    unfold _to, __init__.
    cbn [default from_option id _set_id _set_description _set_sequence
         mbind result_bind].
    rewrite decide_False by (cbn; lia). done.
Qed.

(** X6. An integer index [i] with [-N <= i < N] selects the one
    position [i mod N], with its quality score, and for [0 <= i] it is
    the same as the slice [[i, i+1)]; any other integer raises the
    out-of-bounds error. *)
Theorem getitem_integer (self : Sequence) (i : Z) :
  valid self ->
  (- __len__ self <= i < __len__ self ->
   __getitem__ self (IInt i)
   = Ok (window_at self (Z.to_nat (i mod __len__ self)) 1))
  ∧ (0 <= i < __len__ self ->
     __getitem__ self (IInt i)
     = __getitem__ self (ISlice (Py.Slice (Some i) (Some (i + 1)) None)))
  ∧ (i < - __len__ self ∨ __len__ self <= i ->
     __getitem__ self (IInt i) = Raise OutOfBoundsError).
Proof.
  intros Hv.
  pose proof (getitem_int_window self i Hv) as Hin.
  split; [done|]. split.
  - intros Hi. rewrite Hin by lia.
    rewrite getitem_window by (try done; lia).
    rewrite Z.mod_small by lia. done.
  - intros Hi. unfold __getitem__, native_getitem, __len__ in *.
    cbn [mbind result_bind].
    by rewrite getitem_int_outside.
Qed.

Lemma getitem_integer_witness :
  __getitem__ AACGA_seq1 (IInt (-2))
  = Ok (with_data AACGA_seq1 (list_byte_of_string "G") (Some [3])).
Proof.
  assert (Hv : valid AACGA_seq1).
  { split; [reflexivity|]. repeat constructor; lia. }
  destruct (getitem_integer AACGA_seq1 (-2) Hv) as [H _].
  rewrite H by (vm_compute; split; [intros ?; discriminate | reflexivity]).
  reflexivity.
Defined.

(** X7. Indexing with the empty list (or any empty array that is not
    a boolean array) returns the sequence without symbols that keeps
    the class, id and description, and has the empty quality vector
    when the source has quality scores. *)
Theorem getitem_empty_list (self : Sequence) :
  __getitem__ self (IIterable [])
  = Ok (with_data self [] ((fun _ => []) <$> _quality self))
  ∧ __getitem__ self (IArray (IntArray []))
    = Ok (with_data self [] ((fun _ => []) <$> _quality self)).
Proof.
  unfold __getitem__. cbn.
  destruct (_quality self) as [q|]; cbn; done.
Qed.


Lemma omap_Forall2 {A B} (f : A -> option B) (l : list A) (l' : list B) :
  Forall2 (fun i x => f i = Some x) l l' -> omap f l = l'.
Proof.
  induction 1 as [|i x l l' Hi _ IH]; [done|].
  cbn [omap list_omap]. by rewrite Hi, IH.
Qed.

Lemma strided_reverse {A} (a : list A) :
  Np.strided a (Z.of_nat (length a) - 1) (-1) (length a) = reverse a.
Proof.
  unfold Np.strided. apply omap_Forall2.
  apply Forall2_same_length_lookup_2.
  - unfold Py.range_items.
    by rewrite length_fmap, length_seq, length_reverse.
  - intros j i x Hi Hx. unfold Py.range_items in Hi.
    apply list_lookup_fmap_Some in Hi as (j' & -> & Hj').
    apply lookup_seq in Hj' as [-> Hj]. cbn [Nat.add].
    rewrite reverse_lookup in Hx by done. rewrite <- Hx.
    f_equal. lia.
Qed.

Lemma selected_reverse {A} (a : list A) :
  selected a (Py.Slice None None (Some (-1))) = reverse a.
Proof.
  unfold selected, Np.getitem_slice, Py.slice_indices.
  cbn [Py.start Py.stop Py.step from_option id Z.eqb Z.ltb Z.compare
       mbind result_bind].
  assert (Hlen : Py.range_length (Z.of_nat (length a) - 1) (-1) (-1)
                 = Z.of_nat (length a)).
  { unfold Py.range_length. cbn [Z.ltb Z.compare Z.opp].
    destruct (Z.ltb_spec (-1) (Z.of_nat (length a) - 1)).
    - rewrite Z.div_1_r. lia.
    - lia. }
  rewrite Hlen, Nat2Z.id. apply strided_reverse.
Qed.

Lemma selected_unit_step {A} (a : list A) (b e : option Z) :
  selected a (Py.Slice b e None)
  = Py.window a
      (from_option (Py.clamp (Z.of_nat (length a)) 1 0 (Z.of_nat (length a)))
                   0 b)
      (from_option (Py.clamp (Z.of_nat (length a)) 1 0 (Z.of_nat (length a)))
                   (Z.of_nat (length a)) e).
Proof.
  unfold selected, Np.getitem_slice, Py.slice_indices.
  cbn [Py.start Py.stop Py.step from_option Z.eqb Z.ltb Z.compare
       mbind result_bind].
  set (n := Z.of_nat (length a)).
  set (b' := match b with Some v => Py.clamp n 1 0 n v | None => 0 end).
  set (e' := match e with Some v => Py.clamp n 1 0 n v | None => n end).
  assert (Hb : 0 <= b' <= n).
  { unfold b', Py.clamp. destruct b as [v|]; [|lia].
    destruct (Z.ltb_spec v 0); lia. }
  assert (He : 0 <= e' <= n).
  { unfold e', Py.clamp. destruct e as [v|]; [|lia].
    destruct (Z.ltb_spec v 0); lia. }
  change (from_option (Py.clamp n 1 0 n) 0 b) with b'.
  change (from_option (Py.clamp n 1 0 n) n e) with e'.
  unfold Py.window.
  assert (Hlen : Z.to_nat (Py.range_length b' e' 1) = Z.to_nat (e' - b')).
  { unfold Py.range_length. cbn [Z.ltb Z.compare].
    destruct (Z.ltb_spec b' e'); [rewrite Z.div_1_r|]; lia. }
  rewrite Hlen. apply strided_unit; lia.
Qed.

(** Indexing a valid sequence with a slice of non-zero step. *)
Lemma getitem_slice_sequence (self : Sequence) (sl : Py.slice) :
  valid self -> Py.step sl ≠ Some 0 ->
  __getitem__ self (ISlice sl)
  = Ok (with_data self (selected (_bytes self) sl)
          ((fun q => selected q sl) <$> _quality self)).
Proof.
  intros Hv Hst. unfold __getitem__, native_getitem.
  cbn [mbind result_bind].
  rewrite getitem_slice_selected by done.
  cbn [fmap result_fmap mbind result_bind].
  unfold valid in Hv.
  destruct (_quality self) as [q|] eqn:Eq.
  - destruct Hv as [Hl Hq].
    rewrite getitem_slice_selected by done.
    cbn [fmap result_fmap mbind result_bind option_fmap option_map].
    apply (_to_with_data self _ (Some _)). split.
    + by apply selected_length.
    + by apply selected_Forall.
  - cbn [mbind result_bind]. by apply (_to_with_data self _ None).
Qed.

(** X8. Slicing with step [-1] and no bounds reverses the symbols and
    the quality scores.  For every integer [i], the slices [[:i]] and
    [[i:]] cut the sequence at one position [c] (the bound [i] clamped
    into [0, N], counted from the end when negative): they are the
    first [c] and the remaining positions, so their symbols, and their
    quality scores, put together are those of the sequence. *)
Theorem getitem_slice_reverse_and_cut (self : Sequence) (i : Z) :
  valid self ->
  __getitem__ self (ISlice (Py.Slice None None (Some (-1))))
  = Ok (with_data self (reverse (_bytes self)) (reverse <$> _quality self))
  ∧ exists c : nat,
      Z.of_nat c = (if i <? 0 then Z.max (i + __len__ self) 0
                    else Z.min i (__len__ self))
      ∧ __getitem__ self (ISlice (Py.Slice None (Some i) None))
        = Ok (with_data self (take c (_bytes self))
                (take c <$> _quality self))
      ∧ __getitem__ self (ISlice (Py.Slice (Some i) None None))
        = Ok (with_data self (drop c (_bytes self))
                (drop c <$> _quality self))
      ∧ take c (_bytes self) ++ drop c (_bytes self) = _bytes self.
Proof.
  intros Hv. split.
  - rewrite getitem_slice_sequence by done.
    rewrite selected_reverse. do 2 f_equal.
    destruct (_quality self) as [q|]; [|done].
    cbn [fmap option_fmap option_map]. by rewrite selected_reverse.
  - set (n := __len__ self).
    set (c := if i <? 0 then Z.max (i + n) 0 else Z.min i n).
    assert (Hc : 0 <= c <= n).
    { unfold c, n, __len__. destruct (Z.ltb_spec i 0); lia. }
    exists (Z.to_nat c). split; [lia|].
    rewrite !getitem_slice_sequence by done.
    assert (Htake : forall {A} (a : list A), Z.of_nat (length a) = n ->
      selected a (Py.Slice None (Some i) None) = take (Z.to_nat c) a).
    { intros A a Ha. rewrite selected_unit_step. cbn [from_option].
      unfold Py.window, Py.clamp. rewrite Ha. fold c.
      by rewrite Z.sub_0_r. }
    assert (Hdrop : forall {A} (a : list A), Z.of_nat (length a) = n ->
      selected a (Py.Slice (Some i) None None) = drop (Z.to_nat c) a).
    { intros A a Ha. rewrite selected_unit_step. cbn [from_option].
      unfold Py.window, Py.clamp. rewrite Ha. fold c.
      apply take_ge. rewrite length_drop. lia. }
    unfold valid in Hv.
    rewrite Htake, Hdrop by done.
    split; [|split; [|apply take_drop]].
    + do 2 f_equal. destruct (_quality self) as [q|]; [|done].
      cbn [fmap option_fmap option_map]. f_equal. apply Htake. unfold n, __len__. destruct Hv. lia.
    + do 2 f_equal. destruct (_quality self) as [q|]; [|done].
      cbn [fmap option_fmap option_map]. f_equal. apply Hdrop. unfold n, __len__. destruct Hv. lia.
Qed.

Lemma getitem_slice_reverse_and_cut_witness :
  __getitem__ AACGA_seq1 (ISlice (Py.Slice None None (Some (-1))))
  = Ok (with_data AACGA_seq1 (list_byte_of_string "AGCAA")
          (Some [2; 3; 3; 5; 1])).
Proof.
  assert (Hv : valid AACGA_seq1).
  { split; [reflexivity|]. repeat constructor; lia. }
  exact (proj1 (getitem_slice_reverse_and_cut AACGA_seq1 0 Hv)).
Defined.

(* ----------------------------------------------------------------- *)
(** ** Iteration *)

Lemma traverse_Forall2 {A B} (f : A -> result B) (l : list A) (l' : list B) :
  Forall2 (fun x y => f x = Ok y) l l' -> traverse f l = Ok l'.
Proof.
  induction 1 as [|x y l l' Hx _ IH]; [done|].
  by rewrite (traverse_cons_Ok f x l y Hx), IH.
Qed.

Lemma length_zip_longest {A B} (a : list A) (b : list B) :
  length (zip_longest a b) = max (length a) (length b).
Proof.
  revert b. induction a as [|x a IH]; intros b.
  - cbn. by rewrite length_fmap.
  - destruct b as [|y b]; cbn [zip_longest length]; rewrite IH;
      cbn [length]; lia.
Qed.

Lemma lookup_zip_longest {A B} (a : list A) (b : list B) (j : nat) :
  (j < max (length a) (length b))%nat ->
  zip_longest a b !! j = Some (a !! j, b !! j).
Proof.
  revert b j. induction a as [|x a IH]; intros b j Hj.
  - cbn in *. rewrite list_lookup_fmap.
    destruct (b !! j) eqn:E; [done|]. apply lookup_ge_None in E. lia.
  - destruct b as [|y b], j as [|j]; cbn in *; try done.
    + rewrite IH by (cbn; lia). by destruct j.
    + apply IH. lia.
Qed.

(** The body of the loop of [__iter__] at position [j]. *)
Lemma iter_body_window (self : Sequence) (j : nat) (c : byte) :
  valid self -> _bytes self !! j = Some c -> c ≠ x00 ->
  _to self (Some (FromRaw (FromScalar (S1_scalar c)))) None None
    (Some (QItem <$> (default [] (_quality self) !! j)))
  = Ok (window_at self j 1).
Proof.
  intros Hv Hc Hnul. unfold S1_scalar. rewrite bool_decide_eq_false_2 by done.
  unfold window_at. rewrite (lookup_window_one _ _ _ Hc).
  unfold _to, __init__.
  cbn [default from_option id _set_id _set_description _set_sequence
       mbind result_bind].
  rewrite decide_False by (cbn; lia). cbn [mbind result_bind].
  unfold valid in Hv.
  destruct (_quality self) as [q|];
    cbn [from_option id fmap option_fmap option_map].
  - destruct Hv as [Hl Hq].
    destruct (q !! j) as [y|] eqn:Hy.
    + rewrite (lookup_window_one _ _ _ Hy).
      cbn [fmap option_fmap option_map].
      assert (Hy0 : 0 <= y) by (by apply (Forall_lookup_1 _ _ _ _ Hq Hy)).
      unfold _set_quality. cbn [length existsb negb orb].
      replace (Z.of_nat 1 =? Z.of_nat 1) with true by done. cbn [negb].
      rewrite (proj2 (Z.ltb_ge y 0)) by lia. done.
    + apply lookup_ge_None in Hy. apply lookup_lt_Some in Hc. lia.
  - done.
Qed.

Lemma iter_windows (self : Sequence) :
  valid self -> no_NUL self ->
  __iter__ self
  = Ok ((fun j => window_at self j 1) <$> seq 0 (length (_bytes self))).
Proof.
  intros Hv Hnul. unfold __iter__, sequence, _has_quality.
  set (qual := if match _quality self with Some _ => true | None => false end
               then default [] (_quality self) else []).
  assert (Hqual : qual = default [] (_quality self)).
  { unfold qual. by destruct (_quality self). }
  assert (Hlen : (length qual <= length (_bytes self))%nat).
  { rewrite Hqual. unfold valid in Hv.
    destruct (_quality self) as [q|]; [destruct Hv; cbn; lia | cbn; lia]. }
  apply traverse_Forall2, Forall2_same_length_lookup_2.
  - rewrite length_zip_longest, length_fmap, length_seq. lia.
  - intros j [c q] w Hj Hw.
    apply list_lookup_fmap_Some in Hw as (j' & -> & Hj').
    apply lookup_seq in Hj' as [-> Hlt]. cbn [Nat.add].
    rewrite lookup_zip_longest in Hj by lia. injection Hj as <- <-.
    destruct (_bytes self !! j) as [c|] eqn:Hc;
      [|apply lookup_ge_None in Hc; lia].
    rewrite Hqual. apply iter_body_window; [done..|].
    intros ->. apply Hnul. by eapply list_elem_of_lookup_2.
Qed.

(** X9. Iterating over a valid sequence without zero bytes yields one
    sequence per position, in order: the one of position [j] is the
    result of indexing with the integer [j], a sequence of one symbol
    with its quality score and the class, id and description of the
    source. *)
Theorem iter_yields_positions (self : Sequence) :
  valid self -> no_NUL self ->
  exists items : list Sequence,
    __iter__ self = Ok items
    ∧ length items = length (_bytes self)
    ∧ forall (j : nat) (w : Sequence), items !! j = Some w ->
        __getitem__ self (IInt (Z.of_nat j)) = Ok w
        ∧ w = with_data self (take 1 (drop j (_bytes self)))
                ((fun q => take 1 (drop j q)) <$> _quality self)
        ∧ length (_bytes w) = 1%nat.
Proof.
  intros Hv Hnul. eexists. split; [by apply iter_windows|].
  split; [by rewrite length_fmap, length_seq|].
  intros j w Hw. apply list_lookup_fmap_Some in Hw as (j' & -> & Hj').
  apply lookup_seq in Hj' as [-> Hlt]. cbn [Nat.add].
  split; [|split; [done|]].
  - rewrite getitem_int_window by (try done; unfold __len__; lia).
    rewrite Z.mod_small by (unfold __len__; lia). by rewrite Nat2Z.id.
  - unfold window_at, with_data. cbn [_bytes].
    rewrite length_take, length_drop. lia.
Qed.

Lemma iter_yields_positions_witness :
  __iter__ GGUC
  = Ok [plain "Sequence" (list_byte_of_string "G");
        plain "Sequence" (list_byte_of_string "G");
        plain "Sequence" (list_byte_of_string "U");
        plain "Sequence" (list_byte_of_string "C")].
Proof.
  assert (Hnul : no_NUL GGUC).
  { unfold no_NUL. cbn. intros H.
    repeat (apply elem_of_cons in H as [H|H]; [discriminate H|]).
    by apply elem_of_nil in H. }
  destruct (iter_yields_positions GGUC I Hnul) as (items & Hi & _).
  rewrite Hi. revert Hi. vm_compute. by intros [= <-].
Defined.

(** X10. Reverse iteration yields the sequences of forward iteration
    in the opposite order. *)
Theorem reversed_is_reverse_of_iter (self : Sequence) :
  valid self -> no_NUL self ->
  exists items : list Sequence,
    __iter__ self = Ok items ∧ __reversed__ self = Ok (reverse items).
Proof.
  intros Hv Hnul. eexists. split; [by apply iter_windows|].
  unfold __reversed__. rewrite getitem_slice_sequence by done.
  rewrite selected_reverse. cbn [mbind result_bind].
  set (r := with_data self (reverse (_bytes self))
              ((fun q => selected q (Py.Slice None None (Some (-1))))
                 <$> _quality self)).
  assert (Hq : _quality r = reverse <$> _quality self).
  { unfold r. cbn [_quality with_data].
    destruct (_quality self); [|done].
    cbn [fmap option_fmap option_map]. by rewrite selected_reverse. }
  assert (Hvr : valid r).
  { unfold valid in *. rewrite Hq. unfold r. cbn [_bytes with_data].
    destruct (_quality self) as [q|]; [|done]. cbn. destruct Hv as [Hl Hnn].
    split; [by rewrite !length_reverse|]. by apply Forall_reverse. }
  assert (Hnr : no_NUL r).
  { unfold no_NUL, r. cbn. by rewrite elem_of_reverse. }
  rewrite iter_windows by done. f_equal.
  assert (Hbr : _bytes r = reverse (_bytes self)) by done.
  assert (Hwin : forall j, (j < length (_bytes self))%nat ->
    window_at r j 1 = window_at self (length (_bytes self) - S j) 1).
  { intros j Hj. unfold window_at. rewrite Hq, Hbr.
    change (with_data r) with (with_data self).
    destruct (_bytes self !! (length (_bytes self) - S j)%nat) as [c|] eqn:Hc;
      [|apply lookup_ge_None in Hc; lia].
    rewrite (lookup_window_one (_bytes self) _ _ Hc).
    rewrite (lookup_window_one (reverse (_bytes self)) j c)
      by (by rewrite reverse_lookup).
    f_equal.
    unfold valid in Hv. destruct (_quality self) as [q|]; [|done].
    destruct Hv as [Hl _]. cbn [fmap option_fmap option_map]. f_equal.
    destruct (q !! (length (_bytes self) - S j)%nat) as [y|] eqn:Hy;
      [|apply lookup_ge_None in Hy; lia].
    rewrite (lookup_window_one q _ _ Hy).
    apply lookup_window_one. rewrite reverse_lookup by lia.
    by rewrite Hl. }
  rewrite Hbr, length_reverse.
  apply list_eq. intros j.
  destruct (decide (j < length (_bytes self))%nat) as [Hj|Hj].
  - rewrite reverse_lookup by (by rewrite length_fmap, length_seq).
    rewrite !list_lookup_fmap, length_fmap, length_seq.
    rewrite !lookup_seq_lt by lia. cbn [fmap option_fmap option_map Nat.add].
    f_equal. by apply Hwin.
  - rewrite !lookup_ge_None_2; [done|..].
    + rewrite length_reverse, length_fmap, length_seq. lia.
    + rewrite length_fmap, length_seq. lia.
Qed.

Lemma reversed_is_reverse_of_iter_witness :
  exists items : list Sequence,
    __iter__ GGUC = Ok items ∧ __reversed__ GGUC = Ok (reverse items).
Proof.
  assert (Hnul : no_NUL GGUC).
  { unfold no_NUL. cbn. intros H.
    repeat (apply elem_of_cons in H as [H|H]; [discriminate H|]).
    by apply elem_of_nil in H. }
  exact (reversed_is_reverse_of_iter GGUC I Hnul).
Defined.

Lemma traverse_Raise {A B} (f : A -> result B) (l : list A) (e : exn) :
  Forall (fun x => is_ok (f x) = true ∨ f x = Raise e) l ->
  Exists (fun x => f x = Raise e) l ->
  traverse f l = Raise e.
Proof.
  induction 1 as [|x l Hx _ IH]; intros Hex; [by apply Exists_nil in Hex|].
  destruct Hx as [Hx|Hx]; [|by apply traverse_cons_Raise].
  destruct (f x) as [y|] eqn:Hy; [|done].
  rewrite (traverse_cons_Ok f x l y Hy).
  apply Exists_cons in Hex as [Hex|Hex]; [congruence|].
  by rewrite IH.
Qed.

(** X11. A valid sequence that holds the zero byte can be indexed at
    that position but cannot be iterated over: the element of the
    ['|S1'] view at a zero byte is the empty byte string, and building
    a sequence from it raises the type error of [_set_sequence]. *)
Theorem iter_raises_on_NUL (self : Sequence) (j : nat) :
  valid self -> _bytes self !! j = Some x00 ->
  __iter__ self = Raise ScalarLengthError
  ∧ __getitem__ self (IInt (Z.of_nat j)) = Ok (window_at self j 1).
Proof.
  intros Hv Hj. split.
  - unfold __iter__, sequence, _has_quality.
    set (qual := if match _quality self with Some _ => true | None => false end
                 then default [] (_quality self) else []).
    assert (Hqual : qual = default [] (_quality self)).
    { unfold qual. by destruct (_quality self). }
    assert (Hlen : (length qual <= length (_bytes self))%nat).
    { rewrite Hqual. unfold valid in Hv.
      destruct (_quality self) as [q|]; [destruct Hv; cbn; lia | cbn; lia]. }
    assert (Hnul : forall q : option Z,
      _to self (Some (FromRaw (FromScalar (S1_scalar x00)))) None None
        (Some (QItem <$> q)) = Raise ScalarLengthError) by done.
    apply traverse_Raise.
    + apply Forall_lookup. intros i [c q] Hi.
      assert (Hlt : (i < length (_bytes self))%nat).
      { apply lookup_lt_Some in Hi. rewrite length_zip_longest in Hi. lia. }
      rewrite lookup_zip_longest in Hi by lia. injection Hi as <- <-.
      destruct (_bytes self !! i) as [c|] eqn:Hc;
        [|apply lookup_ge_None in Hc; lia].
      destruct (decide (c = x00)) as [->|Hne]; [by right|left].
      rewrite Hqual. by rewrite iter_body_window.
    + apply Exists_exists. exists (Some x00, qual !! j). split; [|done].
      apply list_elem_of_lookup. exists j.
      rewrite lookup_zip_longest; [by rewrite Hj|].
      apply lookup_lt_Some in Hj. lia.
  - pose proof (lookup_lt_Some _ _ _ Hj) as Hlt.
    rewrite getitem_int_window by (try done; unfold __len__; lia).
    rewrite Z.mod_small by (unfold __len__; lia). by rewrite Nat2Z.id.
Qed.

Lemma iter_raises_on_NUL_witness :
  __iter__ A_NUL_C = Raise ScalarLengthError.
Proof. exact (proj1 (iter_raises_on_NUL A_NUL_C 1 I eq_refl)). Defined.

(* ----------------------------------------------------------------- *)
(** ** [index] and [__contains__] *)

Lemma occurs_at_S (sub s : list byte) (c : byte) (j : nat) :
  occurs_at sub (c :: s) (S j) <-> occurs_at sub s j.
Proof. done. Qed.

Lemma scan_find_Some (sub s : list byte) (i : nat) :
  Py.scan_find sub s = Some i ->
  occurs_at sub s i ∧ forall j, (j < i)%nat -> ¬ occurs_at sub s j.
Proof.
  revert i. induction s as [|c s IH]; intros i; [done|].
  cbn [Py.scan_find]. destruct (Py.startswith sub (c :: s)) eqn:E.
  - intros [= <-]. split; [by apply startswith_occurs | lia].
  - destruct (Py.scan_find sub s) as [i'|]; [|done].
    intros [= <-]. destruct (IH i' eq_refl) as [Hocc Hmin].
    split; [by apply occurs_at_S|].
    intros [|j] Hj.
    + intros H%startswith_occurs. congruence.
    + rewrite occurs_at_S. apply Hmin. lia.
Qed.

Lemma scan_find_None (sub s : list byte) :
  sub ≠ [] -> Py.scan_find sub s = None ->
  forall j, ¬ occurs_at sub s j.
Proof.
  intros Hne. induction s as [|c s IH]; intros Hf j Hocc.
  - apply occurs_at_fits in Hocc; [|done].
    destruct sub; [done|]. cbn in Hocc. lia.
  - cbn [Py.scan_find] in Hf.
    destruct (Py.startswith sub (c :: s)) eqn:E; [done|].
    destruct (Py.scan_find sub s) as [i'|] eqn:Es; [done|].
    destruct j as [|j].
    + apply startswith_occurs in Hocc. congruence.
    + by apply (IH eq_refl j).
Qed.

Lemma adjust_indices_start_nonneg (start end_ : option Z) (n : Z) :
  0 <= (Py.adjust_indices start end_ n).1.
Proof.
  unfold Py.adjust_indices. cbn [fst]. destruct start as [b|]; [|done].
  destruct (Z.ltb_spec b 0); lia.
Qed.

(** The search of [bytes.find] for a non-empty [sub], as the first
    occurrence in the window. *)
Lemma bytes_find_first (s sub : list byte) (start end_ : option Z) :
  sub ≠ [] ->
  let b := (Py.adjust_indices start end_ (Z.of_nat (length s))).1 in
  let e := (Py.adjust_indices start end_ (Z.of_nat (length s))).2 in
  (exists p : nat,
     Py.bytes_find s sub start end_ = b + Z.of_nat p
     ∧ occurs_at sub (Py.window s b e) p
     ∧ forall p', (p' < p)%nat -> ¬ occurs_at sub (Py.window s b e) p')
  ∨ (Py.bytes_find s sub start end_ = -1
     ∧ forall p, ¬ occurs_at sub (Py.window s b e) p).
Proof.
  intros Hne b e. unfold Py.bytes_find.
  pose proof (adjust_indices_start_nonneg start end_ (Z.of_nat (length s)))
    as Hb.
  fold b in Hb. subst b e.
  destruct (Py.adjust_indices start end_ (Z.of_nat (length s))) as [b e].
  cbn [fst snd] in *.
  destruct (Z.ltb_spec (e - b) (Z.of_nat (length sub))) as [Hshort|Hfit].
  - right. split; [done|]. intros p Hocc.
    apply occurs_at_fits in Hocc; [|done].
    unfold Py.window in Hocc. rewrite length_take in Hocc.
    assert (0 < length sub)%nat by (destruct sub; [done | cbn; lia]).
    lia.
  - destruct sub as [|x sub']; [done|].
    destruct (Py.scan_find (x :: sub') (Py.window s b e)) as [i|] eqn:Ef.
    + left. exists i. split; [done|]. by apply scan_find_Some.
    + right. split; [done|]. by apply scan_find_None.
Qed.

(** The handler of [index], for a query the coercion accepts. *)
Lemma index_handler (self sub : Sequence) (subsequence : sequence_arg)
    (method : string) :
  _munge_to_sequence self subsequence method = Ok sub ->
  (_ ← repr subsequence; _ ← __repr__ self; Raise NotFoundError)
  = (if formats self subsequence then Raise NotFoundError
     else Raise UnicodeDecodeError : result Z).
Proof.
  intros Hm. rewrite (repr_munged self sub subsequence method Hm).
  rewrite __repr___ascii. unfold formats.
  destruct subsequence as [other|r].
  - unfold _munge_to_sequence in Hm. case_decide; [done|].
    injection Hm as ->.
    destruct (forallb Py.is_ascii_byte (_bytes sub));
      cbn [mbind result_bind andb]; [|done].
    by destruct (forallb Py.is_ascii_byte (_bytes self)).
  - cbn [mbind result_bind andb].
    by destruct (forallb Py.is_ascii_byte (_bytes self)).
Qed.

(** X12. For a query that munges to a non-empty sequence, [index]
    returns the offset of the first occurrence of the query's symbols
    that lies inside the window [[start, end)] (normalised as Python
    normalises slice bounds), counted from the start of the sequence.
    When the window holds no occurrence the handler formats its
    message from the query and the receiver: [index] raises the
    not-found error when the symbols of the receiver, and of the query
    when it is a sequence object, are ASCII, and the decoding error
    otherwise; so it raises the not-found error exactly when the
    window holds no occurrence and the message can be formatted. *)
Theorem index_first_occurrence (self sub : Sequence)
    (subsequence : sequence_arg) (start end_ : option Z) :
  _munge_to_sequence self subsequence "index" = Ok sub ->
  _bytes sub ≠ [] ->
  let b := (Py.adjust_indices start end_ (__len__ self)).1 in
  let window := Py.window (_bytes self) b
                  (Py.adjust_indices start end_ (__len__ self)).2 in
  (forall i : Z,
     index self subsequence start end_ = Ok i <->
     exists p : nat,
       i = b + Z.of_nat p ∧ occurs_at (_bytes sub) window p
       ∧ forall p', (p' < p)%nat -> ¬ occurs_at (_bytes sub) window p')
  ∧ ((forall p : nat, ¬ occurs_at (_bytes sub) window p) ->
     index self subsequence start end_
     = if formats self subsequence then Raise NotFoundError
       else Raise UnicodeDecodeError)
  ∧ (index self subsequence start end_ = Raise NotFoundError <->
     (forall p : nat, ¬ occurs_at (_bytes sub) window p)
     ∧ formats self subsequence = true).
Proof.
  intros Hm Hne b window. unfold index. rewrite Hm.
  cbn [mbind result_bind]. unfold Py.bytes_index, _string.
  pose proof (adjust_indices_start_nonneg start end_ (__len__ self)) as Hb.
  destruct (bytes_find_first (_bytes self) (_bytes sub) start end_ Hne)
    as [(p & Hf & Hocc & Hmin)|[Hf Hnone]];
    fold (__len__ self) in *; fold b in Hf, Hocc || fold b in Hf;
    fold b in Hb; rewrite Hf.
  - fold window in Hocc, Hmin.
    rewrite (proj2 (Z.ltb_ge (b + Z.of_nat p) 0)) by lia. split.
    + intros i. split.
      * intros [= <-]. by exists p.
      * intros (p' & -> & Hocc' & Hmin'). do 2 f_equal.
        destruct (Nat.lt_trichotomy p p') as [Hlt|[->|Hlt]]; [|done|].
        -- by destruct (Hmin' p Hlt).
        -- by destruct (Hmin p' Hlt).
    + split; [intros Hnone; by destruct (Hnone p)|].
      split; [done|]. intros [Hnone _]. by destruct (Hnone p).
  - fold window in Hnone. cbn [Z.ltb Z.compare is_ValueError].
    rewrite (index_handler self sub subsequence "index" Hm). split.
    + intros i. split; [by destruct (formats self subsequence)|].
      intros (p & _ & Hocc & _). by destruct (Hnone p).
    + split; [done|]. split.
      * destruct (formats self subsequence); [done|discriminate].
      * by intros [_ ->].
Qed.

Lemma index_first_occurrence_witness :
  index ACACGACGTT (FromRaw (FromText "ACG")) None None = Ok 2.
Proof.
  destruct (index_first_occurrence ACACGACGTT
              (plain "Sequence" (list_byte_of_string "ACG"))
              (FromRaw (FromText "ACG")) None None eq_refl) as [H _].
  { discriminate. }
  apply H. exists 2%nat. split; [reflexivity|]. split; [reflexivity|].
  intros [|[|p']] Hp; [discriminate | discriminate | lia].
Defined.

Lemma window_whole {A} (s : list A) :
  Py.window s 0 (Z.of_nat (length s)) = s.
Proof.
  unfold Py.window. cbn [Z.to_nat drop]. rewrite Z.sub_0_r, Nat2Z.id.
  by apply take_ge.
Qed.

Lemma adjust_indices_None (n : Z) : Py.adjust_indices None None n = (0, n).
Proof. done. Qed.

(** X13. For a query that munges to a sequence, [in] tells whether
    the query's symbols occur somewhere in the sequence's symbols (the
    empty query always does); for a non-empty query it holds exactly
    when [index] without bounds finds a position, and exactly when a
    successful [count] without bounds is positive. *)
Theorem contains_iff_occurs (self sub : Sequence)
    (subsequence : sequence_arg) :
  _munge_to_sequence self subsequence "in" = Ok sub ->
  exists found : bool,
    __contains__ self subsequence = Ok found
    ∧ (found = true <->
       exists p : nat, occurs_at (_bytes sub) (_bytes self) p)
    ∧ (_bytes sub = [] -> found = true)
    ∧ (_bytes sub ≠ [] ->
       (found = true <->
        exists i : Z, index self subsequence None None = Ok i)
       ∧ forall c : Z,
           count self subsequence None None = Ok c ->
           (found = true <-> 0 < c)).
Proof.
  intros Hm.
  assert (Hm' : forall method,
            _munge_to_sequence self subsequence method = Ok sub).
  { intros method. by destruct subsequence. }
  unfold __contains__. rewrite Hm. cbn [mbind result_bind].
  eexists. split; [done|]. unfold _string.
  assert (Hocc : bool_decide
            (0 <= Py.bytes_find (_bytes self) (_bytes sub) None None) = true
          <-> exists p : nat, occurs_at (_bytes sub) (_bytes self) p).
  { rewrite bool_decide_eq_true.
    destruct (decide (_bytes sub = [])) as [Hnil|Hne].
    - rewrite Hnil. unfold Py.bytes_find. rewrite adjust_indices_None.
      cbn [length Z.of_nat]. change (Z.of_nat 0) with 0.
      rewrite (proj2 (Z.ltb_ge _ _)) by lia.
      split; [|lia]. intros _. by exists 0%nat.
    - destruct (bytes_find_first (_bytes self) (_bytes sub) None None Hne)
        as [(p & Hf & Ho & _)|[Hf Hnone]];
        rewrite adjust_indices_None in *; cbn [fst snd] in *;
        rewrite window_whole in *; rewrite Hf.
      + split; [by exists p | lia].
      + split; [lia|]. intros (p & Hp). by destruct (Hnone p). }
  split; [done|]. split.
  - intros Hnil. apply Hocc. rewrite Hnil. by exists 0%nat.
  - intros Hne. rewrite Hocc. split.
    + unfold index. rewrite Hm'. cbn [mbind result_bind].
      unfold Py.bytes_index, _string.
      destruct (bytes_find_first (_bytes self) (_bytes sub) None None Hne)
        as [(p & Hf & Ho & _)|[Hf Hnone]];
        rewrite adjust_indices_None in *; cbn [fst snd] in *;
        rewrite window_whole in *; rewrite Hf.
      * rewrite (proj2 (Z.ltb_ge _ _)) by lia.
        split; [by eexists | by exists p].
      * cbn [Z.ltb Z.compare is_ValueError].
        rewrite (index_handler self sub subsequence "index" (Hm' _)). split.
        -- intros (p & Hp). by destruct (Hnone p).
        -- intros (i & Hi). by destruct (formats self subsequence).
    + intros c Hc. unfold count in Hc.
      apply bind_Ok in Hc as (n & _ & Hc).
      destruct (n =? 0); [done|]. rewrite Hm' in Hc.
      cbn [mbind result_bind] in Hc. injection Hc as <-.
      destruct (bytes_count_nonoverlapping (_bytes self) (_bytes sub)
                  None None Hne) as (c' & Hc' & [(ps & Hps & Hl) Hmax]).
      unfold _string. rewrite Hc'.
      rewrite adjust_indices_None in *. cbn [fst snd] in *.
      rewrite window_whole in *. rewrite ?Hocc. split.
      * intros (p & Hp).
        assert (Hone : nonoverlapping (_bytes sub) (_bytes self) 0 [p]).
        { cbn. split; [lia|]. done. }
        apply Hmax in Hone. cbn in Hone. lia.
      * intros Hpos. destruct ps as [|p ps]; [cbn in Hl; lia|].
        exists p. by destruct Hps as (_ & ? & _).
Qed.

Lemma contains_iff_occurs_witness :
  __contains__ GGUCG (FromRaw (FromText "GGU")) = Ok true.
Proof.
  destruct (contains_iff_occurs GGUCG
              (plain "Sequence" (list_byte_of_string "GGU"))
              (FromRaw (FromText "GGU")) eq_refl)
    as (found & Hc & Hf & _).
  rewrite Hc. f_equal. apply Hf. by exists 0%nat.
Defined.

(* ----------------------------------------------------------------- *)
(** ** Frequencies, distance and equality *)

Lemma invert_eq_elementwise (a b : list byte) :
  Np.invert (Np.eq_elementwise a b) = Np.ne_elementwise a b.
Proof.
  unfold Np.invert, Np.eq_elementwise, Np.ne_elementwise.
  revert b. induction a as [|x a IH]; intros [|y b]; try done.
  cbn. by rewrite IH.
Qed.

Lemma sum_bool_invert (m : list bool) :
  Np.sum_bool (Np.invert m) + Np.sum_bool m = Z.of_nat (length m).
Proof.
  unfold Np.invert. induction m as [|b m IH]; [done|].
  cbn [fmap list_fmap Np.sum_bool foldr length].
  fold (Np.sum_bool (negb <$> m)). fold (Np.sum_bool m).
  destruct b; cbn [negb]; lia.
Qed.

Lemma matches_same_class (self other : Sequence) :
  __class__ other = __class__ self ->
  matches self (FromSequence other)
  = if negb (__len__ self =? __len__ other)
    then Raise MatchLengthMismatchError
    else Ok (Np.eq_elementwise (_bytes self) (_bytes other)).
Proof. intros H. unfold matches. by rewrite _munge_same_class. Qed.

(** X14. For sequences of one class and one length, the number of
    matches and the number of mismatches add up to the length, the
    number of mismatches is the number of differing positions, and
    the relative mismatch frequency is the default distance; when the
    lengths differ both frequencies raise the length-mismatch error of
    [matches]. *)
Theorem frequencies_add_up (self other : Sequence) :
  __class__ other = __class__ self ->
  (__len__ self = __len__ other ->
   exists a b : Z,
     match_frequency self (FromSequence other) false = Ok (Int a)
     ∧ mismatch_frequency self (FromSequence other) false = Ok (Int b)
     ∧ a + b = __len__ self
     ∧ b = Z.of_nat (length (differing_positions (_bytes self)
                               (_bytes other)))
     ∧ mismatch_frequency self (FromSequence other) true
       = Real <$> distance self (FromSequence other) None)
  ∧ (__len__ self ≠ __len__ other ->
     forall relative : bool,
       match_frequency self (FromSequence other) relative
         = Raise MatchLengthMismatchError
       ∧ mismatch_frequency self (FromSequence other) relative
         = Raise MatchLengthMismatchError).
Proof.
  intros Hcls. unfold match_frequency, mismatch_frequency, mismatches.
  rewrite matches_same_class by done. split.
  - intros Hlen. rewrite Hlen, Z.eqb_refl.
    cbn [negb fmap result_fmap mbind result_bind].
    assert (Hl : length (_bytes self) = length (_bytes other)).
    { unfold __len__ in Hlen. lia. }
    do 2 eexists. split; [done|]. split; [done|].
    rewrite invert_eq_elementwise. split; [|split].
    + rewrite <- invert_eq_elementwise.
      rewrite Z.add_comm, sum_bool_invert.
      unfold Np.eq_elementwise, __len__. rewrite length_zip_with. lia.
    + by apply sum_ne_differing.
    + unfold distance. rewrite _munge_same_class by done.
      cbn [mbind result_bind]. rewrite Hlen, Z.eqb_refl.
      cbn [negb mbind result_bind fmap result_fmap]. done.
  - intros Hlen relative.
    rewrite (proj2 (Z.eqb_neq _ _) Hlen). by destruct relative.
Qed.

Lemma frequencies_add_up_witness :
  exists a b : Z,
    match_frequency GGUC (FromSequence AGUC) false = Ok (Int a)
    ∧ mismatch_frequency GGUC (FromSequence AGUC) false = Ok (Int b)
    ∧ a + b = 4.
Proof.
  destruct (frequencies_add_up GGUC AGUC eq_refl) as [H _].
  destruct (H eq_refl) as (a & b & Ha & Hb & Hab & _).
  exists a, b. split; [exact Ha|]. split; [exact Hb|]. exact Hab.
Defined.

Lemma differing_positions_nil (u v : list byte) :
  length u = length v -> (differing_positions u v = [] <-> u = v).
Proof.
  intros Hl. unfold differing_positions. split.
  - intros Hnil. apply list_eq. intros i.
    destruct (decide (i < length u)%nat) as [Hi|Hi].
    + destruct (decide (u !! i = v !! i)) as [|Hne]; [done|].
      assert (Hin : i ∈ filter (fun i => u !! i ≠ v !! i) (seq 0 (length u))).
      { apply list_elem_of_filter. split; [done|]. apply elem_of_seq. lia. }
      rewrite Hnil in Hin. by apply elem_of_nil in Hin.
    + rewrite !lookup_ge_None_2 by lia. done.
  - intros ->. induction (seq 0 (length v)) as [|i l IH]; [done|].
    rewrite filter_cons. by rewrite decide_False by (by intros ?).
Qed.

Lemma differing_positions_sym (u v : list byte) :
  length u = length v ->
  differing_positions u v = differing_positions v u.
Proof.
  intros Hl. unfold differing_positions. rewrite Hl.
  apply list_filter_iff. intros i. split; intros H E; by apply H.
Qed.

Lemma distance_same_class (self other : Sequence) :
  __class__ other = __class__ self ->
  distance self (FromSequence other) None
  = if negb (__len__ self =? __len__ other)
    then Raise DistanceLengthMismatchError
    else Ok (fraction
               (length (differing_positions (_bytes self) (_bytes other)))
               (length (_bytes self))).
Proof.
  intros H. unfold distance. rewrite _munge_same_class by done.
  cbn [mbind result_bind].
  destruct (Z.eqb_spec (__len__ self) (__len__ other)) as [Hl|Hl];
    cbn [negb mbind result_bind]; [|done].
  unfold sequence. rewrite hamming_fraction; [done|].
  unfold __len__ in Hl. lia.
Qed.

(** X15. The default distance is symmetric between sequences of one
    class (the same value, or the same length error both ways).  It
    is [0 / N], zero for a non-empty sequence and not a number for the
    empty one, from a sequence to itself, and between sequences of one
    length it is [0 / N] exactly when the two have the same symbols. *)
Theorem distance_symmetric_and_zero (self other : Sequence) :
  __class__ other = __class__ self ->
  distance self (FromSequence other) None
    = distance other (FromSequence self) None
  ∧ distance self (FromSequence self) None
    = Ok (fraction 0 (length (_bytes self)))
  ∧ (__len__ self = __len__ other ->
     (distance self (FromSequence other) None
        = Ok (fraction 0 (length (_bytes self)))
      <-> _bytes self = _bytes other)).
Proof.
  intros Hcls. rewrite !distance_same_class by done.
  rewrite (Z.eqb_sym (__len__ other)). repeat split.
  - destruct (Z.eqb_spec (__len__ self) (__len__ other)) as [Hl|Hl];
      cbn [negb]; [|done].
    assert (Hl' : length (_bytes self) = length (_bytes other)).
    { unfold __len__ in Hl. lia. }
    rewrite differing_positions_sym by done. by rewrite Hl'.
  - rewrite Z.eqb_refl. cbn [negb].
    by rewrite (proj2 (differing_positions_nil _ _ eq_refl) eq_refl).
  - rewrite H, Z.eqb_refl. cbn [negb]. intros Hd.
    assert (Hl' : length (_bytes self) = length (_bytes other)).
    { unfold __len__ in H. lia. }
    apply differing_positions_nil; [done|].
    injection Hd as Hd. unfold fraction in Hd.
    destruct (length (_bytes self)) eqn:Hn; [|injection Hd as Hd;
      by apply length_zero_iff_nil; lia].
    unfold differing_positions. by rewrite Hn.
  - rewrite H, Z.eqb_refl. cbn [negb]. intros Hb.
    assert (Hl' : length (_bytes self) = length (_bytes other)).
    { unfold __len__ in H. lia. }
    by rewrite (proj2 (differing_positions_nil _ _ Hl') Hb).
Qed.

Lemma distance_symmetric_and_zero_witness :
  distance GGUC (FromSequence AGUC) None
  = distance AGUC (FromSequence GGUC) None.
Proof. exact (proj1 (distance_symmetric_and_zero GGUC AGUC eq_refl)). Defined.

(* ----------------------------------------------------------------- *)
(** ** Equality as a relation, and the coercion of the other operand *)

Lemma equals_refl (a : Sequence) (ignore : option (list string)) :
  equals a a ignore = true.
Proof. apply equals_checks. repeat split; by right. Qed.

Lemma unignored_sym {A} (P : Prop) (x y : A) :
  P ∨ x = y -> P ∨ y = x.
Proof. intros [H|H]; [by left | by right]. Qed.

Lemma unignored_trans {A} (P : Prop) (x y z : A) :
  P ∨ x = y -> P ∨ y = z -> P ∨ x = z.
Proof. intros [H|H] [K|K]; try (by left). right. congruence. Qed.

Lemma unignored_mono {A} (P Q : Prop) (x y : A) :
  (P -> Q) -> P ∨ x = y -> Q ∨ x = y.
Proof. intros HPQ [H|H]; [left; by apply HPQ | by right]. Qed.

Lemma equals_sym_true (a b : Sequence) (ignore : option (list string)) :
  equals a b ignore = true -> equals b a ignore = true.
Proof.
  rewrite !equals_checks. intros (H1 & H2 & H3 & H4 & H5).
  repeat split; by apply unignored_sym.
Qed.

Lemma __eq___iff (a b : Sequence) : __eq__ a b = true <-> a = b.
Proof.
  unfold __eq__. rewrite equals_checks. cbn [default from_option id]. split.
  - intros (H1 & H2 & H3 & H4 & H5).
    destruct a, b. cbn in *.
    destruct H1 as [H1| ->]; [by apply elem_of_nil in H1|].
    destruct H2 as [H2| ->]; [by apply elem_of_nil in H2|].
    destruct H3 as [H3| ->]; [by apply elem_of_nil in H3|].
    destruct H4 as [H4| ->]; [by apply elem_of_nil in H4|].
    destruct H5 as [H5| ->]; [by apply elem_of_nil in H5|].
    done.
  - intros ->. repeat split; by right.
Qed.

(** X16. [equals], under any list of ignored attributes, is an
    equivalence relation on sequences, and ignoring more attributes
    never turns an equality into an inequality.  With nothing ignored,
    as [==] uses it, it holds exactly when the two sequences have the
    same class, id, description, quality and symbols, and [!=] holds
    exactly when they do not. *)
Theorem equals_is_equivalence
    (a b c : Sequence) (ignore ignore' : option (list string)) :
  equals a a ignore = true
  ∧ equals a b ignore = equals b a ignore
  ∧ (equals a b ignore = true -> equals b c ignore = true ->
     equals a c ignore = true)
  ∧ ((forall x, x ∈ default [] ignore -> x ∈ default [] ignore') ->
     equals a b ignore = true -> equals a b ignore' = true)
  ∧ (__eq__ a b = true <-> a = b)
  ∧ (__ne__ a b = true <-> a ≠ b).
Proof.
  split; [apply equals_refl|].
  split; [apply eq_true_iff_eq; split; apply equals_sym_true|].
  split.
  { rewrite !equals_checks.
    intros (H1 & H2 & H3 & H4 & H5) (K1 & K2 & K3 & K4 & K5).
    repeat split; by eapply unignored_trans. }
  split.
  { intros Hsub. rewrite !equals_checks.
    intros (H1 & H2 & H3 & H4 & H5).
    repeat split; (eapply unignored_mono; [apply Hsub|done]). }
  split; [apply __eq___iff|].
  unfold __ne__. rewrite negb_true_iff, <- not_true_iff_false.
  by rewrite __eq___iff.
Qed.

(** X17. A method that coerces its other operand accepts any raw value
    the constructor accepts, whatever the class of the receiver, and
    compares the receiver with the symbols of that value; it rejects a
    sequence object of another class with a type error, even one that
    holds the same symbols. *)
Theorem raw_operand_accepted_other_class_rejected
    (self other : Sequence) (r : raw_arg) (symbols : list byte) :
  _set_sequence r = Ok symbols ->
  __class__ other ≠ __class__ self ->
  matches self (FromRaw r)
    = (if negb (__len__ self =? Z.of_nat (length symbols))
       then Raise MatchLengthMismatchError
       else Ok (Np.eq_elementwise (_bytes self) symbols))
  ∧ distance self (FromRaw r) None
    = (if negb (__len__ self =? Z.of_nat (length symbols))
       then Raise DistanceLengthMismatchError
       else Ok (fraction
                  (length (differing_positions (_bytes self) symbols))
                  (length (_bytes self))))
  ∧ matches self (FromSequence other) = Raise ClassMismatchError
  ∧ mismatches self (FromSequence other) = Raise ClassMismatchError
  ∧ distance self (FromSequence other) None = Raise ClassMismatchError
  ∧ forall relative : bool,
      match_frequency self (FromSequence other) relative
        = Raise ClassMismatchError
      ∧ mismatch_frequency self (FromSequence other) relative
        = Raise ClassMismatchError.
Proof.
  intros Hr Hcls.
  assert (Hraw : forall m, _munge_to_sequence self (FromRaw r) m
                           = Ok (plain "Sequence" symbols)).
  { intros m. by rewrite _munge_raw, Hr. }
  assert (Hobj : forall m, _munge_to_sequence self (FromSequence other) m
                           = Raise ClassMismatchError).
  { intros m. unfold _munge_to_sequence. by rewrite decide_True. }
  assert (Hm : matches self (FromSequence other) = Raise ClassMismatchError).
  { unfold matches. by rewrite Hobj. }
  split.
  { unfold matches. rewrite Hraw. cbn [mbind result_bind]. done. }
  split.
  { unfold distance. rewrite Hraw. cbn [mbind result_bind].
    unfold __len__ at 2. cbn [plain _bytes].
    destruct (Z.eqb_spec (__len__ self) (Z.of_nat (length symbols)))
      as [Hl|Hl]; cbn [negb mbind result_bind]; [|done].
    unfold sequence. cbn [plain _bytes].
    rewrite hamming_fraction; [done|]. unfold __len__ in Hl. lia. }
  split; [done|].
  split; [unfold mismatches; by rewrite Hm|].
  split; [unfold distance; by rewrite Hobj|].
  intros relative. unfold match_frequency, mismatch_frequency, mismatches.
  rewrite Hm. by destruct relative.
Qed.

Lemma raw_operand_accepted_other_class_rejected_witness :
  matches (plain "DNA" (list_byte_of_string "ACGT"))
          (FromRaw (FromText "ACGA"))
    = Ok [true; true; true; false]
  ∧ matches (plain "DNA" (list_byte_of_string "ACGT"))
            (FromSequence (plain "Sequence" (list_byte_of_string "ACGA")))
    = Raise ClassMismatchError.
Proof.
  assert (Hcls : __class__ (plain "Sequence" (list_byte_of_string "ACGA"))
                 ≠ __class__ (plain "DNA" (list_byte_of_string "ACGT")))
    by discriminate.
  destruct (raw_operand_accepted_other_class_rejected
              (plain "DNA" (list_byte_of_string "ACGT"))
              (plain "Sequence" (list_byte_of_string "ACGA"))
              (FromText "ACGA") (list_byte_of_string "ACGA")
              eq_refl Hcls) as (H1 & _ & H3 & _).
  split; [exact H1 | exact H3].
Defined.

(* ----------------------------------------------------------------- *)
(** ** Words: [kmers] and [kmer_frequencies] beyond their contracts *)

Lemma kmers_windows (self : Sequence) (k : Z) (overlap : bool) :
  valid self -> 1 <= k ->
  kmers self k overlap
  = Ok ((fun j => window_at self (j * Z.to_nat (if overlap then 1 else k))
                    (Z.to_nat k))
          <$> seq 0 (Z.to_nat (kmer_count (__len__ self) k overlap))).
Proof.
  intros Hv Hk.
  assert (HN : 0 <= __len__ self) by (unfold __len__; lia).
  set (step := if overlap then 1 else k).
  set (n := Z.to_nat (kmer_count (__len__ self) k overlap)).
  unfold kmers, Py.range.
  replace (k <? 1) with false by lia.
  assert (1 <= step) by (unfold step; destruct overlap; lia).
  fold step. replace (step =? 0) with false by lia.
  cbn [mbind result_bind].
  rewrite (kmers_range_length (__len__ self) k overlap HN Hk
           : Py.range_length 0 (__len__ self - k + 1) step = _).
  fold n. unfold Py.range_items.
  apply traverse_fmap_seq. intros j Hj.
  pose proof (kmers_offset_fits (__len__ self) k overlap j HN Hk) as Hfit.
  fold step in Hfit.
  rewrite getitem_window by (try done; unfold n in Hj; nia).
  do 2 f_equal. rewrite Z.add_0_l, Z2Nat.inj_mul, Nat2Z.id; lia.
Qed.

Lemma concat_windows {A} (l : list A) (k n : nat) :
  concat ((fun j => take k (drop (j * k) l)) <$> seq 0 n) = take (n * k) l.
Proof.
  induction n as [|n IH]; [done|].
  rewrite seq_S, fmap_app, concat_app, IH.
  cbn [fmap list_fmap concat Nat.add]. rewrite app_nil_r.
  rewrite take_take_drop. f_equal. lia.
Qed.

(** X18. The words of length [k] that do not overlap partition the
    prefix of the sequence they cover: for [k >= 1] their symbols,
    joined in order, are the first [(N // k) * k] symbols of the
    sequence, and their quality scores the first [(N // k) * k] scores;
    when [k] divides the length nothing is left out. *)
Theorem kmers_nonoverlapping_partition (self : Sequence) (k : Z) :
  valid self -> 1 <= k ->
  exists windows : list Sequence,
    kmers self k false = Ok windows
    ∧ concat (_bytes <$> windows)
      = take (Z.to_nat (__len__ self / k * k)) (_bytes self)
    ∧ (forall q, _quality self = Some q ->
         concat ((fun w => default [] (_quality w)) <$> windows)
         = take (Z.to_nat (__len__ self / k * k)) q)
    ∧ (__len__ self mod k = 0 -> concat (_bytes <$> windows) = _bytes self).
Proof.
  intros Hv Hk. eexists. split; [by apply kmers_windows|].
  assert (HN : 0 <= __len__ self) by (unfold __len__; lia).
  assert (Hdiv : 0 <= __len__ self / k) by (apply Z.div_pos; lia).
  assert (Hn : Z.to_nat (__len__ self / k * k)
               = (Z.to_nat (kmer_count (__len__ self) k false)
                  * Z.to_nat k)%nat).
  { unfold kmer_count. rewrite Z2Nat.inj_mul by lia. done. }
  assert (Hb : concat (_bytes <$>
      ((fun j => window_at self (j * Z.to_nat k) (Z.to_nat k))
         <$> seq 0 (Z.to_nat (kmer_count (__len__ self) k false))))
    = take (Z.to_nat (__len__ self / k * k)) (_bytes self)).
  { rewrite <- list_fmap_compose, Hn. apply concat_windows. }
  split; [exact Hb|]. split.
  - intros q Hq. rewrite <- list_fmap_compose, Hn.
    rewrite <- concat_windows. f_equal. apply list_fmap_ext.
    intros i j _. unfold compose, window_at. cbn [with_data _quality].
    by rewrite Hq.
  - intros Hmod. rewrite Hb.
    apply take_ge. unfold __len__ in *.
    pose proof (Z.div_mod (Z.of_nat (length (_bytes self))) k) as Hdm.
    specialize (Hdm ltac:(lia)). nia.
Qed.

Lemma kmers_nonoverlapping_partition_witness :
  exists windows : list Sequence,
    kmers ACACGACGTT 4 false = Ok windows
    ∧ concat (_bytes <$> windows) = list_byte_of_string "ACACGACG".
Proof.
  destruct (kmers_nonoverlapping_partition ACACGACGTT 4 I ltac:(lia))
    as (windows & Hk & Hc & _).
  exists windows. split; [exact Hk|]. rewrite Hc. reflexivity.
Defined.

(** X19. The words of length 1, overlapping or not, are the items of
    iteration: for a valid sequence without zero bytes [kmers(1)]
    yields what [iter] yields. *)
Theorem kmers_of_one_is_iter (self : Sequence) (overlap : bool) :
  valid self -> no_NUL self ->
  kmers self 1 overlap = __iter__ self.
Proof.
  intros Hv Hnul. rewrite kmers_windows by (done || lia).
  rewrite iter_windows by done. f_equal.
  replace (Z.to_nat (kmer_count (__len__ self) 1 overlap))
    with (length (_bytes self)).
  - apply list_fmap_ext. intros i j _. f_equal.
    destruct overlap; cbn; lia.
  - unfold kmer_count, __len__. destruct overlap.
    + lia.
    + rewrite Z.div_1_r. lia.
Qed.

Lemma kmers_of_one_is_iter_witness :
  kmers GGUC 1 false = __iter__ GGUC.
Proof.
  assert (Hnul : no_NUL GGUC).
  { unfold no_NUL. cbn. intros H.
    repeat (apply elem_of_cons in H as [H|H]; [discriminate H|]).
    by apply elem_of_nil in H. }
  exact (kmers_of_one_is_iter GGUC false I Hnul).
Defined.

Lemma forallb_take_drop {A} (f : A -> bool) (l : list A) (o k : nat) :
  forallb f l = true -> forallb f (take k (drop o l)) = true.
Proof.
  rewrite !forallb_forall. intros H x Hx. apply H.
  apply list_elem_of_In. apply list_elem_of_In in Hx.
  apply list_elem_of_lookup in Hx as [i Hi].
  apply lookup_take_Some in Hi as [Hi _]. rewrite lookup_drop in Hi.
  by eapply list_elem_of_lookup_2.
Qed.

(** The texts of the words of an ASCII sequence. *)
Lemma kmers_words (self : Sequence) (k : Z) (overlap : bool) :
  valid self -> is_ascii self -> 1 <= k ->
  texts (kmers self k overlap)
  = Ok ((fun j => word_at self (j * Z.to_nat (if overlap then 1 else k))
                    (Z.to_nat k))
          <$> seq 0 (Z.to_nat (kmer_count (__len__ self) k overlap))).
Proof.
  intros Hv Ha Hk. unfold texts. rewrite kmers_windows by done.
  cbn [mbind result_bind]. apply traverse_fmap_seq. intros j _.
  unfold __str__, _string, window_at, word_at, Py.decode_ascii.
  cbn [with_data _bytes]. by rewrite forallb_take_drop.
Qed.

Lemma occurrences_cons (key x : string) (l : list string) :
  occurrences key (x :: l)
  = if decide (x = key) then S (occurrences key l) else occurrences key l.
Proof. unfold occurrences. rewrite filter_cons. by case_decide. Qed.

Lemma Counter_fold (items : list string) (c : gmap string Z) (key : string) :
  foldl (fun c x => <[x := default 0 (c !! x) + 1]> c) c items !! key
  = match occurrences key items with
    | O => c !! key
    | S n => Some (default 0 (c !! key) + Z.of_nat (S n))
    end.
Proof.
  revert c. induction items as [|x items IH]; intros c; [done|].
  cbn [foldl]. rewrite IH, occurrences_cons. case_decide as Hx.
  - subst x. rewrite lookup_insert_eq. cbn [default from_option id].
    destruct (occurrences key items); f_equal; lia.
  - by rewrite lookup_insert_ne.
Qed.

Lemma Counter_lookup (items : list string) (key : string) :
  Counter items !! key
  = match occurrences key items with
    | O => None
    | S n => Some (Z.of_nat (S n))
    end.
Proof.
  unfold Counter. rewrite Counter_fold, lookup_empty.
  destruct (occurrences key items); [done|]. cbn [default from_option id].
  f_equal.
Qed.

Lemma occurrences_pos (key : string) (l : list string) :
  (0 < occurrences key l)%nat <-> key ∈ l.
Proof.
  induction l as [|x l IH].
  - split; [cbn; lia | by intros ?%elem_of_nil].
  - rewrite occurrences_cons, elem_of_cons. case_decide as Hx.
    + split; [by left | lia].
    + rewrite IH. split; [by right | by intros [?|?]].
Qed.

(** X20. For an ASCII sequence and [k >= 1] the absolute k-mer
    frequencies count the words: the counter maps each text to the
    number of words of [kmers] that read as it, holds exactly the texts
    that occur, and the number of words is the one of [kmers]. *)
Theorem kmer_frequencies_counts_words
    (self : Sequence) (k : Z) (overlap : bool) :
  valid self -> is_ascii self -> 1 <= k ->
  exists (words : list string) (c : gmap string Z),
    texts (kmers self k overlap) = Ok words
    ∧ Z.of_nat (length words) = kmer_count (__len__ self) k overlap
    ∧ kmer_frequencies self k overlap false = Ok (Counts c)
    ∧ forall key : string,
        default 0 (c !! key) = Z.of_nat (occurrences key words)
        ∧ (is_Some (c !! key) <-> key ∈ words).
Proof.
  intros Hv Ha Hk. pose proof (kmers_words self k overlap Hv Ha Hk) as Hw.
  do 2 eexists. split; [exact Hw|]. split.
  { rewrite length_fmap, length_seq.
    assert (0 <= __len__ self) by (unfold __len__; lia).
    unfold kmer_count. destruct overlap; [lia|].
    assert (0 <= __len__ self / k) by (apply Z.div_pos; lia). lia. }
  unfold texts in Hw. unfold kmer_frequencies, kmer_frequencies_with.
  destruct (kmers self k overlap) as [ws|e]; [|done].
  cbn [mbind result_bind] in *. rewrite Hw. cbn [mbind result_bind].
  split; [done|]. intros key. rewrite Counter_lookup.
  rewrite <- occurrences_pos.
  destruct (occurrences key _) as [|n]; cbn [default from_option id].
  - split; [done|]. split; [by intros [? ?] | lia].
  - split; [done|]. split; [lia | by eexists].
Qed.

Lemma kmer_frequencies_counts_words_witness :
  exists c : gmap string Z,
    kmer_frequencies ACACATTTATTA 3 false false = Ok (Counts c)
    ∧ default 0 (c !! "TTA"%string) = 2.
Proof.
  destruct (kmer_frequencies_counts_words ACACATTTATTA 3 false I eq_refl
              ltac:(lia)) as (words & c & Hw & _ & Hc & Hkey).
  exists c. split; [exact Hc|].
  rewrite (proj1 (Hkey "TTA"%string)).
  revert Hw. vm_compute. by intros [= <-].
Defined.

Lemma relative_loop_lookup (g : Z -> Q) (num : Z)
    (items : list (string * Z)) (acc : gmap string Q) :
  (forall c, Py.truediv c num = Ok (g c)) ->
  NoDup items.*1 ->
  exists d : gmap string Q,
    relative_loop Py.truediv items num acc = Ok d
    ∧ forall key, d !! key
        = match (list_to_map items : gmap string Z) !! key with
          | Some c => Some (g c)
          | None => acc !! key
          end.
Proof.
  intros Hg. revert acc.
  induction items as [|[k0 c0] items IH]; intros acc Hnd.
  - exists acc. split; [done|]. intros key.
    cbn [list_to_map foldr]. by rewrite lookup_empty.
  - cbn [fmap list_fmap fst] in Hnd. apply NoDup_cons in Hnd as [Hk0 Hnd].
    cbn [relative_loop]. rewrite Hg. cbn [mbind result_bind].
    destruct (IH (<[k0 := g c0]> acc) Hnd) as (d & Hd & Hlook).
    exists d. split; [exact Hd|]. intros key. rewrite Hlook.
    cbn [list_to_map foldr uncurry]. destruct (decide (key = k0)) as [->|Hne].
    + rewrite (not_elem_of_list_to_map_1 _ _ Hk0).
      by rewrite !lookup_insert_eq.
    + by rewrite !lookup_insert_ne.
Qed.

(** X21. For an ASCII sequence at least as long as [k >= 1] the
    relative k-mer frequencies are the counts divided by the number of
    words: the result maps each text that occurs to its number of
    occurrences over the number of words of [kmers], and holds no other
    text. *)
Theorem kmer_frequencies_relative
    (self : Sequence) (k : Z) (overlap : bool) :
  valid self -> is_ascii self -> 1 <= k <= __len__ self ->
  exists (words : list string) (d : gmap string Q),
    texts (kmers self k overlap) = Ok words
    ∧ (0 < length words)%nat
    ∧ kmer_frequencies self k overlap true = Ok (Relative d)
    ∧ forall key : string,
        d !! key
        = match occurrences key words with
          | O => None
          | S n => Some (Qmake (Z.of_nat (S n))
                               (Pos.of_nat (length words)))
          end.
Proof.
  intros Hv Ha [Hk HkN].
  pose proof (kmers_words self k overlap Hv Ha Hk) as Hw.
  set (num := if overlap then __len__ self - k + 1 else __len__ self / k).
  assert (Hnum : num = kmer_count (__len__ self) k overlap).
  { unfold num, kmer_count. destruct overlap; lia. }
  assert (Hpos : 0 < num).
  { unfold num. destruct overlap; [lia|].
    apply Z.div_str_pos. lia. }
  rewrite <- Hnum in Hw.
  set (words := (fun j => word_at self
                            (j * Z.to_nat (if overlap then 1 else k))
                            (Z.to_nat k)) <$> seq 0 (Z.to_nat num)) in Hw.
  assert (Hlen : length words = Z.to_nat num).
  { unfold words. by rewrite length_fmap, length_seq. }
  destruct (relative_loop_lookup (fun c => Qmake c (Z.to_pos num)) num
              (map_to_list (Counter words)) ∅) as (d & Hd & Hlook).
  { intros c. unfold Py.truediv.
    rewrite (proj2 (Z.eqb_neq _ _)) by lia.
    rewrite Z.sgn_pos, Z.mul_1_r, Z.abs_eq by lia. done. }
  { apply NoDup_fst_map_to_list. }
  exists words, d. split; [exact Hw|]. split; [lia|].
  unfold texts in Hw. unfold kmer_frequencies, kmer_frequencies_with.
  destruct (kmers self k overlap) as [ws|e]; [|done].
  cbn [mbind result_bind] in *. rewrite Hw. cbn [mbind result_bind].
  fold num. rewrite Hd. split; [reflexivity|].
  intros key. rewrite Hlook, list_to_map_to_list, Counter_lookup.
  destruct (occurrences key words); [by rewrite lookup_empty|].
  rewrite Hlen. do 2 f_equal.
  destruct num as [|p|p]; try lia; cbn; by rewrite Pos2Nat.id.
Qed.

Lemma kmer_frequencies_relative_witness :
  exists d : gmap string Q,
    kmer_frequencies ACACATTTATTA 3 false true = Ok (Relative d)
    ∧ d !! "TTA"%string = Some (Qmake 2 4).
Proof.
  destruct (kmer_frequencies_relative ACACATTTATTA 3 false I eq_refl
              ltac:(vm_compute; split; discriminate))
    as (words & d & Hw & _ & Hd & Hkey).
  exists d. split; [exact Hd|]. rewrite Hkey.
  revert Hw. vm_compute. by intros [= <-].
Defined.

(* ----------------------------------------------------------------- *)
(** ** [slices_from_regex] without a mask *)

Lemma length_range_items (lo st : Z) (n : nat) :
  length (Py.range_items lo st n) = n.
Proof. unfold Py.range_items. by rewrite length_fmap, length_seq. Qed.

Lemma remap_arange (n : nat) (i : Z) :
  0 <= i < Z.of_nat n -> remap (Py.range_items 0 1 n) i = i.
Proof.
  intros Hi. unfold remap, Py.range_items.
  rewrite list_lookup_fmap, lookup_seq_lt by lia.
  cbn [fmap option_fmap option_map default from_option id Nat.add]. lia.
Qed.

Lemma remapped_slice_arange (n : nat) (span : Z * Z) :
  indexes (Py.range_items 0 1 n) span ->
  remapped_slice (Py.range_items 0 1 n) span = span_slice span.
Proof.
  unfold indexes. rewrite length_range_items. intros [Hb He].
  unfold remapped_slice, span_slice.
  rewrite !remap_arange by lia. do 2 f_equal. lia.
Qed.

Lemma where_all (n : nat) :
  Np.where_ (replicate n true) = Py.range_items 0 1 n.
Proof.
  induction n as [|n IH]; [done|].
  cbn [replicate]. rewrite where_cons, IH. unfold Py.range_items.
  cbn [seq fmap list_fmap app]. f_equal.
  rewrite <- fmap_S_seq, <- !list_fmap_compose.
  apply list_fmap_ext. intros i j _. unfold compose. lia.
Qed.

Lemma compress_all {A} (a : list A) :
  Np.compress (replicate (length a) true) a = a.
Proof. induction a as [|x a IH]; [done|]. cbn. by rewrite IH. Qed.

Lemma compress_all_same_length {A} (n : nat) (a : list A) :
  length a = n -> Np.compress (replicate n true) a = a.
Proof. intros <-. apply compress_all. Qed.

Lemma invert_nothing_excluded (n : nat) :
  Np.invert (replicate n false) = replicate n true.
Proof. unfold Np.invert. by rewrite fmap_replicate. Qed.

Section slices_from_regex_without_mask.
Variable pattern : Type.
Variable re_compile : string -> result pattern.
Variable finditer : pattern -> string -> list re_match.

(** X22. Excluding no position is the same as passing no mask: for a
    valid sequence, [slices_from_regex] with the all-False mask of
    its length yields the slices, and ends with the error if any, of
    [slices_from_regex] without a mask, whatever the pattern finds. *)
Theorem slices_from_regex_nothing_excluded
    (self : Sequence) (regex : regex_arg pattern) :
  valid self ->
  slices_from_regex pattern re_compile finditer self regex
    (Some (nothing_excluded self))
  = slices_from_regex pattern re_compile finditer self regex None.
Proof.
  intros Hv. unfold slices_from_regex, nothing_excluded.
  destruct (compile_if_text pattern re_compile regex) as [p|e]; [|done].
  cbn [mbind result_bind].
  rewrite invert_nothing_excluded.
  rewrite getitem_mask by (try done; by rewrite length_replicate).
  cbn [mbind result_bind]. rewrite compress_all.
  unfold __str__ at 1, _string. cbn [with_data _bytes].
  unfold __str__, _string.
  destruct (Py.decode_ascii (_bytes self)) as [text|e]; [|done].
  cbn [mbind result_bind]. rewrite where_all.
  unfold __len__. by rewrite Nat2Z.id.
Qed.

(** X23. Without a mask, for a sequence whose text is [text] and a
    pattern that compiles, when both ends of every capturing group's
    span [[b, e)] are positions of the text, [slices_from_regex]
    yields the groups' own spans as slices, match by match and group
    by group, and indexing a valid sequence with such a slice gives
    the window of [e - b] symbols at [b]. *)
Theorem slices_from_regex_group_spans
    (self : Sequence) (regex : regex_arg pattern) (p : pattern)
    (text : string) :
  __str__ self = Ok text ->
  compile_if_text pattern re_compile regex = Ok p ->
  Forall (fun m =>
            Forall (fun span =>
                      indexes (Py.range_items 0 1 (length (_bytes self)))
                              span
                      ∧ span.1 <= span.2)
                   (group_spans m))
         (finditer p text) ->
  slices_from_regex pattern re_compile finditer self regex None
  = Generated (m ← finditer p text; span_slice <$> group_spans m) None
  ∧ (valid self ->
     forall m span, m ∈ finditer p text -> span ∈ group_spans m ->
       span_slice span
         ∈ yielded (slices_from_regex pattern re_compile finditer
                      self regex None)
       ∧ __getitem__ self (ISlice (span_slice span))
         = Ok (window_at self (Z.to_nat span.1)
                         (Z.to_nat (span.2 - span.1)))).
Proof.
  intros Hstr Hp Hspans.
  assert (Heq :
    slices_from_regex pattern re_compile finditer self regex None
    = Generated (m ← finditer p text; span_slice <$> group_spans m) None).
  { unfold slices_from_regex. rewrite Hp, Hstr.
    cbn [mbind result_bind]. unfold __len__. rewrite Nat2Z.id.
    rewrite remap_groups.
    - f_equal. induction (finditer p text) as [|m ms IH]; [done|].
      apply Forall_cons in Hspans as [Hm Hms].
      rewrite !bind_cons, IH by done. f_equal.
      apply list_eq_Forall2, Forall2_fmap, Forall_Forall2_diag.
      eapply Forall_impl; [exact Hm|]. cbv beta.
      intros span [Hidx _]. by apply remapped_slice_arange.
    - eapply Forall_impl; [exact Hspans|]. cbv beta. intros m Hm.
      eapply Forall_impl; [exact Hm|]. cbv beta. by intros span [? _]. }
  split; [exact Heq|].
  intros Hv m span Hm Hspan. split.
  - rewrite Heq. cbn [yielded]. apply list_elem_of_bind.
    exists m. split; [|done]. by apply list_elem_of_fmap_2.
  - apply (proj1 (Forall_forall _ _) Hspans) in Hm.
    apply (proj1 (Forall_forall _ _) Hm) in Hspan as [[Hb He] Hle].
    rewrite length_range_items in Hb, He.
    unfold span_slice.
    replace span.2 with (span.1 + (span.2 - span.1)) at 1 by lia.
    apply getitem_window; [done|lia|lia|unfold __len__; lia].
Qed.

End slices_from_regex_without_mask.

Lemma slices_from_regex_nothing_excluded_witness :
  slices_from_regex string Ok doc_finditer AATATACCGGTTATAA
    (RegexText "(TATA+)") (Some (nothing_excluded AATATACCGGTTATAA))
  = slices_from_regex string Ok doc_finditer AATATACCGGTTATAA
      (RegexText "(TATA+)") None
  ∧ yielded (slices_from_regex string Ok doc_finditer AATATACCGGTTATAA
               (RegexText "(TATA+)")
               (Some (nothing_excluded AATATACCGGTTATAA)))
    = [Py.Slice (Some 2) (Some 6) None; Py.Slice (Some 11) (Some 16) None].
Proof.
  split.
  - exact (slices_from_regex_nothing_excluded string Ok doc_finditer
             AATATACCGGTTATAA (RegexText "(TATA+)") I).
  - rewrite (slices_from_regex_nothing_excluded string Ok doc_finditer
               AATATACCGGTTATAA (RegexText "(TATA+)") I).
    vm_compute. reflexivity.
Defined.

Lemma slices_from_regex_group_spans_witness :
  slices_from_regex string Ok doc_finditer AATATACCGGTTATAA
    (RegexText "(TATA+)") None
  = Generated [Py.Slice (Some 2) (Some 6) None;
               Py.Slice (Some 11) (Some 16) None] None.
Proof.
  assert (Hfound : doc_finditer "(TATA+)" "AATATACCGGTTATAA"
                   = [Match (2, 6) [(2, 6)]; Match (11, 16) [(11, 16)]])
    by (vm_compute; reflexivity).
  assert (Hspans :
    Forall (fun m =>
              Forall (fun span =>
                        indexes (Py.range_items 0 1
                                   (length (_bytes AATATACCGGTTATAA))) span
                        ∧ span.1 <= span.2)
                     (group_spans m))
           (doc_finditer "(TATA+)" "AATATACCGGTTATAA")).
  { rewrite Hfound. repeat constructor; cbn; lia. }
  destruct (slices_from_regex_group_spans string Ok doc_finditer
              AATATACCGGTTATAA (RegexText "(TATA+)") "(TATA+)"
              "AATATACCGGTTATAA" eq_refl eq_refl Hspans) as [H _].
  rewrite H, Hfound. reflexivity.
Defined.

(* ----------------------------------------------------------------- *)
(** ** Indexing with an array or a list of integers *)

Lemma positions_Forall2 {A} (a : list A) (ix : list Z) :
  Forall (fun i => - Z.of_nat (length a) <= i < Z.of_nat (length a)) ix ->
  Forall2 (fun i x => a !! Z.to_nat (i mod Z.of_nat (length a)) = Some x
                      ∧ Np.getitem_int a i = Ok x)
          ix (positions a ix).
Proof.
  induction 1 as [|i ix Hi _ IH]; [constructor|].
  destruct (getitem_int_position a i Hi) as (x & Hx & Hg).
  unfold positions. cbn [omap list_omap]. rewrite Hx. by constructor.
Qed.

Lemma getitem_ints_positions {A} (a : list A) (ix : list Z) :
  Forall (fun i => - Z.of_nat (length a) <= i < Z.of_nat (length a)) ix ->
  Np.getitem_ints a ix = Ok (positions a ix).
Proof.
  intros Hix. apply traverse_Forall2.
  eapply Forall2_impl; [by apply positions_Forall2|]. by intros i x [_ ?].
Qed.

Lemma positions_Forall {A} (P : A -> Prop) (a : list A) (ix : list Z) :
  Forall P a -> Forall P (positions a ix).
Proof.
  intros Ha. apply Forall_forall. intros x Hx.
  apply list_elem_of_omap in Hx as (i & _ & Hi).
  apply (proj1 (Forall_forall _ _) Ha). by eapply list_elem_of_lookup_2.
Qed.

Lemma getitem_ints_outside {A} (a : list A) (ix : list Z) :
  Exists (fun i => i < - Z.of_nat (length a) ∨ Z.of_nat (length a) <= i) ix ->
  Np.getitem_ints a ix = Raise OutOfBoundsError.
Proof.
  intros Hex. apply traverse_Raise.
  - apply Forall_forall. intros i _.
    destruct (decide (- Z.of_nat (length a) <= i < Z.of_nat (length a)))
      as [Hi|Hi].
    + left. destruct (getitem_int_position a i Hi) as (x & _ & ->). done.
    + right. apply getitem_int_outside. lia.
  - eapply Exists_impl; [exact Hex|]. intros i Hi.
    by apply getitem_int_outside.
Qed.

Lemma int64_not_uint64_only (i : Z) :
  int64 i = true -> uint64_only i = false.
Proof.
  unfold int64, uint64_only.
  rewrite andb_true_iff, Z.leb_le, Z.ltb_lt. intros [_ Hi].
  apply andb_false_iff. left. apply Z.leb_gt. lia.
Qed.

Lemma existsb_ints (P : index_elem -> bool) (ix : list Z) :
  existsb P (EInt <$> ix) = existsb (fun i => P (EInt i)) ix.
Proof.
  induction ix as [|i l IH]; [done|].
  cbn [fmap list_fmap existsb]. by rewrite IH.
Qed.

Lemma existsb_none {A} (P Q : A -> bool) (l : list A) :
  (forall x, Q x = true -> P x = false) ->
  forallb Q l = true -> existsb P l = false.
Proof.
  intros HPQ. induction l as [|x l IH]; [done|].
  cbn [forallb existsb]. intros [Hx Hl]%andb_true_iff.
  by rewrite (HPQ x Hx), IH.
Qed.

(** A non-empty list of Python ints that fit [int64] becomes an array
    of dtype [int]. *)
Lemma asarray_ints (ix : list Z) :
  ix ≠ [] -> forallb int64 ix = true ->
  asarray (EInt <$> ix) = IntArray ix.
Proof.
  intros Hne H64. unfold asarray, asarray_dtype.
  rewrite !existsb_ints. cbv beta iota.
  rewrite (existsb_none (fun i => negb (int64 i) && negb (uint64_only i))
             int64) by (done || (intros i Hi; by rewrite Hi)).
  rewrite (existsb_none (fun _ => false) int64) by done.
  assert (Hsome : existsb (fun i => int64 i) ix = true).
  { destruct ix as [|i l]; [done|]. cbn [forallb existsb] in *.
    apply andb_true_iff in H64 as [-> _]. done. }
  rewrite Hsome.
  rewrite (existsb_none (fun i => uint64_only i) int64)
    by (done || apply int64_not_uint64_only).
  f_equal. unfold as_ints. clear.
  induction ix as [|x l IH]; [done|].
  cbn [fmap list_fmap omap list_omap]. by rewrite IH.
Qed.

Lemma getitem_int_array (self : Sequence) (ix : list Z) :
  valid self ->
  Forall (fun i => - __len__ self <= i < __len__ self) ix ->
  __getitem__ self (IArray (IntArray ix))
  = Ok (with_data self (positions (_bytes self) ix)
          ((fun q => positions q ix) <$> _quality self)).
Proof.
  intros Hv Hix. unfold __getitem__. cbn [mbind result_bind array_size].
  assert (Hsame : (if decide (length ix = 0%nat)
                   then IArray (IntArray []) else IArray (IntArray ix))
                  = IArray (IntArray ix)).
  { case_decide as Hz; [|done].
    apply length_zero_iff_nil in Hz. by subst ix. }
  rewrite Hsame. cbn [native_getitem].
  rewrite getitem_ints_positions by done.
  cbn [fmap result_fmap mbind result_bind].
  unfold valid in Hv.
  destruct (_quality self) as [q|] eqn:Eq.
  - destruct Hv as [Hl Hnn].
    rewrite getitem_ints_positions by (unfold __len__ in Hix; by rewrite Hl).
    cbn [fmap result_fmap mbind result_bind option_fmap option_map].
    apply (_to_with_data self _ (Some _)). split.
    + pose proof (positions_Forall2 (_bytes self) ix Hix) as H1.
      assert (Hix' : Forall (fun i => - Z.of_nat (length q) <= i
                                      < Z.of_nat (length q)) ix)
        by (unfold __len__ in Hix; by rewrite Hl).
      pose proof (positions_Forall2 q ix Hix') as H2.
      apply Forall2_length in H1, H2. lia.
    + by apply positions_Forall.
  - cbn [fmap result_fmap mbind result_bind option_fmap option_map].
    by apply (_to_with_data self _ None).
Qed.

(** X24. Indexing a valid sequence with an array of integers that all
    lie in [[-N, N)] selects the positions [i mod N] in the order of
    the array, with their quality scores, and keeps class, id and
    description; element [j] of the result is what indexing the source
    with the [j]-th integer gives.  An integer outside [[-N, N)]
    anywhere in the array raises the out-of-bounds error.  A list of
    Python ints that all fit 64 bits behaves as the array of its
    items. *)
Theorem getitem_integer_array (self : Sequence) (ix : list Z) :
  valid self ->
  (Forall (fun i => - __len__ self <= i < __len__ self) ix ->
     __getitem__ self (IArray (IntArray ix))
     = Ok (with_data self (positions (_bytes self) ix)
             ((fun q => positions q ix) <$> _quality self))
     ∧ length (positions (_bytes self) ix) = length ix
     ∧ forall (j : nat) (i : Z), ix !! j = Some i ->
         (s' ← __getitem__ self (IArray (IntArray ix));
          __getitem__ s' (IInt (Z.of_nat j)))
         = __getitem__ self (IInt i))
  ∧ (Exists (fun i => i < - __len__ self ∨ __len__ self <= i) ix ->
     __getitem__ self (IArray (IntArray ix)) = Raise OutOfBoundsError)
  ∧ (forallb int64 ix = true ->
     __getitem__ self (IIterable (EInt <$> ix))
     = __getitem__ self (IArray (IntArray ix))).
Proof.
  intros Hv. split; [|split].
  - intros Hix. pose proof (getitem_int_array self ix Hv Hix) as Hget.
    pose proof (positions_Forall2 (_bytes self) ix Hix) as Hb.
    split; [exact Hget|]. split; [by apply Forall2_length in Hb|].
    intros j i Hj. rewrite Hget. cbn [mbind result_bind].
    set (s' := with_data self (positions (_bytes self) ix)
                 ((fun q => positions q ix) <$> _quality self)).
    assert (Hi : - __len__ self <= i < __len__ self)
      by (by apply (Forall_lookup_1 _ _ _ _ Hix Hj)).
    assert (Hlen' : length (_bytes s') = length ix)
      by (by apply Forall2_length in Hb).
    assert (Hvs : valid s').
    { unfold valid, s'. cbn [with_data _quality _bytes].
      unfold valid in Hv. destruct (_quality self) as [q|]; [|done].
      destruct Hv as [Hl Hnn]. cbn [fmap option_fmap option_map]. split.
      - assert (Hix' : Forall (fun i => - Z.of_nat (length q) <= i
                                        < Z.of_nat (length q)) ix)
          by (unfold __len__ in Hix; by rewrite Hl).
        pose proof (positions_Forall2 q ix Hix') as H2.
        apply Forall2_length in Hb, H2. lia.
      - by apply positions_Forall. }
    pose proof (lookup_lt_Some _ _ _ Hj) as Hjlt.
    rewrite (getitem_int_window s') by (try done; unfold __len__; lia).
    rewrite (getitem_int_window self) by done. f_equal.
    rewrite Z.mod_small by (unfold __len__; lia). rewrite Nat2Z.id.
    destruct (Forall2_lookup_l _ _ _ _ _ Hb Hj) as (x & Hx & Hsrc & _).
    unfold __len__. unfold window_at, s', with_data.
    cbn [__class__ _id _description _bytes _quality]. f_equal.
    + rewrite (lookup_window_one _ _ _ Hx).
      by rewrite (lookup_window_one _ _ _ Hsrc).
    + unfold valid in Hv. destruct (_quality self) as [q|]; [|done].
      destruct Hv as [Hl _]. cbn [fmap option_fmap option_map]. f_equal.
      assert (Hix' : Forall (fun i => - Z.of_nat (length q) <= i
                                      < Z.of_nat (length q)) ix)
        by (unfold __len__ in Hix; by rewrite Hl).
      pose proof (positions_Forall2 q ix Hix') as Hq.
      destruct (Forall2_lookup_l _ _ _ _ _ Hq Hj) as (y & Hy & Hsrcq & _).
      rewrite (lookup_window_one _ _ _ Hy). rewrite <- Hl.
      by rewrite (lookup_window_one _ _ _ Hsrcq).
  - intros Hex. unfold __getitem__. cbn [mbind result_bind array_size].
    assert (Hsame : (if decide (length ix = 0%nat)
                     then IArray (IntArray []) else IArray (IntArray ix))
                    = IArray (IntArray ix)).
    { case_decide as Hz; [|done].
      apply length_zero_iff_nil in Hz. by subst ix. }
    rewrite Hsame. cbn [native_getitem].
    by rewrite getitem_ints_outside.
  - intros H64. destruct ix as [|i ix]; [done|].
    unfold __getitem__ at 1. by rewrite asarray_ints.
Qed.

Lemma getitem_integer_array_witness :
  __getitem__ GGUC (IArray (IntArray [3; -4; 0]))
  = Ok (plain "Sequence" (list_byte_of_string "CGG")).
Proof.
  assert (Hix : Forall (fun i => - __len__ GGUC <= i < __len__ GGUC)
                       [3; -4; 0]).
  { repeat constructor; vm_compute; discriminate. }
  destruct (getitem_integer_array GGUC [3; -4; 0] I) as [H _].
  destruct (H Hix) as [Hget _]. rewrite Hget. reflexivity.
Defined.

(* ----------------------------------------------------------------- *)
(** ** [slices_from_regex] with a mask, group by group *)

Lemma generate_fmap {A B C} (body : B -> result C) (k : A -> B)
    (items : list A) :
  generate body (k <$> items) = generate (fun x => body (k x)) items.
Proof.
  induction items as [|x items IH]; [done|].
  cbn [fmap list_fmap generate]. by rewrite <- IH.
Qed.

Lemma generate_ext {A B} (body body' : A -> result B) (items : list A) :
  Forall (fun x => body x = body' x) items ->
  generate body items = generate body' items.
Proof.
  induction 1 as [|x items Hx _ IH]; [done|].
  cbn [generate]. by rewrite Hx, IH.
Qed.

(** A generator whose body raises stops there: what it yielded
    before stays yielded. *)
Lemma generate_prefix {A B} (body : A -> result B) (h : A -> B)
    (pre : list A) (bad : A) (post : list A) (e : exn) :
  Forall (fun x => body x = Ok (h x)) pre ->
  body bad = Raise e ->
  generate body (pre ++ bad :: post) = Generated (h <$> pre) (Some e).
Proof.
  intros Hpre Hbad. induction Hpre as [|x pre Hx _ IH].
  - cbn [app generate]. by rewrite Hbad.
  - cbn [app generate fmap list_fmap]. by rewrite Hx, IH.
Qed.

(** The loop body on a span. *)
Lemma emit_reachable (lookup : list Z) (span : Z * Z) :
  reachable lookup span ->
  (first ← Np.getitem_int lookup span.1;
   last ← Np.getitem_int lookup (span.2 - 1);
   Ok (Py.Slice (Some first) (Some (last + 1)) None))
  = Ok (emitted lookup span).
Proof.
  intros [Hb He]. unfold emitted, lookup_at.
  destruct (getitem_int_position lookup span.1 Hb) as (x & -> & ->).
  destruct (getitem_int_position lookup (span.2 - 1) He) as (y & -> & ->).
  done.
Qed.

Lemma emit_unreachable (lookup : list Z) (span : Z * Z) :
  ¬ reachable lookup span ->
  (first ← Np.getitem_int lookup span.1;
   last ← Np.getitem_int lookup (span.2 - 1);
   Ok (Py.Slice (Some first) (Some (last + 1)) None))
  = Raise OutOfBoundsError.
Proof.
  intros Hn. unfold reachable, in_bounds in Hn.
  destruct (decide (- Z.of_nat (length lookup) <= span.1
                    < Z.of_nat (length lookup))) as [Hb|Hb].
  - destruct (getitem_int_position lookup span.1 Hb) as (x & _ & ->).
    cbn [mbind result_bind].
    rewrite (getitem_int_outside lookup (span.2 - 1)) by lia. done.
  - rewrite (getitem_int_outside lookup span.1) by lia. done.
Qed.

Lemma emitted_indexes (lookup : list Z) (span : Z * Z) :
  indexes lookup span ->
  reachable lookup span ∧ emitted lookup span = remapped_slice lookup span.
Proof.
  intros [Hb He]. split; [unfold reachable, in_bounds; lia|].
  unfold emitted, remapped_slice, lookup_at, remap.
  by rewrite !Z.mod_small by lia.
Qed.

(** The spans of the groups, against the pairs of a match and a group
    number the loops run through. *)
Lemma spans_of_pairs (ms : list re_match) :
  (m ← ms; group_spans m)
  = (fun mg : re_match * Z =>
       default (0, 0) (group_spans mg.1 !! Z.to_nat (mg.2 - 1)))
    <$> (match_ ← ms;
         g ← Py.range_items 1 1 (length (group_spans match_));
         [(match_, g)]).
Proof.
  induction ms as [|m ms IH]; [done|].
  rewrite !bind_cons, fmap_app, <- IH. f_equal.
  rewrite list_bind_pair, <- list_fmap_compose.
  rewrite <- (list_fmap_id (group_spans m)) at 1. symmetry.
  exact (fmap_group_numbers (fun o => default (0, 0) o) (group_spans m)).
Qed.

Lemma generate_groups (lookup : list Z) (ms : list re_match) :
  generate
    (fun '(match_, g) =>
       start ← match_start match_ g;
       first ← Np.getitem_int lookup start;
       end_ ← match_end match_ g;
       last ← Np.getitem_int lookup (end_ - 1);
       Ok (Py.Slice (Some first) (Some (last + 1)) None))
    (match_ ← ms;
     g ← Py.range_items 1 1 (length (group_spans match_));
     [(match_, g)])
  = generate
      (fun span =>
         first ← Np.getitem_int lookup span.1;
         last ← Np.getitem_int lookup (span.2 - 1);
         Ok (Py.Slice (Some first) (Some (last + 1)) None))
      (m ← ms; group_spans m).
Proof.
  rewrite spans_of_pairs, generate_fmap. apply generate_ext.
  apply Forall_forall. intros [m g] Hin.
  apply list_elem_of_bind in Hin as (m' & Hin & Hm').
  rewrite list_bind_pair in Hin.
  apply list_elem_of_fmap in Hin as (g' & [= <- <-] & Hg).
  unfold Py.range_items in Hg.
  apply list_elem_of_fmap in Hg as (j & -> & Hj).
  apply elem_of_seq in Hj as [_ Hj].
  destruct (group_spans m !! j) as [span|] eqn:Hspan;
    [|apply lookup_ge_None in Hspan; lia].
  unfold match_start, match_end, match_span. cbn [fst snd].
  rewrite (proj2 (Z.eqb_neq (1 + Z.of_nat j * 1) 0)) by lia.
  rewrite (proj2 (Z.ltb_ge (1 + Z.of_nat j * 1) 0)) by lia.
  replace (Z.to_nat (1 + Z.of_nat j * 1 - 1)) with j by lia.
  rewrite Hspan. cbn [fmap result_fmap mbind result_bind default
                      from_option id].
  by destruct (Np.getitem_int lookup span.1).
Qed.

Lemma length_groups (ms : list re_match) :
  length (m ← ms; group_spans m)
  = sum_list (length ∘ group_spans <$> ms).
Proof.
  induction ms as [|m ms IH]; [done|].
  rewrite bind_cons, length_app, IH. done.
Qed.

Section slices_from_regex_with_mask.
Variable pattern : Type.
Variable re_compile : string -> result pattern.
Variable finditer : pattern -> string -> list re_match.

(** X25. With a mask of the length of a valid sequence whose
    included symbols are ASCII, and a pattern that compiles,
    [slices_from_regex] matches against the text of the included
    positions and goes through the capturing groups 1, 2, ... of
    each match in turn, never through the whole match.  For a group
    with local span [[b, e)] it reads [lookup[b]] and [lookup[e-1]]
    in the ascending list of included positions, negative indices
    counted from the end, and yields the slice from the first to one
    past the second: for a span both of whose ends are positions of
    [lookup], as those of a non-empty group are, this is
    [[lookup[b], lookup[e-1] + 1)].  When all groups can be read
    there is one slice per group per match; at the first group that
    cannot, it raises the out-of-bounds error, and the slices of the
    groups before it are those it yielded. *)
Theorem slices_from_regex_masked (self : Sequence)
    (regex : regex_arg pattern) (p : pattern) (exclude : list bool) :
  valid self ->
  length exclude = length (_bytes self) ->
  forallb Py.is_ascii_byte (included_symbols self exclude) = true ->
  compile_if_text pattern re_compile regex = Ok p ->
  let lookup := included_positions exclude in
  let spans := m ← finditer p (included_text self exclude);
               group_spans m in
  (Forall (reachable lookup) spans ->
   slices_from_regex pattern re_compile finditer self regex (Some exclude)
   = Generated (emitted lookup <$> spans) None
   ∧ length (emitted lookup <$> spans)
     = sum_list (length ∘ group_spans
                   <$> finditer p (included_text self exclude)))
  ∧ (forall pre bad post,
       spans = pre ++ bad :: post ->
       Forall (reachable lookup) pre -> ¬ reachable lookup bad ->
       slices_from_regex pattern re_compile finditer self regex
         (Some exclude)
       = Generated (emitted lookup <$> pre) (Some OutOfBoundsError))
  ∧ (forall span, indexes lookup span ->
       reachable lookup span
       ∧ emitted lookup span = remapped_slice lookup span).
Proof.
  intros Hv Hlen Hascii Hp lookup spans.
  assert (Heq :
    slices_from_regex pattern re_compile finditer self regex (Some exclude)
    = generate
        (fun span =>
           first ← Np.getitem_int lookup span.1;
           last ← Np.getitem_int lookup (span.2 - 1);
           Ok (Py.Slice (Some first) (Some (last + 1)) None))
        spans).
  { unfold slices_from_regex. rewrite Hp. cbn [mbind result_bind].
    rewrite getitem_mask
      by (try done; unfold Np.invert; by rewrite length_fmap).
    cbn [mbind result_bind]. unfold __str__, _string, Py.decode_ascii.
    cbn [with_data _bytes].
    rewrite compress_where
      by (unfold Np.invert; by rewrite length_fmap).
    rewrite where_invert_included.
    fold (included_symbols self exclude). rewrite Hascii.
    cbn [mbind result_bind].
    apply generate_groups. }
  split; [|split].
  - intros Hall. split.
    + rewrite Heq. apply (generate_all _ (emitted lookup)).
      eapply Forall_impl; [exact Hall|]. apply emit_reachable.
    + rewrite length_fmap. apply length_groups.
  - intros pre bad post Hsp Hpre Hbad. rewrite Heq, Hsp.
    apply (generate_prefix _ (emitted lookup)).
    + eapply Forall_impl; [exact Hpre|]. apply emit_reachable.
    + by apply emit_unreachable.
  - apply emitted_indexes.
Qed.
End slices_from_regex_with_mask.

Lemma slices_from_regex_masked_witness :
  slices_from_regex string Ok doc_finditer AATA_gapped
    (RegexText "(TATA+)") (Some AATA_gaps)
  = Generated [Py.Slice (Some 2) (Some 8) None;
               Py.Slice (Some 13) (Some 19) None] None.
Proof.
  assert (Hpos : included_positions AATA_gaps
                 = [0; 1; 2; 3; 6; 7; 8; 9; 10; 11; 12; 13; 14; 15; 16; 18])
    by (vm_compute; reflexivity).
  assert (Hfound : doc_finditer "(TATA+)" (included_text AATA_gapped AATA_gaps)
                   = [Match (2, 6) [(2, 6)]; Match (11, 16) [(11, 16)]])
    by (vm_compute; reflexivity).
  destruct (slices_from_regex_masked string Ok doc_finditer AATA_gapped
              (RegexText "(TATA+)") "(TATA+)" AATA_gaps
              I eq_refl eq_refl eq_refl) as [H _].
  rewrite Hpos, Hfound in H.
  destruct H as [H _].
  { repeat constructor; cbn; lia. }
  rewrite H. reflexivity.
Defined.
